(** * Kubric-Pallets: warehouse scene generation, texture discovery and
      archival conversion

    A shallow embedding of [warehouse.py], [warehouse_utils.py] and
    [hdf5_convert.py].  Python floats are idealised as real numbers,
    Python [str] values as ASCII strings, and the process-wide random
    generator as an explicit tape of draws threaded through the code. *)

From Stdlib Require Import List Arith Lia Bool ZArith Permutation.
From Stdlib Require Import Ascii String DecimalString.
From Stdlib Require DecimalNat DecimalFacts.
From Stdlib Require Import Reals Lra.
Import ListNotations.

Set Implicit Arguments.

(* ================================================================== *)
(** * Python exceptions and results *)
(* ================================================================== *)

(** The exception classes the modelled code can meet.  [SystemExit] and
    [KeyboardInterrupt] derive from [BaseException] only; every other
    class below derives from [Exception]. *)
Inductive exn_class : Type :=
  | IndexError | ValueError | ZeroDivisionError | RuntimeError
  | BrokenProcessPool | SystemExit | KeyboardInterrupt.

Record exn : Type := mkExn { exn_cls : exn_class; exn_msg : string }.

(** [isinstance(e, Exception)]. *)
Definition is_Exception (e : exn) : bool :=
  match exn_cls e with
  | SystemExit | KeyboardInterrupt => false
  | _ => true
  end.

Inductive result (A : Type) : Type :=
  | Ok (a : A)
  | Raise (e : exn).
Arguments Ok {A} a.
Arguments Raise {A} e.

(* ================================================================== *)
(** * Strings: the [str] methods and [os.path] functions that are used *)
(* ================================================================== *)

Module PyStr.

Local Open Scope string_scope.

(** [str(n)] for a non-negative [int]. *)
Definition str_of_nat (n : nat) : string :=
  NilEmpty.string_of_uint (Nat.to_uint n).

(** ASCII lower-casing of one character, and [str.lower]. *)
Definition lower_ascii (c : ascii) : ascii :=
  let n := nat_of_ascii c in
  if andb (Nat.leb 65 n) (Nat.leb n 90) then ascii_of_nat (n + 32) else c.

Fixpoint lower (s : string) : string :=
  match s with
  | "" => ""
  | String c s' => String (lower_ascii c) (lower s')
  end.

(** [s.startswith(p)]. *)
Definition startswith (s p : string) : bool := String.prefix p s.

(** [s.endswith(p)]. *)
Definition endswith (s p : string) : bool :=
  let n := String.length s in
  let m := String.length p in
  andb (Nat.leb m n) (String.eqb (String.substring (n - m) m s) p).

(** [sub in s]: substring search. *)
Fixpoint contains (sub s : string) : bool :=
  orb (String.prefix sub s)
      (match s with
       | "" => false
       | String _ s' => contains sub s'
       end).

(** [s.split(sep)] for a one-character separator. *)
Fixpoint split (sep : ascii) (s : string) : list string :=
  match s with
  | "" => [""]
  | String c s' =>
      if Ascii.eqb c sep then "" :: split sep s'
      else match split sep s' with
           | [] => [String c ""]
           | h :: t => String c h :: t
           end
  end.

(** No occurrence of character [c] in [s]. *)
Fixpoint free_of (c : ascii) (s : string) : bool :=
  match s with
  | "" => true
  | String d s' => andb (negb (Ascii.eqb d c)) (free_of c s')
  end.

Definition sep : string := "/".
Definition sep_char : ascii := "/"%char.

(** [posixpath.join(a, b)]; [os.path.join(a, b, c)] folds it. *)
Definition join2 (path b : string) : string :=
  if startswith b sep then b
  else if orb (String.eqb path "") (endswith path sep) then path ++ b
  else path ++ sep ++ b.

Definition join (a : string) (p : list string) : string :=
  fold_left join2 p a.

(** [posixpath.basename(p)]: what follows the last slash. *)
Definition basename (p : string) : string :=
  last (split sep_char p) "".

(** [posixpath.isabs]. *)
Definition isabs (p : string) : bool := startswith p sep.

(** The component loop of [posixpath.normpath]: [new_comps] grows at
    its end and [..] pops from its end. *)
Fixpoint normpath_loop (initial_slashes : nat) (comps new_comps : list string)
  : list string :=
  match comps with
  | [] => new_comps
  | comp :: rest =>
      if orb (String.eqb comp "") (String.eqb comp ".")
      then normpath_loop initial_slashes rest new_comps
      else if orb (negb (String.eqb comp ".."))
                (orb (andb (Nat.eqb initial_slashes 0)
                           (match new_comps with [] => true | _ => false end))
                     (match new_comps with
                      | [] => false
                      | _ => String.eqb (last new_comps "") ".."
                      end))
      then normpath_loop initial_slashes rest (new_comps ++ [comp])
      else match new_comps with
           | [] => normpath_loop initial_slashes rest new_comps
           | _ => normpath_loop initial_slashes rest (removelast new_comps)
           end
  end.

Fixpoint repeat_string (s : string) (n : nat) : string :=
  match n with
  | O => ""
  | S n' => s ++ repeat_string s n'
  end.

Definition normpath (path : string) : string :=
  if String.eqb path "" then "."
  else
    let initial_slashes :=
      if startswith path sep
      then if andb (startswith path "//") (negb (startswith path "///"))
           then 2 else 1
      else 0 in
    let comps := normpath_loop initial_slashes (split sep_char path) [] in
    let p := String.concat sep comps in
    let p := repeat_string sep initial_slashes ++ p in
    if String.eqb p "" then "." else p.

Section WithCwd.

(** What [os.getcwd()] returns in the running process. *)
Variable getcwd : string.

Definition abspath (path : string) : string :=
  if isabs path then normpath path else normpath (join2 getcwd path).

(** Length of the longest common prefix of two component lists
    ([len(commonprefix([start_list, path_list]))]). *)
Fixpoint commonprefix_len (l1 l2 : list string) : nat :=
  match l1, l2 with
  | a :: l1', b :: l2' =>
      if String.eqb a b then S (commonprefix_len l1' l2') else 0
  | _, _ => 0
  end.

Definition nonempty_comps (p : string) : list string :=
  filter (fun x => negb (String.eqb x "")) (split sep_char p).

(** [posixpath.relpath(path, start)]. *)
Definition relpath (path start : string) : result string :=
  if String.eqb path "" then Raise (mkExn ValueError "no path specified")
  else
    let start_list := nonempty_comps (abspath start) in
    let path_list := nonempty_comps (abspath path) in
    let i := commonprefix_len start_list path_list in
    let rel_list :=
      List.app (repeat ".." (List.length start_list - i)) (skipn i path_list) in
    match rel_list with
    | [] => Ok "."
    | a :: p => Ok (join a p)
    end.

End WithCwd.

End PyStr.

(* ================================================================== *)
(** * [warehouse_utils.py]: texture discovery *)
(* ================================================================== *)

Module WarehouseUtils.

Local Open Scope string_scope.
Import PyStr.

(** The part of the file system the functions look at:
    [os.path.exists] and the triples [os.walk] yields, in the order the
    operating system lists them. *)
Record filesystem : Type := mkFs {
  fs_exists : string -> bool;
  fs_walk : string -> list (string * list string * list string)
}.

Inductive role : Type := Color | Normal | Roughness.

Definition role_eqb (a b : role) : bool :=
  match a, b with
  | Color, Color | Normal, Normal | Roughness, Roughness => true
  | _, _ => false
  end.

(** The [patterns] dictionary, in insertion order.  Each compiled
    expression is an alternation of literal words searched with
    [re.IGNORECASE]. *)
Definition patterns : list (role * list string) :=
  [ (Color, ["color"; "albedo"]); (Normal, ["normal"]); (Roughness, ["roughness"]) ].

(** [pattern.search(file)] for such an expression. *)
Definition search (words : list string) (file : string) : bool :=
  existsb (fun w => contains w (lower file)) words.

(** One value of [grouped_textures]: at most one file per role.  The
    same record is the texture set that is returned, a missing role
    being [None]. *)
Record texture_set : Type := mkTextureSet {
  color : option string;
  normal : option string;
  roughness : option string
}.

Definition empty_set : texture_set := mkTextureSet None None None.

(** [textures[key] = file]. *)
Definition set_role (t : texture_set) (key : role) (file : string) : texture_set :=
  match key with
  | Color => mkTextureSet (Some file) (normal t) (roughness t)
  | Normal => mkTextureSet (color t) (Some file) (roughness t)
  | Roughness => mkTextureSet (color t) (normal t) (Some file)
  end.

Definition get_role (t : texture_set) (key : role) : option string :=
  match key with
  | Color => color t
  | Normal => normal t
  | Roughness => roughness t
  end.

(** [grouped_textures]: a dictionary that keeps insertion order. *)
Definition grouped := list (string * texture_set).

Fixpoint lookup (k : string) (g : grouped) : option texture_set :=
  match g with
  | [] => None
  | (k', v) :: g' => if String.eqb k k' then Some v else lookup k g'
  end.

(** [if base_name not in g: g[base_name] = {}] followed by
    [g[base_name][key] = file]. *)
Fixpoint assign (g : grouped) (base_name : string) (key : role) (file : string)
  : grouped :=
  match g with
  | [] => [(base_name, set_role empty_set key file)]
  | (k', v) :: g' =>
      if String.eqb base_name k' then (k', set_role v key file) :: g'
      else (k', v) :: assign g' base_name key file
  end.

(** [os.path.basename(file).split("_")[0]]. *)
Definition base_name_of (file : string) : string :=
  hd "" (split "_"%char (basename file)).

(** The inner loop over [patterns.items()] for one file. *)
Definition classify (g : grouped) (file : string) : grouped :=
  fold_left
    (fun g kp => if search (snd kp) file
                 then assign g (base_name_of file) (fst kp) file
                 else g)
    patterns g.

Definition is_texture_file (file : string) : bool :=
  orb (endswith (lower file) ".jpg") (endswith (lower file) ".png").

Definition texture_files (fs : filesystem) (base_path : string) : list string :=
  flat_map
    (fun t => match t with
              | (root, _, files) =>
                  map (fun file => join root [file]) (filter is_texture_file files)
              end)
    (fs_walk fs base_path).

Definition group_textures (files : list string) : grouped :=
  fold_left classify files [].

Definition discover_textures (fs : filesystem) (base_path : string)
  : list texture_set :=
  if negb (fs_exists fs base_path) then []
  else
    let files := texture_files fs base_path in
    match files with
    | [] => []
    | _ => map snd (group_textures files)
    end.

(** A file system holding one directory [dir] with the plain files
    [files], listed in that order. *)
Definition single_directory (dir : string) (files : list string) : filesystem :=
  mkFs (fun p => String.eqb p dir)
       (fun p => if String.eqb p dir then [(dir, [], files)] else []).

(** The default [extensions] of [discover_assets]. *)
Definition asset_extensions : list string := [".obj"; ".glb"; ".fbx"].

(** [file.lower().endswith(extensions)] for a tuple of suffixes. *)
Definition has_extension (extensions : list string) (file : string) : bool :=
  existsb (fun e => endswith (lower file) e) extensions.

Definition discover_assets (fs : filesystem) (base_path : string)
           (extensions : list string) : list string :=
  if negb (fs_exists fs base_path) then []
  else
    flat_map
      (fun t => match t with
                | (root, _, files) =>
                    map (fun file => join root [file])
                        (filter (has_extension extensions) files)
                end)
      (fs_walk fs base_path).

End WarehouseUtils.

(* ================================================================== *)
(** * [scipy.spatial.transform.Rotation] and the [numpy] arrays used *)
(* ================================================================== *)

Module Geometry.

Local Open Scope R_scope.

Definition vec3 : Type := (R * R * R)%type.

(** A four-component sequence as [Rotation.from_quat] receives it; the
    library reads it in the order (x, y, z, w). *)
Definition quat4 : Type := (R * R * R * R)%type.

(** The unit quaternion a [Rotation] object holds, scalar last. *)
Record Rotation : Type := mkRot { qx : R; qy : R; qz : R; qw : R }.

Definition norm2 (q : Rotation) : R :=
  qx q * qx q + qy q * qy q + qz q * qz q + qw q * qw q.

(** Division of every component by the norm, as the constructor does
    when [normalize=True]; a zero norm raises [ValueError]. *)
Definition normalize (q : Rotation) : result Rotation :=
  let n := sqrt (norm2 q) in
  if Req_dec_T n 0
  then Raise (mkExn ValueError "Found zero norm quaternions in `quat`.")
  else Ok (mkRot (qx q / n) (qy q / n) (qz q / n) (qw q / n)).

(** [Rotation.from_quat(quat)]. *)
Definition from_quat (q : quat4) : result Rotation :=
  match q with
  | (x, y, z, w) => normalize (mkRot x y z w)
  end.

(** [_compose_quat(p, q)]: the Hamilton product, scalar last. *)
Definition compose_quat (p q : Rotation) : Rotation :=
  mkRot
    (qw p * qx q + qw q * qx p + (qy p * qz q - qz p * qy q))
    (qw p * qy q + qw q * qy p + (qz p * qx q - qx p * qz q))
    (qw p * qz q + qw q * qz p + (qx p * qy q - qy p * qx q))
    (qw p * qw q - qx p * qx q - qy p * qy q - qz p * qz q).

(** [p * q] on rotations: the product is normalised again. *)
Definition mul (p q : Rotation) : result Rotation :=
  normalize (compose_quat p q).

(** [r.inv()]: the conjugate. *)
Definition inv (r : Rotation) : Rotation :=
  mkRot (- qx r) (- qy r) (- qz r) (qw r).

Inductive axis : Type := AxX | AxY | AxZ.

(** [_make_elementary_quat(axis, angle)]. *)
Definition make_elementary_quat (a : axis) (angle : R) : Rotation :=
  let s := sin (angle / 2) in
  let c := cos (angle / 2) in
  match a with
  | AxX => mkRot s 0 0 c
  | AxY => mkRot 0 s 0 c
  | AxZ => mkRot 0 0 s c
  end.

Definition deg2rad (a : R) : R := a * (PI / 180).
Definition rad2deg (a : R) : R := a * (180 / PI).

Definition map3 (f : R -> R) (v : vec3) : vec3 :=
  match v with (a, b, c) => (f a, f b, f c) end.

(** [Rotation.from_euler("xyz", angles, degrees)]: lower-case axes are
    extrinsic, so each further elementary rotation is composed on the
    left of the result so far. *)
Definition from_euler_xyz (angles : vec3) (degrees : bool) : Rotation :=
  match (if degrees then map3 deg2rad angles else angles) with
  | (a, b, c) =>
      let result := make_elementary_quat AxX a in
      let result := compose_quat (make_elementary_quat AxY b) result in
      compose_quat (make_elementary_quat AxZ c) result
  end.

(** A [numpy] matrix, as the list of its rows. *)
Definition matrix : Type := list (list R).

(** [r.as_matrix()]. *)
Definition as_matrix (r : Rotation) : matrix :=
  let x := qx r in let y := qy r in let z := qz r in let w := qw r in
  let x2 := x * x in let y2 := y * y in let z2 := z * z in let w2 := w * w in
  let xy := x * y in let zw := z * w in let xz := x * z in
  let yw := y * w in let yz := y * z in let xw := x * w in
  [ [ x2 - y2 - z2 + w2; 2 * (xy - zw); 2 * (xz + yw) ];
    [ 2 * (xy + zw); - x2 + y2 - z2 + w2; 2 * (yz - xw) ];
    [ 2 * (xz - yw); 2 * (yz + xw); - x2 - y2 + z2 + w2 ] ].

(** [np.eye(n)]. *)
Definition eye (n : nat) : matrix :=
  map (fun i => map (fun j => if Nat.eqb i j then 1 else 0) (seq 0 n)) (seq 0 n).

(** Entry [m[i, j]]; out of range reads are 0 in the model. *)
Definition entry (m : matrix) (i j : nat) : R := nth j (nth i m []) 0.

(** [t[:3, :3] = m]: the first three entries of the first three rows. *)
Definition set_block3 (t m : matrix) : matrix :=
  map (fun ir : nat * list R =>
         let (i, row) := ir in
         if Nat.ltb i 3 then List.app (firstn 3 (nth i m [])) (skipn 3 row) else row)
      (combine (seq 0 (List.length t)) t).

(** [t[:3, 3] = v]: entry 3 of the first three rows. *)
Definition set_col3 (t : matrix) (v : vec3) : matrix :=
  match v with
  | (a, b, c) =>
      map (fun ir : nat * list R =>
             let (i, row) := ir in
             if Nat.ltb i 3
             then List.app (firstn 3 row) (nth i [a; b; c] 0 :: skipn 4 row)
             else row)
          (combine (seq 0 (List.length t)) t)
  end.

(** [m[:3, :3]] and [m[:3, 3]]. *)
Definition block3 (m : matrix) : matrix := map (firstn 3) (firstn 3 m).
Definition col3 (m : matrix) : list R := map (fun row => nth 3 row 0) (firstn 3 m).

Definition transpose3 (m : matrix) : matrix :=
  map (fun j => map (fun i => entry m i j) (seq 0 3)) (seq 0 3).

Definition matmul3 (a b : matrix) : matrix :=
  map (fun i =>
         map (fun j => entry a i 0 * entry b 0 j + entry a i 1 * entry b 1 j
                       + entry a i 2 * entry b 2 j)
             (seq 0 3))
      (seq 0 3).

Definition det3 (m : matrix) : R :=
  entry m 0 0 * (entry m 1 1 * entry m 2 2 - entry m 1 2 * entry m 2 1)
  - entry m 0 1 * (entry m 1 0 * entry m 2 2 - entry m 1 2 * entry m 2 0)
  + entry m 0 2 * (entry m 1 0 * entry m 2 1 - entry m 1 1 * entry m 2 0).

(** The library's Euler-angle extraction, of which the development
    only fixes the unit handling: [euler_rad] is the triple of xyz
    angles in radians that [as_euler("xyz")] computes for a rotation. *)
Class EulerExtraction : Type := { euler_rad : Rotation -> vec3 }.

(** [r.as_euler("xyz", degrees)]: radians unless [degrees] is set. *)
Definition as_euler_xyz `{EulerExtraction} (r : Rotation) (degrees : bool) : vec3 :=
  let angles := euler_rad r in
  if degrees then map3 rad2deg angles else angles.

End Geometry.

(* ================================================================== *)
(** * [hdf5_convert.py] *)
(* ================================================================== *)

Module Hdf5Convert.

Import Geometry.
Local Open Scope R_scope.

(** [create_transformation_matrix(position, euler_angles)]. *)
Definition create_transformation_matrix (position euler_angles : vec3) : matrix :=
  let r := from_euler_xyz euler_angles true in
  let rotation_matrix := as_matrix r in
  let transformation_matrix := eye 4 in
  let transformation_matrix := set_block3 transformation_matrix rotation_matrix in
  set_col3 transformation_matrix position.

(** The two image paths [process_scene] builds for a camera directory
    [cam_dir] of [scene_path], from the strings found in that camera's
    metadata. *)
Definition image_path (scene_path cam_dir stored : string) : string :=
  PyStr.join scene_path [cam_dir; stored].

(** [scene_path] as [convert_to_hdf5] builds it for a directory entry
    [scene_dir] of [data_root]. *)
Definition scene_path_of (data_root scene_dir : string) : string :=
  PyStr.join data_root [scene_dir].

Definition data_root : string := "output".

End Hdf5Convert.

(* ================================================================== *)
(** * [warehouse.py] *)
(* ================================================================== *)

Module Warehouse.

Import Geometry.
Import WarehouseUtils.
Local Open Scope R_scope.

(** ** The scene graph of the rendering library *)

(** What the rendering library computes on quaternions is not part of
    the repository; it is an interface here.  [Quaternion axis angle]
    is [kb.Quaternion(axis=..., angle=...)], [quat_mul] its product,
    [default_quaternion] the orientation of an entity built without
    one, [look_at_quat position target] the orientation an entity built
    with [look_at=target] receives, and [default_ambient] the ambient
    colour of a fresh scene. *)
Class KubricLib : Type := {
  Quaternion : vec3 -> R -> quat4;
  quat_mul : quat4 -> quat4 -> quat4;
  default_quaternion : quat4;
  look_at_quat : vec3 -> vec3 -> quat4;
  default_ambient : list R
}.

(** The entities the code creates. *)
Inductive asset : Type :=
  | Cube (name : string) (scale position : vec3)
  | DirectionalLight (position look_at : vec3) (intensity : R) (color : vec3)
  | PointLight (position : vec3) (intensity : R) (color : vec3)
  | FileBasedObject (name simulation_filename render_filename : string)
                    (scale position : vec3) (quaternion : quat4)
  | PerspectiveCamera (position look_at : vec3)
                      (focal_length min_render_distance max_render_distance : R).

(** [isinstance(o, kb.PhysicalObject)]: in the library's class
    hierarchy [Cube] and [FileBasedObject] derive from
    [PhysicalObject]; lights and cameras derive from [Object3D] only. *)
Definition is_PhysicalObject (o : asset) : bool :=
  match o with
  | Cube _ _ _ | FileBasedObject _ _ _ _ _ _ => true
  | _ => false
  end.

(** [isinstance(o, kb.Light)]. *)
Definition is_Light (o : asset) : bool :=
  match o with
  | DirectionalLight _ _ _ _ | PointLight _ _ _ => true
  | _ => false
  end.

Definition is_DirectionalLight (o : asset) : bool :=
  match o with DirectionalLight _ _ _ _ => true | _ => false end.

Definition is_PointLight (o : asset) : bool :=
  match o with PointLight _ _ _ => true | _ => false end.

Definition asset_name (o : asset) : string :=
  match o with
  | Cube n _ _ | FileBasedObject n _ _ _ _ _ => n
  | DirectionalLight _ _ _ _ => "DirectionalLight"
  | PointLight _ _ _ => "PointLight"
  | PerspectiveCamera _ _ _ _ _ => "PerspectiveCamera"
  end.

Definition asset_position (o : asset) : vec3 :=
  match o with
  | Cube _ _ p | DirectionalLight p _ _ _ | PointLight p _ _
  | FileBasedObject _ _ _ _ p _ | PerspectiveCamera p _ _ _ _ => p
  end.

Definition asset_scale (o : asset) : vec3 :=
  match o with
  | Cube _ s _ | FileBasedObject _ _ _ s _ _ => s
  | _ => (1, 1, 1)
  end.

Definition asset_quaternion `{KubricLib} (o : asset) : quat4 :=
  match o with
  | FileBasedObject _ _ _ _ _ q => q
  | DirectionalLight p l _ _ | PerspectiveCamera p l _ _ _ => look_at_quat p l
  | Cube _ _ _ | PointLight _ _ _ => default_quaternion
  end.

Record Scene : Type := mkScene {
  assets : list asset;
  ambient_illumination : list R;
  camera : option asset
}.

(** The renderer: [render_still] either delivers a frame or raises. *)
Class Renderer : Type := { render_still : Scene -> result unit }.

(** ** The random generator *)

(** The draws of the process-wide generator, by call number:
    [next_float k] is what [random.random()] returns at call [k],
    [next_nat k] the raw integer behind a bounded integer draw, and
    [next_normal k] a standard normal deviate. *)
Record Rng : Type := mkRng {
  next_float : nat -> R;
  next_nat : nat -> nat;
  next_normal : nat -> R
}.

(** The state a scene job threads: the number of draws made so far and
    the scene under construction. *)
Record state : Type := mkState { draws : nat; scene : Scene }.

Definition M (A : Type) : Type := state -> result (A * state).

Definition ret {A} (a : A) : M A := fun st => Ok (a, st).

Definition bind {A B} (m : M A) (k : A -> M B) : M B :=
  fun st => match m st with
            | Ok (a, st') => k a st'
            | Raise e => Raise e
            end.

Definition raise {A} (e : exn) : M A := fun _ => Raise e.

Definition lift {A} (r : result A) : M A :=
  fun st => match r with Ok a => Ok (a, st) | Raise e => Raise e end.

Notation "x <- c1 ;; c2" := (bind c1 (fun x => c2))
  (at level 61, c1 at next level, right associativity).
Notation "c1 ;;; c2" := (bind c1 (fun _ => c2))
  (at level 61, right associativity).

(** [for x in xs: body(x)]. *)
Fixpoint for_each {A} (xs : list A) (body : A -> M unit) : M unit :=
  match xs with
  | [] => ret tt
  | x :: xs' => body x ;;; for_each xs' body
  end.

(** A loop that carries an accumulator. *)
Fixpoint fold_each {A B} (xs : list A) (body : B -> A -> M B) (acc : B) : M B :=
  match xs with
  | [] => ret acc
  | x :: xs' => acc' <- body acc x ;; fold_each xs' body acc'
  end.

(** [range(n)]. *)
Definition range (n : nat) : list nat := seq 0 n.

(** [scene += o]. *)
Definition add (o : asset) : M unit :=
  fun st =>
    let s := scene st in
    Ok (tt, mkState (draws st)
                    (mkScene (List.app (assets s) [o]) (ambient_illumination s) (camera s))).

Definition set_ambient (c : list R) : M unit :=
  fun st =>
    let s := scene st in
    Ok (tt, mkState (draws st) (mkScene (assets s) c (camera s))).

(** [scene.camera = c]. *)
Definition set_camera (c : asset) : M unit :=
  fun st =>
    let s := scene st in
    Ok (tt, mkState (draws st) (mkScene (assets s) (ambient_illumination s) (Some c))).

Definition get_scene : M Scene := fun st => Ok (scene st, st).

Section Random.

Variable rng : Rng.

Definition tick {A} (f : nat -> A) : M A :=
  fun st => Ok (f (draws st), mkState (S (draws st)) (scene st)).

(** [random.uniform(a, b)] is [a + (b - a) * random()]. *)
Definition uniform (a b : R) : M R :=
  tick (fun k => a + (b - a) * next_float rng k).

(** [random.randint(a, b)] is [a + _randbelow(b - a + 1)]. *)
Definition randint (a b : nat) : M nat :=
  if Nat.ltb b a then raise (mkExn ValueError "empty range for randrange()")
  else tick (fun k => (a + next_nat rng k mod (b - a + 1))%nat).

(** [random.choice(seq)] is [seq[_randbelow(len(seq))]]. *)
Definition choice {A} (l : list A) : M A :=
  match l with
  | [] => raise (mkExn IndexError "Cannot choose from an empty sequence")
  | d :: _ => tick (fun k => nth (next_nat rng k mod List.length l) l d)
  end.

(** [random.gauss(mu, sigma)]. *)
Definition gauss (mu sigma : R) : M R :=
  tick (fun k => mu + next_normal rng k * sigma).

End Random.

(** ** Constants and catalogues *)

Definition OUTPUT_DIR : string := "output".
Definition CAMERA_FOCAL_LENGTH_GAUSSIAN : R * R := (5, 2).
Definition TEXTURE_SCALE_RANGE : R * R := (0.5, 1.5).

Inductive category : Type := Pallet | Rack | Forklift.

Definition RANGES (c : category) : nat * nat :=
  match c with
  | Pallet => (1, 5)
  | Rack => (10, 30)
  | Forklift => (5, 10)
  end%nat.

(** [ASSET_CATEGORIES] and [TEXTURE_CATEGORIES], as discovered when the
    module is loaded. *)
Record Catalogs : Type := mkCatalogs {
  ASSET_CATEGORIES : category -> list string;
  tex_wood : list texture_set;
  tex_metal : list texture_set;
  tex_plastic : list texture_set;
  tex_floor : list texture_set
}.

Record Dims : Type := mkDims { length : R; width : R; height : R }.

(** ** The documents written to disk *)

Record SceneObjectRecord : Type := mkObjectRecord {
  rec_name : string;
  rec_position : vec3;
  rec_scale : vec3;
  rec_rotation : vec3
}.

Record SceneMetadata : Type := mkSceneMetadata {
  scene_index : nat;
  warehouse_dimensions : Dims;
  ambient_color : list R;
  num_lights : nat;
  objects : list SceneObjectRecord
}.

Record CameraMetadata : Type := mkCameraMetadata {
  camera_index : nat;
  cam_position : vec3;
  relative_position_xyz : vec3;
  relative_orientation_xyz : vec3;
  cam_focal_length : R;
  rgba_path : string;
  depth_path : string
}.

(** What [save_render_data] leaves on disk for one camera: the paths
    of the four images and of the metadata file, and the metadata. *)
Record CameraArtifacts : Type := mkCameraArtifacts {
  rgba_file : string;
  depth_file : string;
  depth_png_file : string;
  segmentation_file : string;
  camera_metadata_file : string;
  camera_metadata : CameraMetadata
}.

Record SceneArtifacts : Type := mkSceneArtifacts {
  scene_metadata_file : string;
  scene_metadata : SceneMetadata;
  camera_artifacts : list CameraArtifacts
}.

(** Mapping a fallible function over a list, stopping at the first
    exception. *)
Fixpoint map_result {A B} (f : A -> result B) (l : list A) : result (list B) :=
  match l with
  | [] => Ok []
  | a :: l' =>
      match f a with
      | Raise e => Raise e
      | Ok b => match map_result f l' with
                | Raise e => Raise e
                | Ok bs => Ok (b :: bs)
                end
      end
  end.

Section Program.

Context {kubric : KubricLib} {renderer : Renderer} {euler : EulerExtraction}.
Variable rng : Rng.
Variable catalogs : Catalogs.
Variable getcwd : string.

(** [apply_texture] only edits the renderer's materials, which no
    document reads back. *)
Definition apply_texture (o : asset) (t : texture_set) (scale : R) : M unit :=
  ret tt.

Definition setup_building : M Dims :=
  warehouse_length <- uniform rng 30 100 ;;
  warehouse_width <- uniform rng 20 70 ;;
  warehouse_height <- uniform rng 8 20 ;;
  let valid_texture_categories :=
    List.app (tex_floor catalogs)
      (List.app (tex_wood catalogs)
         (List.app (tex_metal catalogs) (tex_plastic catalogs))) in
  let floor :=
    Cube "floor" (warehouse_length, warehouse_width, 0.1) (0, 0, - 0.1) in
  add floor ;;;
  t <- choice rng valid_texture_categories ;;
  s <- uniform rng 100 300 ;;
  apply_texture floor t s ;;;
  let wall_thickness := 0.2 in
  let walls :=
    [ Cube "front_wall" (warehouse_length, wall_thickness, warehouse_height)
           (0, - warehouse_width / 2, warehouse_height / 2);
      Cube "back_wall" (warehouse_length, wall_thickness, warehouse_height)
           (0, warehouse_width / 2, warehouse_height / 2);
      Cube "left_wall" (wall_thickness, warehouse_width, warehouse_height)
           (- warehouse_length / 2, 0, warehouse_height / 2);
      Cube "right_wall" (wall_thickness, warehouse_width, warehouse_height)
           (warehouse_length / 2, 0, warehouse_height / 2) ] in
  for_each walls (fun wall =>
    add wall ;;;
    t <- choice rng valid_texture_categories ;;
    s <- uniform rng 50 150 ;;
    apply_texture wall t s) ;;;
  ret (mkDims warehouse_length warehouse_width warehouse_height).

Definition add_random_lighting (num_lights : nat) (warehouse_dims : Dims) : M unit :=
  let warehouse_length := length warehouse_dims in
  let warehouse_width := width warehouse_dims in
  let warehouse_height := height warehouse_dims in
  r <- uniform rng 0.5 1 ;;
  g <- uniform rng 0.5 1 ;;
  b <- uniform rng 0.5 1 ;;
  set_ambient [r; g; b; 1] ;;;
  for_each (range num_lights) (fun i =>
    lx <- uniform rng (- warehouse_length / 2) (warehouse_length / 2) ;;
    ly <- uniform rng (- warehouse_width / 2) (warehouse_width / 2) ;;
    lz <- uniform rng (warehouse_height * 0.8) (warehouse_height * 0.95) ;;
    cr <- uniform rng 0.5 1 ;;
    cg <- uniform rng 0.5 1 ;;
    cb <- uniform rng 0.5 1 ;;
    intensity <- uniform rng 1 10 ;;
    let light :=
      if Nat.eqb i 0
      then DirectionalLight (lx, ly, lz) (0, 0, 0) intensity (cr, cg, cb)
      else PointLight (lx, ly, lz) intensity (cr, cg, cb) in
    add light).

(** The orientation both placement functions compute. *)
Definition jiggle_rotation : M quat4 :=
  let base_rotation := Quaternion (1, 0, 0) (PI / 2) in
  ax <- uniform rng (- 0.05) 0.05 ;;
  let jiggle_x := Quaternion (1, 0, 0) ax in
  ay <- uniform rng (- 0.05) 0.05 ;;
  let jiggle_y := Quaternion (0, 1, 0) ay in
  az <- uniform rng (- 0.05) 0.05 ;;
  let jiggle_z := Quaternion (0, 0, 1) az in
  ret (quat_mul (quat_mul (quat_mul base_rotation jiggle_x) jiggle_y) jiggle_z).

Definition add_random_objects (c : category) (num_objects : nat)
           (texture_list : list texture_set) : M unit :=
  for_each (range num_objects) (fun _ =>
    asset_path <- choice rng (ASSET_CATEGORIES catalogs c) ;;
    scale <- uniform rng 0.8 1.2 ;;
    px <- uniform rng (- 10) 10 ;;
    py <- uniform rng (- 10) 10 ;;
    let position := (px, py, 0) in
    rotation <- jiggle_rotation ;;
    let obj :=
      FileBasedObject (PyStr.basename asset_path) asset_path asset_path
                      (scale, scale, scale) position rotation in
    add obj ;;;
    t <- choice rng texture_list ;;
    s <- uniform rng (fst TEXTURE_SCALE_RANGE) (snd TEXTURE_SCALE_RANGE) ;;
    apply_texture obj t s).

Definition place_pallet (dims : Dims) : M asset :=
  asset_path <- choice rng (ASSET_CATEGORIES catalogs Pallet) ;;
  scale <- uniform rng 0.9 1.1 ;;
  ux <- uniform rng (- length dims) (length dims) ;;
  uy <- uniform rng (- width dims) (width dims) ;;
  uz <- uniform rng 0 1 ;;
  let position := (ux / 2, uy / 2, uz) in
  rotation <- jiggle_rotation ;;
  let obj :=
    FileBasedObject (String.append "target_" (PyStr.basename asset_path))
                    asset_path asset_path (scale, scale, scale) position rotation in
  add obj ;;;
  t <- choice rng (tex_wood catalogs) ;;
  s <- uniform rng (fst TEXTURE_SCALE_RANGE) (snd TEXTURE_SCALE_RANGE) ;;
  apply_texture obj t s ;;;
  ret obj.

(** [math.radians]. *)
Definition radians (a : R) : R := a * (PI / 180).

Definition setup_cameras (target_position : vec3) (num_angles : nat)
           (distances : list R) : M (list asset) :=
  fold_each (range num_angles)
    (fun cameras i =>
       let angle := (360 / INR num_angles) * INR i in
       fold_each distances
         (fun cameras distance =>
            match target_position with
            | (tx, ty, tz) =>
                let x := tx + distance * cos (radians angle) in
                let y := ty + distance * sin (radians angle) in
                jitter <- uniform rng (- 0.2) 0.2 ;;
                let z := Rmax (tz + jitter) 0.1 in
                focal <- gauss rng (fst CAMERA_FOCAL_LENGTH_GAUSSIAN)
                               (snd CAMERA_FOCAL_LENGTH_GAUSSIAN) ;;
                let camera :=
                  PerspectiveCamera (x, y, z) target_position focal 0.1 100.0 in
                ret (List.app cameras [camera])
            end)
         cameras)
    [].

Definition scene_dir_of (output_dir : string) (scene_index : nat) : string :=
  PyStr.join output_dir [String.append "scene_" (PyStr.str_of_nat scene_index)].

Definition camera_dir_of (output_dir : string) (scene_index camera_index : nat)
  : string :=
  PyStr.join (scene_dir_of output_dir scene_index)
             [String.append "cam_" (PyStr.str_of_nat camera_index)].

Definition sub3 (p c : vec3) : vec3 :=
  match p, c with
  | (p0, p1, p2), (c0, c1, c2) => (p0 - c0, p1 - c1, p2 - c2)
  end.

(** [Rotation.from_quat(c.quaternion).inv() * Rotation.from_quat(p.quaternion)]. *)
Definition relative_rotation (c p : quat4) : result Rotation :=
  match from_quat c with
  | Raise e => Raise e
  | Ok rc =>
      match from_quat p with
      | Raise e => Raise e
      | Ok rp => mul (inv rc) rp
      end
  end.

Definition save_render_data (output_dir : string) (scene_index camera_index : nat)
           (camera pallet : asset) : M CameraArtifacts :=
  s <- get_scene ;;
  frame <- lift (render_still s) ;;
  let camera_dir := camera_dir_of output_dir scene_index camera_index in
  let rgba_path := PyStr.join camera_dir ["rgba.png"%string] in
  let depth_path := PyStr.join camera_dir ["depth.tiff"%string] in
  let depth_png_path := PyStr.join camera_dir ["depth_normalized.png"%string] in
  let segmentation_path := PyStr.join camera_dir ["segmentation.png"%string] in
  let relative_position := sub3 (asset_position pallet) (asset_position camera) in
  relative_orientation <-
    lift (relative_rotation (asset_quaternion camera) (asset_quaternion pallet)) ;;
  rel_rgba <- lift (PyStr.relpath getcwd rgba_path output_dir) ;;
  rel_depth <- lift (PyStr.relpath getcwd depth_path output_dir) ;;
  let camera_metadata :=
    mkCameraMetadata camera_index (asset_position camera) relative_position
      (as_euler_xyz relative_orientation true)
      (match camera with
       | PerspectiveCamera _ _ f _ _ => f
       | _ => 0
       end)
      rel_rgba rel_depth in
  ret (mkCameraArtifacts rgba_path depth_path depth_png_path segmentation_path
         (PyStr.join camera_dir ["metadata.json"%string]) camera_metadata).

(** One entry of the [objects] list of the scene metadata. *)
Definition object_record (obj : asset) : result SceneObjectRecord :=
  match from_quat (asset_quaternion obj) with
  | Raise e => Raise e
  | Ok r =>
      Ok (mkObjectRecord (asset_name obj) (asset_position obj) (asset_scale obj)
            (as_euler_xyz r false))
  end.

Definition make_scene_metadata (scene_index : nat) (dims : Dims) (s : Scene)
  : result SceneMetadata :=
  match map_result object_record (filter is_PhysicalObject (assets s)) with
  | Raise e => Raise e
  | Ok objs =>
      Ok (mkSceneMetadata scene_index dims (ambient_illumination s)
            (List.length (filter is_Light (assets s))) objs)
  end.

(** [enumerate(l)]. *)
Definition enumerate {A} (l : list A) : list (nat * A) :=
  combine (seq 0 (List.length l)) l.

(** The placement stages of [generate_scene]: layout, lighting,
    scattering and target. *)
Definition populate_scene : M (Dims * asset) :=
  dims <- setup_building ;;
  n <- randint rng 5 10 ;;
  add_random_lighting n dims ;;;
  n_rack <- randint rng (fst (RANGES Rack)) (snd (RANGES Rack)) ;;
  add_random_objects Rack n_rack (List.app (tex_metal catalogs) (tex_plastic catalogs)) ;;;
  n_forklift <- randint rng (fst (RANGES Forklift)) (snd (RANGES Forklift)) ;;
  add_random_objects Forklift n_forklift
    (List.app (tex_plastic catalogs) (tex_metal catalogs)) ;;;
  n_pallet <- randint rng (fst (RANGES Pallet)) (snd (RANGES Pallet)) ;;
  add_random_objects Pallet n_pallet (tex_wood catalogs) ;;;
  target_pallet <- place_pallet dims ;;
  ret (dims, target_pallet).

(** [generate_scene] up to the scene metadata. *)
Definition generate_scene_metadata (scene_index : nat) : M (asset * SceneMetadata) :=
  dt <- populate_scene ;;
  let dims := fst dt in
  let target_pallet := snd dt in
  s <- get_scene ;;
  scene_metadata <- lift (make_scene_metadata scene_index dims s) ;;
  ret (target_pallet, scene_metadata).

(** The body of [generate_scene] after the scene object exists. *)
Definition generate_scene_body (output_dir : string) (scene_index num_angles : nat)
           (distances : list R) : M SceneArtifacts :=
  tm <- generate_scene_metadata scene_index ;;
  let target_pallet := fst tm in
  let scene_metadata := snd tm in
  let scene_dir := scene_dir_of output_dir scene_index in
  cameras <- setup_cameras (asset_position target_pallet) num_angles distances ;;
  arts <- fold_each (enumerate cameras)
            (fun acc ic =>
               set_camera (snd ic) ;;;
               a <- save_render_data output_dir scene_index (fst ic) (snd ic)
                      target_pallet ;;
               ret (List.app acc [a]))
            [] ;;
  ret (mkSceneArtifacts (PyStr.join scene_dir ["metadata.json"%string])
         scene_metadata arts).

(** [kb.Scene(resolution=(1280, 720), frame_start=0, frame_end=1)]. *)
Definition new_scene : Scene := mkScene [] default_ambient None.

(** [generate_scene], run in a process whose generator has made
    [drawn] draws. *)
Definition generate_scene (drawn : nat) (output_dir : string)
           (scene_index num_angles : nat) (distances : list R)
  : result SceneArtifacts :=
  match generate_scene_body output_dir scene_index num_angles distances
          (mkState drawn new_scene) with
  | Ok (a, _) => Ok a
  | Raise e => Raise e
  end.

End Program.

(** ** The batch coordinator *)

(** What the coordinator has when it returns or is left: the error
    lines logged, the indices of the futures whose [result()] was
    taken, and the exception that left it, if any. *)
Record BatchRun : Type := mkBatchRun {
  logged : list string;
  collected : list nat;
  propagated : option exn
}.

(** The loop [for future in tasks] over the futures still to visit,
    [outcome i] being what the job of scene [i] ends with. *)
Fixpoint collect (outcome : nat -> result unit) (tasks : list nat)
         (log : list string) (seen : list nat) : BatchRun :=
  match tasks with
  | [] => mkBatchRun log seen None
  | future :: rest =>
      match outcome future with
      | Ok _ => collect outcome rest log (List.app seen [future])
      | Raise e =>
          if is_Exception e
          then collect outcome rest
                 (List.app log [String.append "Error generating a scene: " (exn_msg e)])
                 (List.app seen [future])
          else mkBatchRun log (List.app seen [future]) (Some e)
      end
  end.

(** [generate_warehouse_scenes]: one job per scene index, then the
    collection loop. *)
Definition generate_warehouse_scenes (outcome : nat -> result unit) (num_scenes : nat)
  : BatchRun :=
  let tasks := range num_scenes in
  collect outcome tasks [] [].

(** The outcome of the job submitted for scene [i]: [generate_scene] in
    a worker whose generator is [rng i] after [drawn i] draws. *)
Definition scene_job `{KubricLib} `{Renderer} `{EulerExtraction}
           (rng : nat -> Rng) (drawn : nat -> nat) (catalogs : Catalogs)
           (getcwd output_dir : string) (num_angles : nat) (distances : list R)
           (i : nat) : result unit :=
  match generate_scene (rng i) catalogs getcwd (drawn i) output_dir i num_angles distances with
  | Ok _ => Ok tt
  | Raise e => Raise e
  end.

End Warehouse.

(* ================================================================== *)
(** * [hdf5_convert.py]: the archive *)
(* ================================================================== *)

Module Hdf5Archive.

Import Geometry Warehouse Hdf5Convert.

Section Archive.

(** What an image file decodes to. *)
Variable image : Type.

(** The part of the file system the converter looks at: directory
    listings, [os.path.exists], and what opening and decoding a
    metadata file or an image gives. *)
Record archive_fs : Type := mkArchiveFs {
  listdir : string -> list string;
  path_exists : string -> bool;
  load_scene_metadata : string -> result SceneMetadata;
  load_camera_metadata : string -> result CameraMetadata;
  read_image : string -> result image
}.

Record ObjectGroup : Type := mkObjectGroup {
  og_key : string;
  og_transformation_matrix : matrix;
  og_name : string;
  og_position : vec3;
  og_scale : vec3;
  og_rotation : vec3
}.

Record CameraGroup : Type := mkCameraGroup {
  cg_key : string;
  cg_transformation_matrix : matrix;
  cg_position : vec3;
  cg_relative_position : vec3;
  cg_relative_orientation : vec3;
  cg_focal_length : R;
  cg_rgba_image : option image;
  cg_depth_image : option image
}.

Record SceneGroup : Type := mkSceneGroup {
  sg_scene_index : nat;
  sg_warehouse_dimensions : list R;
  sg_ambient_light : list R;
  sg_num_lights : nat;
  sg_objects : list ObjectGroup;
  sg_cameras : list CameraGroup
}.

(** [parent.create_group(key)] followed by filling the group: a name
    that is already taken raises [ValueError]. *)
Definition create_group {G : Type} (key_of : G -> string) (groups : list G) (g : G)
  : result (list G) :=
  if existsb (String.eqb (key_of g)) (map key_of groups)
  then Raise (mkExn ValueError "Unable to create group (name already exists)")
  else Ok (List.app groups [g]).

Definition object_group (obj_index : nat) (obj : SceneObjectRecord) : ObjectGroup :=
  mkObjectGroup (String.append "object_" (PyStr.str_of_nat obj_index))
    (create_transformation_matrix (rec_position obj) (rec_rotation obj))
    (rec_name obj) (rec_position obj) (rec_scale obj) (rec_rotation obj).

(** The loop over [enumerate(scene_metadata["objects"])]. *)
Fixpoint object_groups (objs : list (nat * SceneObjectRecord)) (groups : list ObjectGroup)
  : result (list ObjectGroup) :=
  match objs with
  | [] => Ok groups
  | (obj_index, obj) :: rest =>
      match create_group og_key groups (object_group obj_index obj) with
      | Raise e => Raise e
      | Ok groups' => object_groups rest groups'
      end
  end.

Variable fs : archive_fs.

(** The optional dataset of one image path. *)
Definition image_dataset (path : string) : result (option image) :=
  if path_exists fs path
  then match read_image fs path with
       | Raise e => Raise e
       | Ok img => Ok (Some img)
       end
  else Ok None.

(** What the loop body does for one camera once its group exists:
    the matrix, the attributes and the two optional image datasets. *)
Definition camera_body (scene_path cam_dir : string) (camera_metadata : CameraMetadata)
  : result CameraGroup :=
  let cam_key :=
    String.append "camera_" (PyStr.str_of_nat (camera_index camera_metadata)) in
  let transformation_matrix :=
    create_transformation_matrix (relative_position_xyz camera_metadata)
                                 (relative_orientation_xyz camera_metadata) in
  let rgba_path := image_path scene_path cam_dir (rgba_path camera_metadata) in
  let depth_path := image_path scene_path cam_dir (depth_path camera_metadata) in
  match image_dataset rgba_path with
  | Raise e => Raise e
  | Ok rgba =>
      match image_dataset depth_path with
      | Raise e => Raise e
      | Ok depth =>
          Ok (mkCameraGroup cam_key transformation_matrix
                (cam_position camera_metadata)
                (relative_position_xyz camera_metadata)
                (relative_orientation_xyz camera_metadata)
                (cam_focal_length camera_metadata) rgba depth)
      end
  end.

(** The loop over [camera_dirs]: a directory without [metadata.json]
    is skipped, and a camera key that is already taken raises when its
    group is created. *)
Fixpoint camera_groups (scene_path : string) (camera_dirs : list string)
         (groups : list CameraGroup) : result (list CameraGroup) :=
  match camera_dirs with
  | [] => Ok groups
  | cam_dir :: rest =>
      let camera_path := PyStr.join scene_path [cam_dir; "metadata.json"%string] in
      if negb (path_exists fs camera_path) then camera_groups scene_path rest groups
      else
        match load_camera_metadata fs camera_path with
        | Raise e => Raise e
        | Ok camera_metadata =>
            let cam_key :=
              String.append "camera_" (PyStr.str_of_nat (camera_index camera_metadata)) in
            if existsb (String.eqb cam_key) (map cg_key groups)
            then Raise (mkExn ValueError "Unable to create group (name already exists)")
            else
              match camera_body scene_path cam_dir camera_metadata with
              | Raise e => Raise e
              | Ok g => camera_groups scene_path rest (List.app groups [g])
              end
        end
  end.

Definition process_scene (scene_path : string) : result SceneGroup :=
  match load_scene_metadata fs (PyStr.join scene_path ["metadata.json"%string]) with
  | Raise e => Raise e
  | Ok scene_metadata =>
      match object_groups (enumerate (objects scene_metadata)) [] with
      | Raise e => Raise e
      | Ok objs =>
          let camera_dirs :=
            filter (fun d => PyStr.startswith d "cam_") (listdir fs scene_path) in
          match camera_groups scene_path camera_dirs [] with
          | Raise e => Raise e
          | Ok cams =>
              let dims := warehouse_dimensions scene_metadata in
              Ok (mkSceneGroup (scene_index scene_metadata)
                    [length dims; width dims; height dims]
                    (ambient_color scene_metadata) (num_lights scene_metadata)
                    objs cams)
          end
      end
  end.

(** The loop of [convert_to_hdf5] over the scene directories still to
    visit; [done] holds the groups of the file so far. *)
Fixpoint convert_scenes (root : string) (scene_dirs : list string)
         (done : list (string * SceneGroup)) : result (list (string * SceneGroup)) :=
  match scene_dirs with
  | [] => Ok done
  | scene_dir :: rest =>
      let scene_path := scene_path_of root scene_dir in
      if existsb (String.eqb scene_dir) (map fst done)
      then Raise (mkExn ValueError "Unable to create group (name already exists)")
      else
        match process_scene scene_path with
        | Raise e => Raise e
        | Ok g => convert_scenes root rest (List.app done [(scene_dir, g)])
        end
  end.

Definition convert_to_hdf5 (root : string) : result (list (string * SceneGroup)) :=
  let scene_dirs := filter (fun d => PyStr.startswith d "scene_") (listdir fs root) in
  convert_scenes root scene_dirs [].

End Archive.

End Hdf5Archive.

Unset Implicit Arguments.

(* ================================================================== *)
(** * Properties of the batch coordinator *)
(* ================================================================== *)

Section Batch.

Import Warehouse.

Variable outcome : nat -> result unit.

(** The error lines the failed jobs among [tasks] give rise to, in
    submission order. *)
Definition failure_lines (tasks : list nat) : list string :=
  flat_map (fun i => match outcome i with
                     | Ok _ => []
                     | Raise e => [String.append "Error generating a scene: " (exn_msg e)]
                     end) tasks.

Definition raises_only_Exception (i : nat) : Prop :=
  forall e, outcome i = Raise e -> is_Exception e = true.

Lemma collect_all tasks :
  forall log seen,
    Forall raises_only_Exception tasks ->
    collect outcome tasks log seen
    = mkBatchRun (log ++ failure_lines tasks) (seen ++ tasks) None.
Proof.
  induction tasks as [|i rest IH]; intros log seen Hall; simpl.
  - now rewrite !app_nil_r.
  - inversion Hall as [|? ? Hi Hrest]; subst.
    destruct (outcome i) as [u|e] eqn:Ho.
    + rewrite IH by assumption. simpl. now rewrite <- app_assoc.
    + rewrite (Hi e Ho). rewrite IH by assumption.
      now rewrite <- !app_assoc.
Qed.

(** A job that ends with an exception outside [Exception] leaves the
    loop at once: the later futures are not visited. *)
Lemma collect_base_exception i e rest log seen :
  outcome i = Raise e -> is_Exception e = false ->
  collect outcome (i :: rest) log seen = mkBatchRun log (seen ++ [i]) (Some e).
Proof. intros Ho He. simpl. now rewrite Ho, He. Qed.

End Batch.

(** C3, amended. Whatever the jobs of a batch of [num_scenes] scenes
    end with, as long as what they raise is an instance of
    [Exception], the coordinator returns normally, has taken the
    result of every job in submission order, and has logged one error
    line per failed job and nothing else. *)
Theorem C3_batch_survives_scene_failures :
  forall (outcome : nat -> result unit) (num_scenes : nat),
    (forall i, (i < num_scenes)%nat -> raises_only_Exception outcome i) ->
    let run := Warehouse.generate_warehouse_scenes outcome num_scenes in
    Warehouse.propagated run = None
    /\ Warehouse.collected run = Warehouse.range num_scenes
    /\ Warehouse.logged run = failure_lines outcome (Warehouse.range num_scenes).
Proof.
  intros outcome n H. unfold Warehouse.generate_warehouse_scenes.
  rewrite collect_all.
  - simpl. auto.
  - apply Forall_forall. intros i Hi. apply H.
    unfold Warehouse.range in Hi. apply in_seq in Hi. lia.
Qed.

(** A batch of three scenes whose middle job raises. *)
Definition middle_job_fails (i : nat) : result unit :=
  if Nat.eqb i 1 then Raise (mkExn RuntimeError "renderer failed") else Ok tt.

Lemma C3_batch_survives_scene_failures_witness :
  let run := Warehouse.generate_warehouse_scenes middle_job_fails 3 in
  Warehouse.propagated run = None
  /\ Warehouse.collected run = [0; 1; 2]%nat
  /\ Warehouse.logged run = ["Error generating a scene: renderer failed"%string].
Proof.
  apply (C3_batch_survives_scene_failures middle_job_fails 3).
  intros i Hi e He. unfold middle_job_fails in He.
  destruct (Nat.eqb i 1); [injection He as <-; reflexivity | discriminate].
Defined.

(** A batch of three scenes whose middle job ends the interpreter:
    [sys.exit(1)] in the worker raises [SystemExit], which the pool
    hands back through [future.result()]. *)
Definition middle_job_exits (i : nat) : result unit :=
  if Nat.eqb i 1 then Raise (mkExn SystemExit "1") else Ok tt.

(** C3, as stated, fails for an exception that is not an [Exception]:
    the clause [except Exception] lets [SystemExit] through, so the
    exception of the middle job propagates out of the coordinator,
    nothing is logged for it, and the result of the last job is never
    taken. *)
Lemma C3_exit_in_a_job_aborts_the_batch :
  let run := Warehouse.generate_warehouse_scenes middle_job_exits 3 in
  Warehouse.propagated run = Some (mkExn SystemExit "1")
  /\ Warehouse.logged run = []
  /\ Warehouse.collected run = [0; 1]%nat
  /\ ~ In 2%nat (Warehouse.collected run).
Proof.
  cbv zeta. unfold Warehouse.generate_warehouse_scenes, Warehouse.range.
  cbn [seq Warehouse.collect middle_job_exits Nat.eqb is_Exception exn_cls List.app
       Warehouse.propagated Warehouse.logged Warehouse.collected].
  repeat split. intros [H|[H|[]]]; discriminate.
Qed.

(* ================================================================== *)
(** * Properties of the camera rig sampler *)
(* ================================================================== *)

Section CameraRig.

Import Geometry Warehouse.
Local Open Scope R_scope.

Variable rng : Rng.
Variable target_position : vec3.
Variable num_angles : nat.

(** The camera the loop body builds for angle index [i] and distance
    [distance] when [k] draws have been made before it. *)
Definition camera_at (i : nat) (distance : R) (k : nat) : asset :=
  match target_position with
  | (tx, ty, tz) =>
      let angle := (360 / INR num_angles) * INR i in
      PerspectiveCamera
        (tx + distance * cos (radians angle),
         ty + distance * sin (radians angle),
         Rmax (tz + (- 0.2 + (0.2 - - 0.2) * next_float rng k)) 0.1)
        target_position
        (5 + next_normal rng (S k) * 2) 0.1 100.0
  end.

Fixpoint ring_at (i : nat) (distances : list R) (k : nat) : list asset :=
  match distances with
  | [] => []
  | d :: ds => camera_at i d k :: ring_at i ds (S (S k))
  end.

Fixpoint rig_at (angles : list nat) (distances : list R) (k : nat) : list asset :=
  match angles with
  | [] => []
  | i :: rest =>
      ring_at i distances k
      ++ rig_at rest distances (k + 2 * List.length distances)
  end.

Lemma ring_at_length i ds : forall k, List.length (ring_at i ds k) = List.length ds.
Proof. induction ds; intro k; simpl; auto. Qed.

Lemma rig_at_length ds : forall idxs k,
    List.length (rig_at idxs ds k) = (List.length idxs * List.length ds)%nat.
Proof.
  induction idxs as [|i idxs IH]; intro k; simpl; auto.
  rewrite length_app, ring_at_length, IH. reflexivity.
Qed.

Lemma ring_at_nth i ds : forall j k,
    (j < List.length ds)%nat ->
    nth_error (ring_at i ds k) j = Some (camera_at i (nth j ds 0) (k + 2 * j)).
Proof.
  induction ds as [|d ds IH]; intros j k Hj; simpl in Hj; [lia|].
  destruct j as [|j]; simpl.
  - now rewrite Nat.add_0_r.
  - rewrite IH by lia. do 2 f_equal. lia.
Qed.

Lemma rig_at_nth ds : forall n a m j k,
    (m < n)%nat -> (j < List.length ds)%nat ->
    nth_error (rig_at (seq a n) ds k) (m * List.length ds + j)
    = Some (camera_at (a + m) (nth j ds 0) (k + 2 * (m * List.length ds + j))).
Proof.
  induction n as [|n IH]; intros a m j k Hm Hj; [lia|].
  simpl. destruct m as [|m].
  - simpl. rewrite nth_error_app1 by (rewrite ring_at_length; lia).
    rewrite ring_at_nth by assumption. now rewrite Nat.add_0_r.
  - rewrite nth_error_app2 by (rewrite ring_at_length; simpl; lia).
    rewrite ring_at_length.
    replace (S m * List.length ds + j - List.length ds)%nat
      with (m * List.length ds + j)%nat by (simpl; lia).
    rewrite IH by lia. do 2 f_equal; simpl; lia.
Qed.

(** The inner loop, from any accumulator and any state. *)
Lemma inner_loop_runs i ds : forall cameras st,
    fold_each ds
      (fun cameras distance =>
         match target_position with
         | (tx, ty, tz) =>
             let x := tx + distance * cos (radians ((360 / INR num_angles) * INR i)) in
             let y := ty + distance * sin (radians ((360 / INR num_angles) * INR i)) in
             jitter <- uniform rng (- 0.2) 0.2 ;;
             let z := Rmax (tz + jitter) 0.1 in
             focal <- gauss rng (fst CAMERA_FOCAL_LENGTH_GAUSSIAN)
                            (snd CAMERA_FOCAL_LENGTH_GAUSSIAN) ;;
             let camera :=
               PerspectiveCamera (x, y, z) target_position focal 0.1 100.0 in
             ret (List.app cameras [camera])
         end)
      cameras st
    = Ok (cameras ++ ring_at i ds (draws st),
          mkState (draws st + 2 * List.length ds) (scene st)).
Proof.
  induction ds as [|d ds IH]; intros cameras st.
  - simpl. unfold ret. rewrite app_nil_r, Nat.add_0_r. now destruct st.
  - cbn [fold_each]. unfold bind at 1.
    destruct target_position as [[tx ty] tz] eqn:Ht.
    unfold bind at 1, uniform at 1, tick at 1. cbn [draws scene].
    unfold bind at 1, gauss at 1, tick at 1. cbn [draws scene].
    unfold ret at 1.
    rewrite IH. cbn [draws scene fst snd CAMERA_FOCAL_LENGTH_GAUSSIAN ring_at].
    rewrite <- app_assoc. unfold camera_at. rewrite Ht. simpl List.length.
    replace (draws st + 2 * S (List.length ds))%nat
      with (S (S (draws st)) + 2 * List.length ds)%nat by lia.
    reflexivity.
Qed.

Lemma outer_loop_runs ds : forall idxs cameras st,
    fold_each idxs
      (fun cameras i =>
         let angle := (360 / INR num_angles) * INR i in
         fold_each ds
           (fun cameras distance =>
              match target_position with
              | (tx, ty, tz) =>
                  let x := tx + distance * cos (radians angle) in
                  let y := ty + distance * sin (radians angle) in
                  jitter <- uniform rng (- 0.2) 0.2 ;;
                  let z := Rmax (tz + jitter) 0.1 in
                  focal <- gauss rng (fst CAMERA_FOCAL_LENGTH_GAUSSIAN)
                                 (snd CAMERA_FOCAL_LENGTH_GAUSSIAN) ;;
                  let camera :=
                    PerspectiveCamera (x, y, z) target_position focal 0.1 100.0 in
                  ret (List.app cameras [camera])
              end)
           cameras)
      cameras st
    = Ok (cameras ++ rig_at idxs ds (draws st),
          mkState (draws st + 2 * (List.length idxs * List.length ds)) (scene st)).
Proof.
  induction idxs as [|i idxs IH]; intros cameras st.
  - simpl. unfold ret. rewrite app_nil_r, Nat.add_0_r. now destruct st.
  - cbn [fold_each]. unfold bind at 1. cbv zeta.
    pose proof (inner_loop_runs i ds cameras st) as Hinner.
    cbv zeta in Hinner. rewrite Hinner. clear Hinner.
    cbv zeta in IH. rewrite IH. cbn [draws scene rig_at]. rewrite <- app_assoc.
    simpl List.length.
    replace (draws st + 2 * List.length ds + 2 * (List.length idxs * List.length ds))%nat
      with (draws st + 2 * (S (List.length idxs) * List.length ds))%nat by lia.
    reflexivity.
Qed.

(** [setup_cameras] never raises, and what it returns is the rig
    laid out ring by ring. *)
Lemma setup_cameras_runs ds st :
  setup_cameras rng target_position num_angles ds st
  = Ok (rig_at (range num_angles) ds (draws st),
        mkState (draws st + 2 * (num_angles * List.length ds)) (scene st)).
Proof.
  unfold setup_cameras. rewrite outer_loop_runs. unfold range.
  now rewrite length_seq.
Qed.

End CameraRig.

Section CameraRigClaims.

Import Geometry Warehouse.
Local Open Scope R_scope.

Definition pos_x (o : asset) : R := fst (fst (asset_position o)).
Definition pos_y (o : asset) : R := snd (fst (asset_position o)).
Definition pos_z (o : asset) : R := snd (asset_position o).

Lemma camera_at_x rng tp n i d k :
  pos_x (camera_at rng tp n i d k)
  = fst (fst tp) + d * cos (deg2rad (INR i * 360 / INR n)).
Proof.
  unfold camera_at, pos_x. destruct tp as [[tx ty] tz]. simpl.
  unfold radians, deg2rad. do 3 f_equal. unfold Rdiv. ring.
Qed.

Lemma camera_at_y rng tp n i d k :
  pos_y (camera_at rng tp n i d k)
  = snd (fst tp) + d * sin (deg2rad (INR i * 360 / INR n)).
Proof.
  unfold camera_at, pos_y. destruct tp as [[tx ty] tz]. simpl.
  unfold radians, deg2rad. do 3 f_equal. unfold Rdiv. ring.
Qed.

Lemma camera_at_z rng tp n i d k : 0.1 <= pos_z (camera_at rng tp n i d k).
Proof.
  unfold camera_at, pos_z. destruct tp as [[tx ty] tz]. simpl. apply Rmax_r.
Qed.

Lemma ring_at_z rng tp n i ds : forall k,
    Forall (fun cam => 0.1 <= pos_z cam) (ring_at rng tp n i ds k).
Proof.
  induction ds as [|d ds IH]; intro k; simpl; constructor; auto.
  apply camera_at_z.
Qed.

Lemma rig_at_z rng tp n ds : forall idxs k,
    Forall (fun cam => 0.1 <= pos_z cam) (rig_at rng tp n idxs ds k).
Proof.
  induction idxs as [|i idxs IH]; intro k; simpl; [constructor|].
  apply Forall_app. split; [apply ring_at_z | apply IH].
Qed.

End CameraRigClaims.

(** C4. Whatever the state of the generator, [setup_cameras] returns
    normally a list of exactly [num_angles * len(distances)] cameras,
    and the camera at list index [i * len(distances) + j] (angle index
    [i] outermost, distance index [j] innermost) stands at
    x = target.x + d * cos(i * 360 / num_angles degrees),
    y = target.y + d * sin(i * 360 / num_angles degrees)
    for [d = distances[j]]. *)
Theorem C4_camera_rig_order_and_positions :
  forall (rng : Warehouse.Rng) (target_position : Geometry.vec3)
         (num_angles : nat) (distances : list R) (st : Warehouse.state),
  exists cameras st',
    Warehouse.setup_cameras rng target_position num_angles distances st
    = Ok (cameras, st')
    /\ List.length cameras = (num_angles * List.length distances)%nat
    /\ forall i j, (i < num_angles)%nat -> (j < List.length distances)%nat ->
       exists cam,
         nth_error cameras (i * List.length distances + j) = Some cam
         /\ pos_x cam
            = (fst (fst target_position)
               + nth j distances 0
                 * cos (Geometry.deg2rad (INR i * 360 / INR num_angles)))%R
         /\ pos_y cam
            = (snd (fst target_position)
               + nth j distances 0
                 * sin (Geometry.deg2rad (INR i * 360 / INR num_angles)))%R.
Proof.
  intros rng tp n ds st. eexists. eexists.
  split; [apply setup_cameras_runs|].
  split.
  - rewrite rig_at_length. unfold Warehouse.range. now rewrite length_seq.
  - intros i j Hi Hj. eexists. split.
    + unfold Warehouse.range. apply rig_at_nth; assumption.
    + simpl. split; [apply camera_at_x | apply camera_at_y].
Qed.

(** C9. Every camera [setup_cameras] returns has z at least 0.1,
    whatever the target position and whatever the generator draws. *)
Theorem C9_camera_height_floor :
  forall (rng : Warehouse.Rng) (target_position : Geometry.vec3)
         (num_angles : nat) (distances : list R) (st : Warehouse.state),
  exists cameras st',
    Warehouse.setup_cameras rng target_position num_angles distances st
    = Ok (cameras, st')
    /\ Forall (fun cam => (0.1 <= pos_z cam)%R) cameras.
Proof.
  intros rng tp n ds st. eexists. eexists.
  split; [apply setup_cameras_runs | apply rig_at_z].
Qed.

(* ================================================================== *)
(** * Properties of rotations and of the transformation matrix *)
(* ================================================================== *)

Section RotationAlgebra.

Import Geometry.
Local Open Scope R_scope.

Lemma norm2_compose_quat p q :
  norm2 (compose_quat p q) = norm2 p * norm2 q.
Proof. unfold norm2, compose_quat. simpl. ring. Qed.

Lemma norm2_make_elementary_quat a angle :
  norm2 (make_elementary_quat a angle) = 1.
Proof.
  pose proof (sin2_cos2 (angle / 2)) as H. unfold Rsqr in H.
  unfold norm2, make_elementary_quat. destruct a; simpl; lra.
Qed.

Lemma norm2_from_euler_xyz angles degrees :
  norm2 (from_euler_xyz angles degrees) = 1.
Proof.
  unfold from_euler_xyz.
  destruct (if degrees then map3 deg2rad angles else angles) as [[a b] c].
  rewrite !norm2_compose_quat, !norm2_make_elementary_quat. ring.
Qed.

Ltac matrix_entries :=
  cbv [matmul3 transpose3 as_matrix entry nth map seq eye Nat.eqb det3].

(** The matrix of a unit quaternion has orthonormal columns. *)
Lemma as_matrix_columns_orthonormal r :
  norm2 r = 1 ->
  matmul3 (transpose3 (as_matrix r)) (as_matrix r) = eye 3.
Proof.
  intro Hn. assert (Hsq : norm2 r * norm2 r = 1) by (rewrite Hn; ring).
  unfold norm2 in Hsq. destruct r as [x y z w]. simpl in Hsq.
  matrix_entries. cbv [qx qy qz qw].
  repeat (f_equal; try (rewrite <- Hsq; ring); try ring).
Qed.

(** ... and orthonormal rows. *)
Lemma as_matrix_rows_orthonormal r :
  norm2 r = 1 ->
  matmul3 (as_matrix r) (transpose3 (as_matrix r)) = eye 3.
Proof.
  intro Hn. assert (Hsq : norm2 r * norm2 r = 1) by (rewrite Hn; ring).
  unfold norm2 in Hsq. destruct r as [x y z w]. simpl in Hsq.
  matrix_entries. cbv [qx qy qz qw].
  repeat (f_equal; try (rewrite <- Hsq; ring); try ring).
Qed.

Lemma as_matrix_det r :
  norm2 r = 1 -> det3 (as_matrix r) = 1.
Proof.
  intro Hn.
  assert (Hcube : norm2 r * norm2 r * norm2 r = 1) by (rewrite Hn; ring).
  unfold norm2 in Hcube. destruct r as [x y z w]. simpl in Hcube.
  matrix_entries. cbv [qx qy qz qw]. rewrite <- Hcube. ring.
Qed.

End RotationAlgebra.

Section TransformationMatrix.

Import Geometry Hdf5Convert.
Local Open Scope R_scope.

(** The rotation block of the matrix is the rotation's matrix. *)
Lemma transformation_block position euler_angles :
  block3 (create_transformation_matrix position euler_angles)
  = as_matrix (from_euler_xyz euler_angles true).
Proof.
  unfold create_transformation_matrix. destruct position as [[px py] pz].
  reflexivity.
Qed.

Lemma transformation_column position euler_angles :
  col3 (create_transformation_matrix position euler_angles)
  = [fst (fst position); snd (fst position); snd position].
Proof.
  unfold create_transformation_matrix. destruct position as [[px py] pz].
  reflexivity.
Qed.

Lemma transformation_last_row position euler_angles :
  nth 3 (create_transformation_matrix position euler_angles) [] = [0; 0; 0; 1].
Proof.
  unfold create_transformation_matrix. destruct position as [[px py] pz].
  reflexivity.
Qed.

Lemma transformation_shape position euler_angles :
  List.length (create_transformation_matrix position euler_angles) = 4%nat
  /\ Forall (fun row => List.length row = 4%nat)
            (create_transformation_matrix position euler_angles).
Proof.
  unfold create_transformation_matrix. destruct position as [[px py] pz].
  split; [reflexivity | repeat constructor].
Qed.

End TransformationMatrix.

(** C10. For every position and every triple of Euler xyz angles in
    degrees, the matrix [create_transformation_matrix] builds is 4x4,
    its top-left 3x3 block is orthonormal (columns and rows) with
    determinant 1, its top-right 3x1 block is the position, and its
    last row is [0, 0, 0, 1].  Floats are read as real numbers. *)
Theorem C10_transformation_matrix_is_rigid :
  forall (position euler_angles : Geometry.vec3),
    let t := Hdf5Convert.create_transformation_matrix position euler_angles in
    let r := Geometry.block3 t in
    List.length t = 4%nat
    /\ Forall (fun row => List.length row = 4%nat) t
    /\ Geometry.matmul3 (Geometry.transpose3 r) r = Geometry.eye 3
    /\ Geometry.matmul3 r (Geometry.transpose3 r) = Geometry.eye 3
    /\ Geometry.det3 r = 1%R
    /\ Geometry.col3 t = [fst (fst position); snd (fst position); snd position]
    /\ nth 3 t [] = [0; 0; 0; 1]%R.
Proof.
  intros position euler_angles t r. subst r t.
  rewrite transformation_block.
  pose proof (norm2_from_euler_xyz euler_angles true) as Hn.
  destruct (transformation_shape position euler_angles) as [Hl Hr].
  repeat split.
  - exact Hl.
  - exact Hr.
  - now apply as_matrix_columns_orthonormal.
  - now apply as_matrix_rows_orthonormal.
  - now apply as_matrix_det.
  - apply transformation_column.
  - apply transformation_last_row.
Qed.

Section UnitQuaternions.

Import Geometry.
Local Open Scope R_scope.

Lemma norm2_nonneg q : 0 <= norm2 q.
Proof.
  unfold norm2.
  pose proof (Rle_0_sqr (qx q)) as Hx. pose proof (Rle_0_sqr (qy q)) as Hy.
  pose proof (Rle_0_sqr (qz q)) as Hz. pose proof (Rle_0_sqr (qw q)) as Hw.
  unfold Rsqr in *. lra.
Qed.

Lemma norm2_inv r : norm2 (inv r) = norm2 r.
Proof. unfold norm2, inv. simpl. ring. Qed.

(** What [normalize] returns is a unit quaternion. *)
Lemma normalize_unit q r : normalize q = Ok r -> norm2 r = 1.
Proof.
  unfold normalize. destruct (Req_dec_T (sqrt (norm2 q)) 0) as [Hz|Hnz]; [discriminate|].
  intro H. injection H as <-.
  pose proof (sqrt_sqrt (norm2 q) (norm2_nonneg q)) as Hs.
  unfold norm2 in *. simpl.
  set (n := sqrt (qx q * qx q + qy q * qy q + qz q * qz q + qw q * qw q)) in *.
  transitivity ((n * n) / (n * n)).
  - rewrite Hs at 1. field. exact Hnz.
  - field. exact Hnz.
Qed.

(** A unit quaternion is left as it is. *)
Lemma normalize_of_unit q : norm2 q = 1 -> normalize q = Ok q.
Proof.
  intro Hn. unfold normalize. rewrite Hn, sqrt_1.
  destruct (Req_dec_T 1 0) as [H|_]; [lra|].
  destruct q as [x y z w]. simpl. f_equal. f_equal; field.
Qed.

Lemma from_quat_unit q r : from_quat q = Ok r -> norm2 r = 1.
Proof. destruct q as [[[x y] z] w]. apply normalize_unit. Qed.

Lemma compose_quat_inv_l r p :
  norm2 r = 1 -> compose_quat r (compose_quat (inv r) p) = p.
Proof.
  intro Hn. unfold norm2 in Hn.
  destruct r as [x y z w], p as [a b c d]. simpl in Hn.
  unfold compose_quat, inv. simpl. f_equal.
  - transitivity ((x * x + y * y + z * z + w * w) * a); [ring | rewrite Hn; ring].
  - transitivity ((x * x + y * y + z * z + w * w) * b); [ring | rewrite Hn; ring].
  - transitivity ((x * x + y * y + z * z + w * w) * c); [ring | rewrite Hn; ring].
  - transitivity ((x * x + y * y + z * z + w * w) * d); [ring | rewrite Hn; ring].
Qed.

(** The product of two rotations is their quaternion product. *)
Lemma mul_of_units p q :
  norm2 p = 1 -> norm2 q = 1 -> mul p q = Ok (compose_quat p q).
Proof.
  intros Hp Hq. unfold mul. apply normalize_of_unit.
  rewrite norm2_compose_quat, Hp, Hq. ring.
Qed.

Lemma as_euler_degrees `{EulerExtraction} r :
  as_euler_xyz r true = map3 rad2deg (as_euler_xyz r false).
Proof. reflexivity. Qed.

Lemma rad2deg_deg2rad a : rad2deg (deg2rad a) = a.
Proof. unfold rad2deg, deg2rad. field. apply PI_neq0. Qed.

End UnitQuaternions.

Section RelativePose.

Import Geometry Warehouse.
Local Open Scope R_scope.

Lemma relative_rotation_spec c p rel :
  relative_rotation c p = Ok rel ->
  exists rc rp,
    from_quat c = Ok rc /\ from_quat p = Ok rp
    /\ rel = compose_quat (inv rc) rp
    /\ compose_quat rc rel = rp.
Proof.
  unfold relative_rotation.
  destruct (from_quat c) as [rc|e] eqn:Hc; [|discriminate].
  destruct (from_quat p) as [rp|e] eqn:Hp; [|discriminate].
  pose proof (from_quat_unit _ _ Hc) as Hnc.
  pose proof (from_quat_unit _ _ Hp) as Hnp.
  rewrite mul_of_units by (rewrite ?norm2_inv; assumption).
  intro H. injection H as <-.
  exists rc, rp. repeat split. now apply compose_quat_inv_l.
Qed.

End RelativePose.

(* ================================================================== *)
(** * Reasoning about runs of the scene job *)
(* ================================================================== *)

Section Runs.

Import Warehouse.

Lemma bind_Ok {A B} (m : M A) (k : A -> M B) st b st2 :
  bind m k st = Ok (b, st2) ->
  exists a st1, m st = Ok (a, st1) /\ k a st1 = Ok (b, st2).
Proof.
  unfold bind. destruct (m st) as [[a st1]|e]; [|discriminate].
  intro H. now exists a, st1.
Qed.

Lemma lift_Ok {A} (r : result A) st a st1 :
  lift r st = Ok (a, st1) -> r = Ok a /\ st1 = st.
Proof.
  unfold lift. destruct r; [|discriminate].
  intro H. injection H as -> ->. auto.
Qed.

Lemma ret_Ok {A} (x : A) st a st1 :
  ret x st = Ok (a, st1) -> a = x /\ st1 = st.
Proof. unfold ret. intro H. injection H as -> ->. auto. Qed.

Lemma get_scene_Ok st s st1 :
  get_scene st = Ok (s, st1) -> s = scene st /\ st1 = st.
Proof. unfold get_scene. intro H. injection H as -> ->. auto. Qed.

End Runs.

Tactic Notation "run_step" hyp(H) "as" ident(a) ident(Ha) :=
  let st := fresh "st" in
  apply bind_Ok in H; destruct H as (a & st & Ha & H).

Section CameraDocument.

Import Geometry Warehouse.
Context {kubric : KubricLib} {renderer : Renderer} {euler : EulerExtraction}.
Variable getcwd : string.

(** What a successful [save_render_data] has computed. *)
Lemma save_render_data_Ok output_dir scene_index cam_index camera pallet st art st1 :
  save_render_data getcwd output_dir scene_index cam_index camera pallet st
  = Ok (art, st1) ->
  exists rel rel_rgba rel_depth,
    relative_rotation (asset_quaternion camera) (asset_quaternion pallet) = Ok rel
    /\ PyStr.relpath getcwd
         (PyStr.join (camera_dir_of output_dir scene_index cam_index) ["rgba.png"%string])
         output_dir = Ok rel_rgba
    /\ PyStr.relpath getcwd
         (PyStr.join (camera_dir_of output_dir scene_index cam_index) ["depth.tiff"%string])
         output_dir = Ok rel_depth
    /\ rgba_file art
       = PyStr.join (camera_dir_of output_dir scene_index cam_index) ["rgba.png"%string]
    /\ depth_file art
       = PyStr.join (camera_dir_of output_dir scene_index cam_index) ["depth.tiff"%string]
    /\ camera_index (camera_metadata art) = cam_index
    /\ relative_position_xyz (camera_metadata art)
       = sub3 (asset_position pallet) (asset_position camera)
    /\ relative_orientation_xyz (camera_metadata art) = as_euler_xyz rel true
    /\ rgba_path (camera_metadata art) = rel_rgba
    /\ depth_path (camera_metadata art) = rel_depth.
Proof.
  unfold save_render_data. intro H.
  run_step H as s Hs. apply get_scene_Ok in Hs as [-> ->].
  run_step H as frame Hframe. apply lift_Ok in Hframe as [_ ->].
  run_step H as rel Hrel. apply lift_Ok in Hrel as [Hrel ->].
  run_step H as rel_rgba Hrgba. apply lift_Ok in Hrgba as [Hrgba ->].
  run_step H as rel_depth Hdepth. apply lift_Ok in Hdepth as [Hdepth ->].
  apply ret_Ok in H as [-> _].
  exists rel, rel_rgba, rel_depth. simpl. repeat split; assumption.
Qed.

End CameraDocument.

(** What [save_render_data] computes for the pose fields:
    [relative_position_xyz] is the target's position minus the
    camera's, component by component, and [relative_orientation_xyz]
    holds the Euler xyz angles in degrees of the rotation [rel] with
    [rc * rel = rp], where [rc] and [rp] are what [Rotation.from_quat]
    makes of the two quaternion attributes as they are stored. *)
Lemma relative_pose_as_computed :
  forall (kubric : Warehouse.KubricLib) (renderer : Warehouse.Renderer)
         (euler : Geometry.EulerExtraction) (getcwd output_dir : string)
         (scene_index camera_index : nat) (camera pallet : Warehouse.asset)
         (st st1 : Warehouse.state) (art : Warehouse.CameraArtifacts),
    Warehouse.save_render_data getcwd output_dir scene_index camera_index
      camera pallet st = Ok (art, st1) ->
    let doc := Warehouse.camera_metadata art in
    Warehouse.relative_position_xyz doc
    = (fst (fst (Warehouse.asset_position pallet)) - fst (fst (Warehouse.asset_position camera)),
       snd (fst (Warehouse.asset_position pallet)) - snd (fst (Warehouse.asset_position camera)),
       snd (Warehouse.asset_position pallet) - snd (Warehouse.asset_position camera))%R
    /\ exists camera_orientation target_orientation rel,
        Geometry.from_quat (Warehouse.asset_quaternion camera) = Ok camera_orientation
        /\ Geometry.from_quat (Warehouse.asset_quaternion pallet) = Ok target_orientation
        /\ Geometry.compose_quat camera_orientation rel = target_orientation
        /\ Warehouse.relative_orientation_xyz doc
           = Geometry.map3 Geometry.rad2deg (Geometry.euler_rad rel).
Proof.
  intros kubric renderer euler getcwd output_dir i j camera pallet st st1 art H doc.
  apply save_render_data_Ok in H
    as (rel & rr & rd & Hrel & _ & _ & _ & _ & _ & Hpos & Hor & _ & _).
  subst doc. split.
  - rewrite Hpos. unfold Warehouse.sub3.
    destruct (Warehouse.asset_position pallet) as [[p0 p1] p2].
    destruct (Warehouse.asset_position camera) as [[c0 c1] c2]. reflexivity.
  - apply relative_rotation_spec in Hrel as (rc & rp & Hc & Hp & _ & Hcomp).
    exists rc, rp, rel. repeat split; try assumption.
Qed.

Section Primitives.

Import Warehouse.
Variable rng : Rng.

Definition assets_of (st : state) : list asset := assets (scene st).

Lemma uniform_Ok a b st x st1 :
  uniform rng a b st = Ok (x, st1) -> scene st1 = scene st.
Proof. unfold uniform, tick. intro H. now injection H as _ <-. Qed.

Lemma gauss_Ok a b st x st1 :
  gauss rng a b st = Ok (x, st1) -> scene st1 = scene st.
Proof. unfold gauss, tick. intro H. now injection H as _ <-. Qed.

Lemma randint_Ok a b st x st1 :
  randint rng a b st = Ok (x, st1) ->
  scene st1 = scene st /\ (a <= x <= b)%nat.
Proof.
  unfold randint. destruct (Nat.ltb b a) eqn:Hab; [discriminate|].
  apply Nat.ltb_ge in Hab. unfold tick. intro H. injection H as <- <-.
  split; [reflexivity|].
  pose proof (Nat.mod_upper_bound (next_nat rng (draws st)) (b - a + 1)). lia.
Qed.

Lemma choice_Ok {A} (l : list A) st x st1 :
  choice rng l st = Ok (x, st1) -> scene st1 = scene st /\ In x l.
Proof.
  unfold choice. destruct l as [|d l]; [discriminate|].
  remember (d :: l) as l0 eqn:Hl0.
  assert (Hne : List.length l0 <> 0%nat) by (subst l0; discriminate).
  unfold tick. intro H. injection H as <- <-. split; [reflexivity|].
  apply nth_In. apply Nat.mod_upper_bound. exact Hne.
Qed.

Lemma add_Ok o st u st1 :
  add o st = Ok (u, st1) -> assets_of st1 = assets_of st ++ [o].
Proof. unfold add. intro H. now injection H as _ <-. Qed.

Lemma set_ambient_Ok c st u st1 :
  set_ambient c st = Ok (u, st1) -> assets_of st1 = assets_of st.
Proof. unfold set_ambient. intro H. now injection H as _ <-. Qed.

Lemma scene_assets st st1 : scene st1 = scene st -> assets_of st1 = assets_of st.
Proof. unfold assets_of. now intros ->. Qed.

(** A loop whose body adds one asset per round adds one asset per
    element, in order. *)
Lemma for_each_grows {A} (P : A -> asset -> Prop) (body : A -> M unit) :
  (forall x st u st1, body x st = Ok (u, st1) ->
     exists o, assets_of st1 = assets_of st ++ [o] /\ P x o) ->
  forall xs st u st1,
    for_each xs body st = Ok (u, st1) ->
    exists new, assets_of st1 = assets_of st ++ new /\ Forall2 P xs new.
Proof.
  intros Hbody. induction xs as [|x xs IH]; intros st u st1 H.
  - apply ret_Ok in H as [_ ->]. exists []. rewrite app_nil_r. auto.
  - cbn [for_each] in H. run_step H as v Hv.
    apply Hbody in Hv as (o & Ho & HP).
    apply IH in H as (new & Hnew & Hall).
    exists (o :: new). split; [|constructor; assumption].
    rewrite Hnew, Ho, <- app_assoc. reflexivity.
Qed.

End Primitives.

Ltac same_scene H :=
  first [ apply uniform_Ok in H | apply gauss_Ok in H ];
  apply scene_assets in H.

Ltac absorb Hx :=
  first
    [ apply uniform_Ok in Hx; apply scene_assets in Hx
    | apply gauss_Ok in Hx; apply scene_assets in Hx
    | apply choice_Ok in Hx;
      let Hin := fresh "Hin" in destruct Hx as [Hx Hin]; apply scene_assets in Hx
    | apply randint_Ok in Hx;
      let Hrange := fresh "Hrange" in
      destruct Hx as [Hx Hrange]; apply scene_assets in Hx
    | apply add_Ok in Hx
    | apply set_ambient_Ok in Hx
    | apply ret_Ok in Hx;
      let Heq := fresh "Heq" in destruct Hx as [Heq Hx]; subst ].

Ltac run_all H :=
  lazymatch type of H with
  | Warehouse.bind _ _ _ = Ok _ =>
      let a := fresh "v" in
      let st := fresh "st" in
      let Ha := fresh "Hv" in
      apply bind_Ok in H; destruct H as (a & st & Ha & H);
      run_all Ha; run_all H
  | _ => try absorb H
  end.

Ltac chain_assets :=
  repeat match goal with
         | Hx : assets_of ?s = _ |- _ => rewrite Hx; clear Hx
         end;
  rewrite <- ?app_assoc; try reflexivity.

Section Placement.

Import Geometry WarehouseUtils Warehouse.
Local Open Scope R_scope.
Context {kubric : KubricLib}.
Variable rng : Rng.
Variable catalogs : Catalogs.

(** The orientation [jiggle_rotation] returns for three drawn angles. *)
Definition jiggle_quat (ax ay az : R) : quat4 :=
  quat_mul
    (quat_mul (quat_mul (Quaternion (1, 0, 0) (PI / 2)) (Quaternion (1, 0, 0) ax))
              (Quaternion (0, 1, 0) ay))
    (Quaternion (0, 0, 1) az).

(** The five slabs [setup_building] adds for given dimensions. *)
Definition building_slabs (d : Dims) : list asset :=
  [ Cube "floor" (length d, width d, 0.1) (0, 0, - 0.1);
    Cube "front_wall" (length d, 0.2, height d) (0, - width d / 2, height d / 2);
    Cube "back_wall" (length d, 0.2, height d) (0, width d / 2, height d / 2);
    Cube "left_wall" (0.2, width d, height d) (- length d / 2, 0, height d / 2);
    Cube "right_wall" (0.2, width d, height d) (length d / 2, 0, height d / 2) ].

Lemma setup_building_Ok st dims st1 :
  setup_building rng catalogs st = Ok (dims, st1) ->
  assets_of st1 = assets_of st ++ building_slabs dims.
Proof.
  unfold setup_building. intro H. cbv zeta in H. cbn [for_each] in H.
  unfold apply_texture in H.
  run_all H. chain_assets.
Qed.

(** The shape of the lighting rig: a directional light first, point
    lights after it. *)
Definition light_rig (lights : list asset) : Prop :=
  match lights with
  | [] => True
  | first :: others =>
      is_DirectionalLight first = true
      /\ Forall (fun o => is_PointLight o = true) others
  end.

Definition light_of_round (i : nat) (o : asset) : Prop :=
  if Nat.eqb i 0 then is_DirectionalLight o = true else is_PointLight o = true.

Lemma later_rounds_are_point_lights n : forall a new,
    (1 <= a)%nat -> Forall2 light_of_round (seq a n) new ->
    Forall (fun o => is_PointLight o = true) new.
Proof.
  induction n as [|n IH]; intros a new Ha H; simpl in H; inversion H; subst.
  - constructor.
  - constructor.
    + unfold light_of_round in *. destruct a; [lia | assumption].
    + apply (IH (S a)); [lia | assumption].
Qed.

Lemma rounds_make_light_rig n new :
  Forall2 light_of_round (seq 0 n) new ->
  List.length new = n /\ light_rig new.
Proof.
  intro H. split.
  - apply Forall2_length in H. now rewrite length_seq in H.
  - destruct n as [|n]; simpl in H; inversion H; subst; simpl; [exact I|].
    split; [assumption|]. now apply (later_rounds_are_point_lights n 1).
Qed.

Lemma add_random_lighting_Ok n dims st u st1 :
  add_random_lighting rng n dims st = Ok (u, st1) ->
  exists lights,
    assets_of st1 = assets_of st ++ lights
    /\ List.length lights = n /\ light_rig lights.
Proof.
  unfold add_random_lighting. intro H. cbv zeta in H.
  apply bind_Ok in H as (r & s1 & H1 & H). absorb H1.
  apply bind_Ok in H as (g & s2 & H2 & H). absorb H2.
  apply bind_Ok in H as (b & s3 & H3 & H). absorb H3.
  apply bind_Ok in H as (w & s4 & H4 & H). absorb H4.
  apply (for_each_grows light_of_round) in H.
  - destruct H as (new & Hnew & Hall). exists new.
    split; [chain_assets | now apply rounds_make_light_rig].
  - clear. intros i st u st1 H. run_all H.
    eexists. split; [chain_assets|].
    unfold light_of_round. destruct (Nat.eqb i 0); reflexivity.
Qed.

(** An object scattered from category [c], or the target when the
    name carries [prefix]. *)
Definition placed_from (c : category) (prefix : string) (o : asset) : Prop :=
  exists asset_path scale position ax ay az,
    In asset_path (ASSET_CATEGORIES catalogs c)
    /\ o = FileBasedObject (String.append prefix (PyStr.basename asset_path))
             asset_path asset_path (scale, scale, scale) position
             (jiggle_quat ax ay az).

Lemma add_random_objects_Ok c n textures st u st1 :
  add_random_objects rng catalogs c n textures st = Ok (u, st1) ->
  exists new,
    assets_of st1 = assets_of st ++ new
    /\ List.length new = n /\ Forall (placed_from c "") new.
Proof.
  unfold add_random_objects. intro H.
  apply (for_each_grows (fun _ o => placed_from c "" o)) in H.
  - destruct H as (new & Hnew & Hall). exists new. split; [assumption|]. split.
    + apply Forall2_length in Hall. unfold range in Hall.
      now rewrite length_seq in Hall.
    + clear - Hall. induction Hall; constructor; assumption.
  - clear. intros i st u st1 H. unfold jiggle_rotation, apply_texture in H.
    run_all H. eexists. split; [chain_assets|].
    unfold placed_from. do 6 eexists. split; [eassumption | reflexivity].
Qed.

Lemma place_pallet_Ok dims st obj st1 :
  place_pallet rng catalogs dims st = Ok (obj, st1) ->
  assets_of st1 = assets_of st ++ [obj] /\ placed_from Pallet "target_" obj.
Proof.
  unfold place_pallet. intro H. unfold jiggle_rotation, apply_texture in H.
  run_all H. split; [chain_assets|].
  unfold placed_from. do 6 eexists. split; [eassumption | reflexivity].
Qed.

End Placement.

Section SceneDocument.

Import Geometry WarehouseUtils Warehouse.
Local Open Scope R_scope.
Context {kubric : KubricLib} {euler : EulerExtraction}.
Variable rng : Rng.
Variable catalogs : Catalogs.

(** What a scene holds once the placement stages are through: the
    five slabs, the lighting rig, the scattered objects by category
    and the target, in the order of their addition. *)
Record populated (dims : Dims) (target : asset)
       (lights racks forklifts pallets all : list asset) : Prop :=
  mkPopulated {
    pop_assets :
      all = building_slabs dims ++ lights ++ racks ++ forklifts ++ pallets ++ [target];
    pop_lights_count : (5 <= List.length lights <= 10)%nat;
    pop_lights_rig : light_rig lights;
    pop_racks_count : (10 <= List.length racks <= 30)%nat;
    pop_racks_from : Forall (placed_from catalogs Rack "") racks;
    pop_forklifts_count : (5 <= List.length forklifts <= 10)%nat;
    pop_forklifts_from : Forall (placed_from catalogs Forklift "") forklifts;
    pop_pallets_count : (1 <= List.length pallets <= 5)%nat;
    pop_pallets_from : Forall (placed_from catalogs Pallet "") pallets;
    pop_target : placed_from catalogs Pallet "target_" target
  }.

Lemma populate_scene_Ok drawn dims target st1 :
  populate_scene rng catalogs (mkState drawn new_scene) = Ok ((dims, target), st1) ->
  exists lights racks forklifts pallets,
    populated dims target lights racks forklifts pallets (assets_of st1).
Proof.
  unfold populate_scene. intro H.
  apply bind_Ok in H as (d & s1 & H1 & H). apply setup_building_Ok in H1.
  apply bind_Ok in H as (n & s2 & H2 & H). absorb H2.
  apply bind_Ok in H as (u3 & s3 & H3 & H).
  apply add_random_lighting_Ok in H3 as (lights & H3 & Hln & Hrig).
  apply bind_Ok in H as (nr & s4 & H4 & H). absorb H4.
  apply bind_Ok in H as (u5 & s5 & H5 & H).
  apply add_random_objects_Ok in H5 as (racks & H5 & Hrn & Hracks).
  apply bind_Ok in H as (nf & s6 & H6 & H). absorb H6.
  apply bind_Ok in H as (u7 & s7 & H7 & H).
  apply add_random_objects_Ok in H7 as (forklifts & H7 & Hfn & Hforklifts).
  apply bind_Ok in H as (np & s8 & H8 & H). absorb H8.
  apply bind_Ok in H as (u9 & s9 & H9 & H).
  apply add_random_objects_Ok in H9 as (pallets & H9 & Hpn & Hpallets).
  apply bind_Ok in H as (t & s10 & H10 & H).
  apply place_pallet_Ok in H10 as (H10 & Ht).
  apply ret_Ok in H as [Heq ->]. injection Heq as <- <-.
  simpl in *.
  exists lights, racks, forklifts, pallets.
  constructor; try assumption; try lia.
  chain_assets.
Qed.

Lemma light_rig_all_lights lights :
  light_rig lights -> Forall (fun o => is_Light o = true) lights.
Proof.
  destruct lights as [|first others]; simpl; [constructor|].
  intros [Hd Hp]. constructor.
  - destruct first; try discriminate; reflexivity.
  - eapply Forall_impl; [|exact Hp]. intros o Ho.
    destruct o; try discriminate; reflexivity.
Qed.

Lemma filter_all {A} (f : A -> bool) l :
  Forall (fun x => f x = true) l -> filter f l = l.
Proof. induction 1 as [|x l Hx _ IH]; simpl; [|rewrite Hx, IH]; reflexivity. Qed.

Lemma filter_none {A} (f : A -> bool) l :
  Forall (fun x => f x = false) l -> filter f l = [].
Proof. induction 1 as [|x l Hx _ IH]; simpl; [|rewrite Hx, IH]; reflexivity. Qed.

Lemma placed_is_physical c prefix l :
  Forall (placed_from catalogs c prefix) l ->
  Forall (fun o => is_PhysicalObject o = true) l
  /\ Forall (fun o => is_Light o = false) l.
Proof.
  intro H. split; (eapply Forall_impl; [|exact H]);
    intros o (p & s & pos & ax & ay & az & _ & ->); reflexivity.
Qed.

Lemma lights_not_physical lights :
  light_rig lights -> Forall (fun o => is_PhysicalObject o = false) lights.
Proof.
  intro H. apply light_rig_all_lights in H.
  eapply Forall_impl; [|exact H]. intros o Ho. destruct o; try discriminate; reflexivity.
Qed.

(** The lights of a populated scene are the lighting rig. *)
Lemma populated_lights dims target lights racks forklifts pallets all
      (P : populated dims target lights racks forklifts pallets all) :
  filter is_Light all = lights.
Proof.
  destruct P as [Hall _ Hrig _ Hracks _ Hforklifts _ Hpallets Htarget].
  rewrite Hall. rewrite !filter_app.
  destruct (placed_is_physical _ _ _ Hracks) as [_ Hr].
  destruct (placed_is_physical _ _ _ Hforklifts) as [_ Hf].
  destruct (placed_is_physical _ _ _ Hpallets) as [_ Hp].
  destruct (placed_is_physical _ _ [target] (Forall_cons _ Htarget (Forall_nil _)))
    as [_ Ht].
  rewrite (filter_none _ _ Hr), (filter_none _ _ Hf), (filter_none _ _ Hp),
    (filter_none _ _ Ht).
  rewrite (filter_all _ _ (light_rig_all_lights _ Hrig)).
  simpl. now rewrite app_nil_r.
Qed.

(** Its physical objects are the slabs, the scattered objects and the
    target, in that order. *)
Lemma populated_physical dims target lights racks forklifts pallets all
      (P : populated dims target lights racks forklifts pallets all) :
  filter is_PhysicalObject all
  = building_slabs dims ++ racks ++ forklifts ++ pallets ++ [target].
Proof.
  destruct P as [Hall _ Hrig _ Hracks _ Hforklifts _ Hpallets Htarget].
  rewrite Hall. rewrite !filter_app.
  destruct (placed_is_physical _ _ _ Hracks) as [Hr _].
  destruct (placed_is_physical _ _ _ Hforklifts) as [Hf _].
  destruct (placed_is_physical _ _ _ Hpallets) as [Hp _].
  destruct (placed_is_physical _ _ [target] (Forall_cons _ Htarget (Forall_nil _)))
    as [Ht _].
  rewrite (filter_all _ _ Hr), (filter_all _ _ Hf), (filter_all _ _ Hp),
    (filter_all _ _ Ht).
  rewrite (filter_none _ _ (lights_not_physical _ Hrig)).
  reflexivity.
Qed.

Lemma generate_scene_metadata_Ok drawn i target md st1 :
  generate_scene_metadata rng catalogs i (mkState drawn new_scene)
  = Ok ((target, md), st1) ->
  exists dims lights racks forklifts pallets,
    populated dims target lights racks forklifts pallets (assets_of st1)
    /\ make_scene_metadata i dims (scene st1) = Ok md.
Proof.
  unfold generate_scene_metadata. intro H.
  apply bind_Ok in H as ([dims t] & s1 & H1 & H). cbv zeta in H. simpl fst in H.
  simpl snd in H.
  apply populate_scene_Ok in H1 as (lights & racks & forklifts & pallets & H1).
  apply bind_Ok in H as (s & s2 & H2 & H). apply get_scene_Ok in H2 as [-> ->].
  apply bind_Ok in H as (m & s3 & H3 & H). apply lift_Ok in H3 as [H3 ->].
  apply ret_Ok in H as [Heq ->]. injection Heq as <- <-.
  exists dims, lights, racks, forklifts, pallets. split; assumption.
Qed.

Lemma map_result_Ok {A B} (f : A -> result B) l bs :
  map_result f l = Ok bs -> Forall2 (fun a b => f a = Ok b) l bs.
Proof.
  revert bs. induction l as [|a l IH]; intros bs H; simpl in H.
  - injection H as <-. constructor.
  - destruct (f a) as [b|e] eqn:Hfa; [|discriminate].
    destruct (map_result f l) as [bs'|e]; [|discriminate].
    injection H as <-. constructor; auto.
Qed.

Lemma make_scene_metadata_Ok i dims s md :
  make_scene_metadata i dims s = Ok md ->
  num_lights md = List.length (filter is_Light (assets s))
  /\ Forall2 (fun o r => object_record o = Ok r)
             (filter is_PhysicalObject (assets s)) (objects md).
Proof.
  unfold make_scene_metadata.
  destruct (map_result object_record (filter is_PhysicalObject (assets s)))
    as [objs|e] eqn:Hm; [|discriminate].
  intro H. injection H as <-. simpl. split; [reflexivity|].
  now apply map_result_Ok.
Qed.

Lemma object_record_Ok o r :
  object_record o = Ok r ->
  exists rot,
    from_quat (asset_quaternion o) = Ok rot
    /\ rec_name r = asset_name o
    /\ rec_position r = asset_position o
    /\ rec_scale r = asset_scale o
    /\ rec_rotation r = as_euler_xyz rot false.
Proof.
  unfold object_record. destruct (from_quat (asset_quaternion o)) as [rot|e]; [|discriminate].
  intro H. injection H as <-. exists rot. simpl. auto.
Qed.

Lemma records_names l recs :
  Forall2 (fun o r => object_record o = Ok r) l recs ->
  map rec_name recs = map asset_name l.
Proof.
  induction 1 as [|o r l recs Hor _ IH]; simpl; [reflexivity|].
  apply object_record_Ok in Hor as (rot & _ & Hn & _). now rewrite Hn, IH.
Qed.

End SceneDocument.

(* ================================================================== *)
(** * Runs that succeed *)
(* ================================================================== *)

Section Totality.

Import Geometry WarehouseUtils Warehouse.
Local Open Scope R_scope.
Context {kubric : KubricLib} {euler : EulerExtraction}.
Variable rng : Rng.
Variable catalogs : Catalogs.

(** A computation that returns from every state. *)
Definition total {A} (m : M A) : Prop :=
  forall st, exists a st1, m st = Ok (a, st1).

Lemma total_ret {A} (a : A) : total (ret a).
Proof. intro st. now exists a, st. Qed.

Lemma total_bind {A B} (m : M A) (k : A -> M B) :
  total m -> (forall a, total (k a)) -> total (bind m k).
Proof.
  intros Hm Hk st. destruct (Hm st) as (a & st1 & Ha).
  destruct (Hk a st1) as (b & st2 & Hb).
  exists b, st2. unfold bind. now rewrite Ha.
Qed.

Lemma total_uniform a b : total (uniform rng a b).
Proof. intro st. eexists. eexists. reflexivity. Qed.

Lemma total_randint a b : (a <= b)%nat -> total (randint rng a b).
Proof.
  intros Hab st. unfold randint.
  destruct (Nat.ltb b a) eqn:Hlt; [apply Nat.ltb_lt in Hlt; lia|].
  eexists. eexists. reflexivity.
Qed.

Lemma total_choice {A} (l : list A) : l <> [] -> total (choice rng l).
Proof.
  intros Hl st. destruct l as [|d l]; [contradiction|].
  eexists. eexists. reflexivity.
Qed.

Lemma total_add o : total (add o).
Proof. intro st. eexists. eexists. reflexivity. Qed.

Lemma total_set_ambient c : total (set_ambient c).
Proof. intro st. eexists. eexists. reflexivity. Qed.

Lemma total_for_each {A} (xs : list A) (body : A -> M unit) :
  (forall x, total (body x)) -> total (for_each xs body).
Proof.
  intro Hbody. induction xs as [|x xs IH]; simpl.
  - apply total_ret.
  - apply total_bind; [apply Hbody | intros _; exact IH].
Qed.

(** Every catalogue the scene job draws from has an entry. *)
Definition catalogs_stocked : Prop :=
  (forall c, ASSET_CATEGORIES catalogs c <> [])
  /\ tex_wood catalogs <> []
  /\ tex_metal catalogs ++ tex_plastic catalogs <> [].

Hypothesis stocked : catalogs_stocked.

Lemma wood_stocked : tex_wood catalogs <> [].
Proof. apply stocked. Qed.

Lemma valid_textures_stocked :
  tex_floor catalogs ++ tex_wood catalogs ++ tex_metal catalogs ++ tex_plastic catalogs
  <> [].
Proof.
  pose proof wood_stocked as Hw. intro H.
  apply app_eq_nil in H as [_ H]. apply app_eq_nil in H as [H _]. contradiction.
Qed.

Lemma metal_plastic_stocked : tex_metal catalogs ++ tex_plastic catalogs <> [].
Proof. apply stocked. Qed.

Lemma plastic_metal_stocked : tex_plastic catalogs ++ tex_metal catalogs <> [].
Proof.
  pose proof metal_plastic_stocked as H. intro H1. apply H.
  apply app_eq_nil in H1 as [-> ->]. reflexivity.
Qed.

Ltac totality :=
  repeat first
    [ apply total_bind; [|intro]
    | apply total_uniform
    | apply total_ret
    | apply total_add
    | apply total_set_ambient
    | apply total_choice
    | apply total_for_each; intro
    | apply total_randint; simpl; lia ].

Lemma total_setup_building : total (setup_building rng catalogs).
Proof.
  unfold setup_building, apply_texture. cbv zeta.
  totality; apply valid_textures_stocked.
Qed.

Lemma total_add_random_lighting n dims : total (add_random_lighting rng n dims).
Proof. unfold add_random_lighting. cbv zeta. totality. Qed.

Lemma total_add_random_objects c n textures :
  textures <> [] -> total (add_random_objects rng catalogs c n textures).
Proof.
  intro Ht. unfold add_random_objects, jiggle_rotation, apply_texture.
  totality; [apply stocked | exact Ht].
Qed.

Lemma total_place_pallet dims : total (place_pallet rng catalogs dims).
Proof.
  unfold place_pallet, jiggle_rotation, apply_texture.
  totality; [apply stocked | apply wood_stocked].
Qed.

Lemma total_populate_scene : total (populate_scene rng catalogs).
Proof.
  unfold populate_scene.
  apply total_bind; [apply total_setup_building | intro dims].
  apply total_bind; [apply total_randint; lia | intro n].
  apply total_bind; [apply total_add_random_lighting | intros _].
  apply total_bind; [apply total_randint; simpl; lia | intro n_rack].
  apply total_bind;
    [apply total_add_random_objects, metal_plastic_stocked | intros _].
  apply total_bind; [apply total_randint; simpl; lia | intro n_forklift].
  apply total_bind;
    [apply total_add_random_objects, plastic_metal_stocked | intros _].
  apply total_bind; [apply total_randint; simpl; lia | intro n_pallet].
  apply total_bind; [apply total_add_random_objects, wood_stocked | intros _].
  apply total_bind; [apply total_place_pallet | intro target].
  apply total_ret.
Qed.

(** The library never hands out a quaternion of norm zero. *)
Definition readable (q : quat4) : Prop := exists r, from_quat q = Ok r.

Definition orientations_readable : Prop :=
  readable default_quaternion /\ forall ax ay az, readable (jiggle_quat ax ay az).

Hypothesis library_ok : orientations_readable.

Lemma map_result_total {A B} (f : A -> result B) l :
  Forall (fun a => exists b, f a = Ok b) l -> exists bs, map_result f l = Ok bs.
Proof.
  induction 1 as [|a l [b Hb] _ [bs IH]]; simpl.
  - now exists [].
  - rewrite Hb, IH. now exists (b :: bs).
Qed.

Lemma object_record_total o :
  readable (asset_quaternion o) -> exists r, object_record o = Ok r.
Proof. intros [rot H]. unfold object_record. rewrite H. eauto. Qed.

Lemma placed_readable c prefix l :
  Forall (placed_from catalogs c prefix) l ->
  Forall (fun o => exists r, object_record o = Ok r) l.
Proof.
  intro H. eapply Forall_impl; [|exact H].
  intros o (p & s & pos & ax & ay & az & _ & ->).
  apply object_record_total. simpl. apply library_ok.
Qed.

Lemma slabs_readable dims :
  Forall (fun o => exists r, object_record o = Ok r) (building_slabs dims).
Proof.
  unfold building_slabs.
  repeat constructor; apply object_record_total; simpl; apply library_ok.
Qed.

Lemma generate_scene_metadata_total drawn i :
  exists target md st1,
    generate_scene_metadata rng catalogs i (mkState drawn new_scene)
    = Ok ((target, md), st1).
Proof.
  destruct (total_populate_scene (mkState drawn new_scene)) as ([dims target] & st1 & Hp).
  pose proof (populate_scene_Ok _ _ _ _ _ _ Hp) as (lights & racks & forklifts & pallets & P).
  assert (Hobjs : exists objs,
             map_result object_record (filter is_PhysicalObject (assets (scene st1)))
             = Ok objs).
  { apply map_result_total.
    change (assets (scene st1)) with (assets_of st1).
    rewrite (populated_physical _ _ _ _ _ _ _ _ P).
    destruct P as [_ _ _ _ Hr _ Hf _ Hpl Ht].
    repeat (apply Forall_app; split);
      eauto using slabs_readable, placed_readable. }
  destruct Hobjs as (objs & Hobjs).
  eexists target, _, st1.
  unfold generate_scene_metadata, bind. rewrite Hp. cbv zeta. simpl fst. simpl snd.
  unfold get_scene, lift, make_scene_metadata. rewrite Hobjs. reflexivity.
Qed.

End Totality.

(* ================================================================== *)
(** * A small installation to run the code on *)
(* ================================================================== *)

Module Sample.

Import Geometry WarehouseUtils Warehouse.
Local Open Scope R_scope.

(** Quaternions stored as (w, x, y, z), built from an axis taken as
    given and an angle, multiplied by the Hamilton product; entities
    aimed at a point keep the identity here. *)
Definition axis_angle (axis : vec3) (angle : R) : quat4 :=
  match axis with
  | (ux, uy, uz) =>
      (cos (angle / 2), ux * sin (angle / 2), uy * sin (angle / 2), uz * sin (angle / 2))
  end.

Definition hamilton (p q : quat4) : quat4 :=
  match p, q with
  | (pw, px, py, pz), (qw, qx, qy, qz) =>
      (pw * qw - px * qx - py * qy - pz * qz,
       pw * qx + px * qw + py * qz - pz * qy,
       pw * qy - px * qz + py * qw + pz * qx,
       pw * qz + px * qy - py * qx + pz * qw)
  end.

#[export] Instance kubric : KubricLib := {
  Quaternion := axis_angle;
  quat_mul := hamilton;
  default_quaternion := (1, 0, 0, 0);
  look_at_quat := fun _ _ => (1, 0, 0, 0);
  default_ambient := [0.05; 0.05; 0.05; 1]
}.

#[export] Instance renderer : Renderer := { render_still := fun _ => Ok tt }.

(** [atan2(y, x)]. *)
Definition atan2 (y x : R) : R :=
  if Rlt_dec 0 x then atan (y / x)
  else if Rlt_dec x 0
       then if Rle_dec 0 y then atan (y / x) + PI else atan (y / x) - PI
       else if Rlt_dec 0 y then PI / 2
            else if Rlt_dec y 0 then - PI / 2 else 0.

(** The closed form of the extrinsic xyz angles of a rotation matrix
    [Rz(c) * Ry(b) * Rx(a)], valid away from [b = +-90] degrees. *)
#[export] Instance euler : EulerExtraction := {
  euler_rad := fun r =>
    let m := as_matrix r in
    (atan2 (entry m 2 1) (entry m 2 2),
     asin (- entry m 2 0),
     atan2 (entry m 1 0) (entry m 0 0))
}.

Definition rng : Rng := mkRng (fun _ => 0.5) (fun k => k) (fun _ => 0).

Definition oak : texture_set :=
  mkTextureSet (Some "assets/wood/oak_color.jpg"%string) None None.
Definition steel : texture_set :=
  mkTextureSet (Some "assets/metal/steel_albedo.png"%string)
               (Some "assets/metal/steel_normal.png"%string) None.

Definition catalogs : Catalogs :=
  mkCatalogs
    (fun c => match c with
              | Pallet => ["assets/pallet/euro.obj"%string]
              | Rack => ["assets/rack/shelf.glb"%string]
              | Forklift => ["assets/forklift/truck.fbx"%string]
              end)
    [oak] [steel] [] [].

Definition getcwd : string := "/home/user/Kubric-Pallets".

(** A pallet and a camera to document. *)
Definition pallet : asset :=
  FileBasedObject "target_euro.obj" "assets/pallet/euro.obj" "assets/pallet/euro.obj"
                  (1, 1, 1) (2, 3, 0.5) (0, 0, 0, 1).

Definition camera : asset := PerspectiveCamera (2.8, 3, 0.6) (2, 3, 0.5) 5 0.1 100.0.

Definition fresh : state := mkState 0 new_scene.

End Sample.

Section SampleRuns.

Import Geometry Warehouse.
Local Open Scope R_scope.
#[local] Existing Instances Sample.kubric Sample.renderer Sample.euler.

Definition tuple_norm2 (q : quat4) : R :=
  match q with (a, b, c, d) => a * a + b * b + c * c + d * d end.

Lemma unit_tuple_readable q : tuple_norm2 q = 1 -> readable q.
Proof.
  destruct q as [[[a b] c] d]. intro H.
  exists (mkRot a b c d). simpl. now apply normalize_of_unit.
Qed.

Lemma hamilton_norm p q :
  tuple_norm2 (Sample.hamilton p q) = tuple_norm2 p * tuple_norm2 q.
Proof.
  destruct p as [[[pw px] py] pz], q as [[[qw qx] qy] qz]. simpl. ring.
Qed.

Lemma axis_angle_norm ux uy uz angle :
  ux * ux + uy * uy + uz * uz = 1 ->
  tuple_norm2 (Sample.axis_angle (ux, uy, uz) angle) = 1.
Proof.
  intro Hu. pose proof (sin2_cos2 (angle / 2)) as H. unfold Rsqr in H. simpl.
  transitivity (cos (angle / 2) * cos (angle / 2)
                + (ux * ux + uy * uy + uz * uz) * (sin (angle / 2) * sin (angle / 2)));
    [ring | rewrite Hu; lra].
Qed.

Lemma sample_orientations_readable : @orientations_readable Sample.kubric.
Proof.
  split.
  - apply unit_tuple_readable. simpl. ring.
  - intros ax ay az. apply unit_tuple_readable. unfold jiggle_quat.
    cbn [quat_mul Quaternion Sample.kubric].
    rewrite !hamilton_norm, !axis_angle_norm; ring.
Qed.

Lemma sample_catalogs_stocked : catalogs_stocked Sample.catalogs.
Proof.
  split; [|split]; try discriminate. intros []; discriminate.
Qed.

(** The scene job of the sample installation reaches its metadata. *)
Lemma sample_scene_is_generated :
  exists target md st1,
    generate_scene_metadata Sample.rng Sample.catalogs 0 Sample.fresh
    = Ok ((target, md), st1).
Proof.
  apply generate_scene_metadata_total.
  - apply sample_catalogs_stocked.
  - apply sample_orientations_readable.
Qed.

End SampleRuns.

(* ================================================================== *)
(** * Properties of the scene metadata document *)
(* ================================================================== *)

Section SceneClaims.

Import Geometry WarehouseUtils Warehouse.
Local Open Scope R_scope.
Context {kubric : KubricLib} {euler : EulerExtraction}.
Variable rng : Rng.
Variable catalogs : Catalogs.

Definition structural_names : list string :=
  ["floor"; "front_wall"; "back_wall"; "left_wall"; "right_wall"]%string.

(** The listing of the [objects] field of a generated scene. *)
Lemma scene_objects_listing drawn i target md st1 :
  generate_scene_metadata rng catalogs i (mkState drawn new_scene)
  = Ok ((target, md), st1) ->
  exists dims lights racks forklifts pallets,
    populated catalogs dims target lights racks forklifts pallets (assets (scene st1))
    /\ Forall2 (fun o r => object_record o = Ok r)
               (building_slabs dims ++ racks ++ forklifts ++ pallets ++ [target])
               (objects md)
    /\ map rec_name (objects md)
       = structural_names ++ map asset_name (racks ++ forklifts ++ pallets ++ [target]).
Proof.
  intro H.
  apply generate_scene_metadata_Ok in H
    as (dims & lights & racks & forklifts & pallets & P & Hmd).
  apply make_scene_metadata_Ok in Hmd as [_ Hobjs].
  change (assets (scene st1)) with (assets_of st1) in Hobjs.
  rewrite (populated_physical _ _ _ _ _ _ _ _ P) in Hobjs.
  exists dims, lights, racks, forklifts, pallets.
  split; [exact P|]. split; [exact Hobjs|].
  rewrite (records_names _ _ Hobjs), map_app. reflexivity.
Qed.

(** The lights of a generated scene and the count that is recorded. *)
Lemma scene_lights_listing drawn i target md st1 :
  generate_scene_metadata rng catalogs i (mkState drawn new_scene)
  = Ok ((target, md), st1) ->
  exists lights,
    filter is_Light (assets (scene st1)) = lights
    /\ num_lights md = List.length lights
    /\ (5 <= List.length lights <= 10)%nat
    /\ light_rig lights.
Proof.
  intro H.
  apply generate_scene_metadata_Ok in H
    as (dims & lights & racks & forklifts & pallets & P & Hmd).
  apply make_scene_metadata_Ok in Hmd as [Hn _].
  change (assets (scene st1)) with (assets_of st1) in *.
  rewrite (populated_lights _ _ _ _ _ _ _ _ P) in Hn.
  exists lights. split; [apply (populated_lights _ _ _ _ _ _ _ _ P)|].
  destruct P. auto.
Qed.

(** Radians and degrees of the same angles agree only at zero. *)
Lemma rad2deg_fixed_point v : map3 rad2deg v = v -> v = (0, 0, 0).
Proof.
  assert (Hfix : forall a, rad2deg a = a -> a = 0).
  { intros a Ha. unfold rad2deg in Ha.
    pose proof PI_4 as H4. pose proof PI_RGT_0 as H0.
    assert (Hk : a * 180 = a * PI).
    { transitivity (a * (180 / PI) * PI); [field; lra | rewrite Ha; ring]. }
    destruct (Req_dec a 0) as [|Hne]; [assumption|].
    apply Rmult_eq_reg_l in Hk; [lra | assumption]. }
  destruct v as [[a b] c]. simpl. intro H. injection H as Ha Hb Hc.
  now rewrite (Hfix a Ha), (Hfix b Hb), (Hfix c Hc).
Qed.

(** What the [rotation] field of every entry holds. *)
Lemma scene_rotations_listing drawn i target md st1 :
  generate_scene_metadata rng catalogs i (mkState drawn new_scene)
  = Ok ((target, md), st1) ->
  Forall2
    (fun o r =>
       exists rot,
         from_quat (asset_quaternion o) = Ok rot
         /\ rec_rotation r = as_euler_xyz rot false
         /\ as_euler_xyz rot true = map3 rad2deg (rec_rotation r)
         /\ (rec_rotation r = as_euler_xyz rot true -> rec_rotation r = (0, 0, 0)))
    (filter is_PhysicalObject (assets (scene st1))) (objects md).
Proof.
  intro H.
  apply generate_scene_metadata_Ok in H
    as (dims & lights & racks & forklifts & pallets & P & Hmd).
  apply make_scene_metadata_Ok in Hmd as [_ Hobjs].
  eapply Forall2_impl; [|exact Hobjs].
  intros o r Hor. apply object_record_Ok in Hor as (rot & Hq & _ & _ & _ & Hrot).
  exists rot. split; [exact Hq|]. split; [exact Hrot|]. split.
  - rewrite Hrot. reflexivity.
  - intro Heq. apply rad2deg_fixed_point. rewrite Heq at 2. rewrite Hrot. reflexivity.
Qed.

End SceneClaims.

(** C7. In every scene whose metadata is written, the recorded
    [num_lights] is the number of lights among the scene's assets, it
    lies between 5 and 10, and those lights are one directional light,
    added first, followed by [num_lights - 1] point lights. *)
Theorem C7_recorded_light_count :
  forall (kubric : Warehouse.KubricLib) (euler : Geometry.EulerExtraction)
         (rng : Warehouse.Rng) (catalogs : Warehouse.Catalogs) (drawn i : nat)
         (target : Warehouse.asset) (md : Warehouse.SceneMetadata)
         (st1 : Warehouse.state),
    Warehouse.generate_scene_metadata rng catalogs i
      (Warehouse.mkState drawn Warehouse.new_scene) = Ok ((target, md), st1) ->
    let lights := filter Warehouse.is_Light (Warehouse.assets (Warehouse.scene st1)) in
    Warehouse.num_lights md = List.length lights
    /\ (5 <= Warehouse.num_lights md <= 10)%nat
    /\ exists first others,
        lights = first :: others
        /\ Warehouse.is_DirectionalLight first = true
        /\ Forall (fun o => Warehouse.is_PointLight o = true) others
        /\ List.length others = (Warehouse.num_lights md - 1)%nat.
Proof.
  intros kubric euler rng catalogs drawn i target md st1 H lights.
  apply scene_lights_listing in H as (ls & Hls & Hn & Hcount & Hrig).
  subst lights. rewrite Hls. split; [exact Hn|]. split; [lia|].
  destruct ls as [|first others]; [simpl in Hcount; lia|].
  destruct Hrig as [Hd Hp]. exists first, others.
  repeat split; try assumption. rewrite Hn. simpl. lia.
Qed.

Lemma C7_recorded_light_count_witness :
  exists target md st1,
    @Warehouse.generate_scene_metadata Sample.kubric Sample.euler
      Sample.rng Sample.catalogs 0 Sample.fresh = Ok ((target, md), st1)
    /\ Warehouse.num_lights md
       = List.length (filter Warehouse.is_Light (Warehouse.assets (Warehouse.scene st1)))
    /\ (5 <= Warehouse.num_lights md <= 10)%nat.
Proof.
  destruct sample_scene_is_generated as (target & md & st1 & H).
  exists target, md, st1. split; [exact H|].
  destruct (C7_recorded_light_count Sample.kubric Sample.euler Sample.rng
              Sample.catalogs 0 0 target md st1 H) as (Hn & Hr & _).
  split; assumption.
Defined.

(** The second half of the claim as the specification words it: no
    entry of [objects] is the floor or a wall slab. *)
Definition no_structural_entry (md : Warehouse.SceneMetadata) : Prop :=
  forall r, In r (Warehouse.objects md) ->
            ~ In (Warehouse.rec_name r) structural_names.

(** C2, as stated, fails: the scene of the sample installation lists
    the floor slab as the first entry of [objects]. *)
Lemma C2_floor_is_listed :
  exists target md st1,
    @Warehouse.generate_scene_metadata Sample.kubric Sample.euler
      Sample.rng Sample.catalogs 0 Sample.fresh = Ok ((target, md), st1)
    /\ (exists r, hd_error (Warehouse.objects md) = Some r
                  /\ Warehouse.rec_name r = "floor"%string)
    /\ ~ no_structural_entry md.
Proof.
  destruct sample_scene_is_generated as (target & md & st1 & H).
  exists target, md, st1. split; [exact H|].
  apply scene_objects_listing in H
    as (dims & lights & racks & forklifts & pallets & _ & _ & Hnames).
  unfold no_structural_entry.
  destruct (Warehouse.objects md) as [|r rest]; [discriminate|].
  unfold structural_names in Hnames. simpl in Hnames. injection Hnames as Hr _.
  split.
  - exists r. split; [reflexivity | exact Hr].
  - intro Hno. apply (Hno r); [left; reflexivity|]. rewrite Hr. left. reflexivity.
Qed.

(** C2, amended. In every scene whose metadata is written, the
    [objects] list holds, in order of addition, one entry for every
    physical object of the scene: the floor and the four wall slabs,
    then the scattered racks (10 to 30), forklifts (5 to 10) and
    pallets (1 to 5), and last the target pallet.  The lights, which
    stand between the slabs and the racks among the assets, have no
    entry. *)
Theorem C2_objects_list_physical_objects :
  forall (kubric : Warehouse.KubricLib) (euler : Geometry.EulerExtraction)
         (rng : Warehouse.Rng) (catalogs : Warehouse.Catalogs) (drawn i : nat)
         (target : Warehouse.asset) (md : Warehouse.SceneMetadata)
         (st1 : Warehouse.state),
    Warehouse.generate_scene_metadata rng catalogs i
      (Warehouse.mkState drawn Warehouse.new_scene) = Ok ((target, md), st1) ->
    exists dims lights racks forklifts pallets,
      Warehouse.assets (Warehouse.scene st1)
      = building_slabs dims ++ lights ++ racks ++ forklifts ++ pallets ++ [target]
      /\ Forall (fun o => Warehouse.is_Light o = true) lights
      /\ (10 <= List.length racks <= 30)%nat
      /\ Forall (placed_from catalogs Warehouse.Rack "") racks
      /\ (5 <= List.length forklifts <= 10)%nat
      /\ Forall (placed_from catalogs Warehouse.Forklift "") forklifts
      /\ (1 <= List.length pallets <= 5)%nat
      /\ Forall (placed_from catalogs Warehouse.Pallet "") pallets
      /\ placed_from catalogs Warehouse.Pallet "target_" target
      /\ Forall2 (fun o r => Warehouse.object_record o = Ok r)
                 (building_slabs dims ++ racks ++ forklifts ++ pallets ++ [target])
                 (Warehouse.objects md)
      /\ map Warehouse.rec_name (Warehouse.objects md)
         = structural_names
           ++ map Warehouse.asset_name (racks ++ forklifts ++ pallets ++ [target]).
Proof.
  intros kubric euler rng catalogs drawn i target md st1 H.
  apply scene_objects_listing in H
    as (dims & lights & racks & forklifts & pallets & P & Hobjs & Hnames).
  exists dims, lights, racks, forklifts, pallets.
  destruct P as [Hall Hlc Hrig Hrc Hrf Hfc Hff Hpc Hpf Ht].
  repeat split; try assumption; try lia.
  now apply light_rig_all_lights.
Qed.

Lemma C2_objects_list_physical_objects_witness :
  exists target md st1,
    @Warehouse.generate_scene_metadata Sample.kubric Sample.euler
      Sample.rng Sample.catalogs 0 Sample.fresh = Ok ((target, md), st1)
    /\ exists others,
        map Warehouse.rec_name (Warehouse.objects md)
        = structural_names ++ map Warehouse.asset_name (others ++ [target]).
Proof.
  destruct sample_scene_is_generated as (target & md & st1 & H).
  exists target, md, st1. split; [exact H|].
  destruct (C2_objects_list_physical_objects Sample.kubric Sample.euler Sample.rng
              Sample.catalogs 0 0 target md st1 H)
    as (dims & lights & racks & forklifts & pallets & Hrest).
  exists (racks ++ forklifts ++ pallets).
  rewrite <- !app_assoc. apply Hrest.
Defined.

(** A pallet lying on its side: the quaternion the library is handed
    is (1, 0, 0, 1), a quarter turn about the x axis once normalised. *)
Definition tilted_pallet : Warehouse.asset :=
  Warehouse.FileBasedObject "euro.obj" "assets/pallet/euro.obj" "assets/pallet/euro.obj"
    (1, 1, 1)%R (2, 3, 0)%R (1, 0, 0, 1)%R.

Section QuarterTurn.

Import Geometry Warehouse.
Local Open Scope R_scope.

Definition quarter_turn_x : Rotation := mkRot (1 / sqrt 2) (0 / sqrt 2) (0 / sqrt 2) (1 / sqrt 2).

Lemma sqrt2_neq_0 : sqrt 2 <> 0.
Proof. pose proof (sqrt_lt_R0 2). lra. Qed.

Lemma from_quat_tilted : from_quat (1, 0, 0, 1) = Ok quarter_turn_x.
Proof.
  unfold from_quat, normalize, norm2. simpl.
  replace (1 * 1 + 0 * 0 + 0 * 0 + 1 * 1) with 2 by ring.
  destruct (Req_dec_T (sqrt 2) 0) as [H|_]; [now apply sqrt2_neq_0 in H|].
  reflexivity.
Qed.

Lemma inv_sqrt2_sq : 1 / sqrt 2 * (1 / sqrt 2) = 1 / 2.
Proof.
  pose proof sqrt2_neq_0 as Hs. pose proof (sqrt_sqrt 2 ltac:(lra)) as H2.
  transitivity (1 / (sqrt 2 * sqrt 2)); [field; exact Hs | now rewrite H2].
Qed.

Lemma atan2_up : Sample.atan2 1 0 = PI / 2.
Proof.
  unfold Sample.atan2.
  destruct (Rlt_dec 0 0); [lra|]. destruct (Rlt_dec 0 1); [reflexivity | lra].
Qed.

Lemma atan2_ahead : Sample.atan2 0 1 = 0.
Proof.
  unfold Sample.atan2. destruct (Rlt_dec 0 1); [|lra].
  replace (0 / 1) with 0 by field. apply atan_0.
Qed.

Lemma quarter_turn_angles : @euler_rad Sample.euler quarter_turn_x = (PI / 2, 0, 0).
Proof.
  pose proof inv_sqrt2_sq as Hh.
  unfold euler_rad, Sample.euler, quarter_turn_x.
  cbv [as_matrix entry nth qx qy qz qw].
  replace (2 * (0 / sqrt 2 * (0 / sqrt 2) + 1 / sqrt 2 * (1 / sqrt 2))) with 1
    by (rewrite Hh; unfold Rdiv; field; apply sqrt2_neq_0).
  replace (- (1 / sqrt 2 * (1 / sqrt 2)) - 0 / sqrt 2 * (0 / sqrt 2)
           + 0 / sqrt 2 * (0 / sqrt 2) + 1 / sqrt 2 * (1 / sqrt 2)) with 0
    by (unfold Rdiv; field; apply sqrt2_neq_0).
  replace (- (2 * (1 / sqrt 2 * (0 / sqrt 2) - 0 / sqrt 2 * (1 / sqrt 2)))) with 0
    by (unfold Rdiv; field; apply sqrt2_neq_0).
  replace (2 * (1 / sqrt 2 * (0 / sqrt 2) + 0 / sqrt 2 * (1 / sqrt 2))) with 0
    by (unfold Rdiv; field; apply sqrt2_neq_0).
  replace (1 / sqrt 2 * (1 / sqrt 2) - 0 / sqrt 2 * (0 / sqrt 2)
           - 0 / sqrt 2 * (0 / sqrt 2) + 1 / sqrt 2 * (1 / sqrt 2)) with 1
    by (rewrite Hh; unfold Rdiv; field; apply sqrt2_neq_0).
  now rewrite atan2_up, atan2_ahead, asin_0.
Qed.

End QuarterTurn.

(** C1. The code writes the angles in radians.  For the pallet lying
    on its side the [rotation] field is (pi/2, 0, 0), whereas the Euler
    xyz angles of its orientation in degrees, which the converter
    expects, are (90, 0, 0). *)
Theorem C1_rotation_field_is_in_radians :
  exists r,
    @Warehouse.object_record Sample.kubric Sample.euler tilted_pallet = Ok r
    /\ Warehouse.rec_rotation r = (PI / 2, 0, 0)%R
    /\ @Geometry.as_euler_xyz Sample.euler quarter_turn_x true = (90, 0, 0)%R
    /\ Warehouse.rec_rotation r <> (90, 0, 0)%R.
Proof.
  unfold Warehouse.object_record. simpl Warehouse.asset_quaternion.
  rewrite from_quat_tilted. eexists. split; [reflexivity|].
  unfold Geometry.as_euler_xyz. rewrite quarter_turn_angles.
  simpl. split; [reflexivity|]. split.
  - unfold Geometry.rad2deg. f_equal; [f_equal|]; field; apply PI_neq0.
  - intro H. injection H as H. pose proof PI_4. lra.
Qed.

Section CameraRuns.

Import Geometry Warehouse.
Context {kubric : KubricLib} {renderer : Renderer} {euler : EulerExtraction}.
Variable getcwd : string.

(** [save_render_data] returns as soon as the renderer delivers, the
    two quaternions are readable and the two relative paths exist. *)
Lemma save_render_data_runs output_dir i j camera pallet st frame rel rel_rgba rel_depth :
  render_still (scene st) = Ok frame ->
  relative_rotation (asset_quaternion camera) (asset_quaternion pallet) = Ok rel ->
  PyStr.relpath getcwd (PyStr.join (camera_dir_of output_dir i j) ["rgba.png"%string])
    output_dir = Ok rel_rgba ->
  PyStr.relpath getcwd (PyStr.join (camera_dir_of output_dir i j) ["depth.tiff"%string])
    output_dir = Ok rel_depth ->
  exists art, save_render_data getcwd output_dir i j camera pallet st = Ok (art, st).
Proof.
  intros Hf Hrel Hrgba Hdepth. unfold save_render_data, bind, get_scene, lift.
  rewrite Hf, Hrel, Hrgba, Hdepth. eexists. reflexivity.
Qed.

Lemma relative_rotation_of_units c p :
  tuple_norm2 c = 1%R -> tuple_norm2 p = 1%R ->
  exists rel, relative_rotation c p = Ok rel.
Proof.
  destruct c as [[[a b] c] d], p as [[[a' b'] c'] d']. intros Hc Hp.
  unfold relative_rotation, from_quat.
  rewrite !normalize_of_unit by assumption.
  rewrite mul_of_units by (rewrite ?norm2_inv; assumption). eauto.
Qed.

End CameraRuns.

Lemma sample_camera_is_documented :
  exists art,
    @Warehouse.save_render_data Sample.kubric Sample.renderer Sample.euler
      Sample.getcwd Warehouse.OUTPUT_DIR 0 0 Sample.camera Sample.pallet Sample.fresh
    = Ok (art, Sample.fresh).
Proof.
  destruct (@relative_rotation_of_units
              (@Warehouse.asset_quaternion Sample.kubric Sample.camera)
              (@Warehouse.asset_quaternion Sample.kubric Sample.pallet))
    as [rel Hrel]; [simpl; ring | simpl; ring |].
  eapply (@save_render_data_runs Sample.kubric Sample.renderer Sample.euler).
  - reflexivity.
  - exact Hrel.
  - vm_compute. reflexivity.
  - vm_compute. reflexivity.
Qed.

Section QuaternionOrder.

Import Geometry Warehouse.
Local Open Scope R_scope.

(** The rendering library keeps the quaternion of an entity scalar
    first, (w, x, y, z); [Rotation.from_quat] reads its argument scalar
    last, (x, y, z, w).  [scalar_last] is the reordering between the
    two. *)
Definition scalar_last (q : quat4) : quat4 :=
  match q with (w, x, y, z) => (x, y, z, w) end.

(** The orientation of an entity: the rotation its quaternion
    denotes. *)
Definition orientation_of (q : quat4) : result Rotation := from_quat (scalar_last q).

(** The rotation that maps the camera's orientation to the target's:
    [rel] with [camera_orientation * rel = target_orientation]. *)
Definition relative_orientation_of (camera_quaternion target_quaternion : quat4)
  : result Rotation :=
  match orientation_of camera_quaternion with
  | Raise e => Raise e
  | Ok rc =>
      match orientation_of target_quaternion with
      | Raise e => Raise e
      | Ok rp => mul (inv rc) rp
      end
  end.

Definition half_turn_x : Rotation := compose_quat (inv (mkRot 1 0 0 0)) (mkRot 0 0 0 1).
Definition half_turn_z : Rotation := compose_quat (inv (mkRot 0 0 0 1)) (mkRot 0 0 1 0).

Lemma from_quat_of_unit x y z w :
  x * x + y * y + z * z + w * w = 1 -> from_quat (x, y, z, w) = Ok (mkRot x y z w).
Proof. intro H. unfold from_quat. now apply normalize_of_unit. Qed.

(** What the code makes of the stored quaternions (1, 0, 0, 0) and
    (0, 0, 0, 1). *)
Lemma relative_rotation_as_read :
  relative_rotation (1, 0, 0, 0) (0, 0, 0, 1) = Ok half_turn_x.
Proof.
  unfold relative_rotation.
  rewrite !from_quat_of_unit by ring.
  apply mul_of_units; unfold norm2, inv; simpl; ring.
Qed.

(** What the two quaternions denote, and the rotation between them. *)
Lemma relative_orientation_as_stored :
  orientation_of (1, 0, 0, 0) = Ok (mkRot 0 0 0 1)
  /\ orientation_of (0, 0, 0, 1) = Ok (mkRot 0 0 1 0)
  /\ relative_orientation_of (1, 0, 0, 0) (0, 0, 0, 1) = Ok half_turn_z
  /\ compose_quat (mkRot 0 0 0 1) half_turn_z = mkRot 0 0 1 0.
Proof.
  assert (Hc : orientation_of (1, 0, 0, 0) = Ok (mkRot 0 0 0 1))
    by (unfold orientation_of, scalar_last; apply from_quat_of_unit; ring).
  assert (Hp : orientation_of (0, 0, 0, 1) = Ok (mkRot 0 0 1 0))
    by (unfold orientation_of, scalar_last; apply from_quat_of_unit; ring).
  split; [exact Hc|]. split; [exact Hp|]. split.
  - unfold relative_orientation_of. rewrite Hc, Hp.
    apply mul_of_units; unfold norm2, inv; simpl; ring.
  - unfold half_turn_z, compose_quat, inv. simpl. f_equal; ring.
Qed.

Lemma half_turn_x_matrix :
  as_matrix half_turn_x = [ [1; 0; 0]; [0; - 1; 0]; [0; 0; - 1] ].
Proof.
  unfold half_turn_x, as_matrix, compose_quat, inv. simpl.
  repeat (f_equal; try ring).
Qed.

Lemma half_turn_z_matrix :
  as_matrix half_turn_z = [ [- 1; 0; 0]; [0; - 1; 0]; [0; 0; 1] ].
Proof.
  unfold half_turn_z, as_matrix, compose_quat, inv. simpl.
  repeat (f_equal; try ring).
Qed.

Lemma atan2_behind : Sample.atan2 0 (- 1) = PI.
Proof.
  unfold Sample.atan2.
  destruct (Rlt_dec 0 (- 1)); [lra|]. destruct (Rlt_dec (- 1) 0); [|lra].
  destruct (Rle_dec 0 0); [|lra].
  replace (0 / - 1) with 0 by field. rewrite atan_0. ring.
Qed.

Lemma rad2deg_PI : rad2deg PI = 180.
Proof. unfold rad2deg. field. apply PI_neq0. Qed.

Lemma rad2deg_0 : rad2deg 0 = 0.
Proof. unfold rad2deg. field. apply PI_neq0. Qed.

Lemma half_turn_x_angles : @as_euler_xyz Sample.euler half_turn_x true = (180, 0, 0).
Proof.
  unfold as_euler_xyz, euler_rad, Sample.euler. rewrite half_turn_x_matrix.
  cbv [entry nth map3].
  replace (- 0) with 0 by ring.
  rewrite atan2_behind, atan2_ahead, asin_0, rad2deg_PI, rad2deg_0. reflexivity.
Qed.

Lemma half_turn_z_angles : @as_euler_xyz Sample.euler half_turn_z true = (0, 0, 180).
Proof.
  unfold as_euler_xyz, euler_rad, Sample.euler. rewrite half_turn_z_matrix.
  cbv [entry nth map3].
  replace (- 0) with 0 by ring.
  rewrite atan2_behind, atan2_ahead, asin_0, rad2deg_PI, rad2deg_0. reflexivity.
Qed.

End QuaternionOrder.

(** C5. The position part holds, the orientation part does not.  For
    a camera whose quaternion is the identity (1, 0, 0, 0) and a
    target turned half a turn about z, (0, 0, 0, 1), both scalar first
    as the rendering library keeps them, [relative_position_xyz] is
    target minus camera, but [relative_orientation_xyz] is
    (180, 0, 0), a half turn about x: [Rotation.from_quat] is handed
    the quaternions as stored and reads them scalar last.  The
    rotation that maps the camera's orientation to the target's is the
    half turn about z, with angles (0, 0, 180); the written rotation
    does not map the one orientation to the other. *)
Theorem C5_relative_orientation_reads_quaternions_scalar_last :
  exists art written intended camera_orientation target_orientation,
    @Warehouse.save_render_data Sample.kubric Sample.renderer Sample.euler
      Sample.getcwd Warehouse.OUTPUT_DIR 0 0 Sample.camera Sample.pallet Sample.fresh
    = Ok (art, Sample.fresh)
    /\ Warehouse.relative_position_xyz (Warehouse.camera_metadata art)
       = (2 - 2.8, 3 - 3, 0.5 - 0.6)%R
    /\ Warehouse.relative_rotation
         (@Warehouse.asset_quaternion Sample.kubric Sample.camera)
         (@Warehouse.asset_quaternion Sample.kubric Sample.pallet) = Ok written
    /\ Warehouse.relative_orientation_xyz (Warehouse.camera_metadata art)
       = @Geometry.as_euler_xyz Sample.euler written true
    /\ Warehouse.relative_orientation_xyz (Warehouse.camera_metadata art)
       = (180, 0, 0)%R
    /\ Geometry.as_matrix written = [ [1; 0; 0]; [0; - 1; 0]; [0; 0; - 1] ]%R
    /\ orientation_of (@Warehouse.asset_quaternion Sample.kubric Sample.camera)
       = Ok camera_orientation
    /\ orientation_of (@Warehouse.asset_quaternion Sample.kubric Sample.pallet)
       = Ok target_orientation
    /\ relative_orientation_of
         (@Warehouse.asset_quaternion Sample.kubric Sample.camera)
         (@Warehouse.asset_quaternion Sample.kubric Sample.pallet) = Ok intended
    /\ Geometry.compose_quat camera_orientation intended = target_orientation
    /\ Geometry.as_matrix intended = [ [- 1; 0; 0]; [0; - 1; 0]; [0; 0; 1] ]%R
    /\ @Geometry.as_euler_xyz Sample.euler intended true = (0, 0, 180)%R
    /\ Geometry.as_matrix (Geometry.compose_quat camera_orientation written)
       <> Geometry.as_matrix target_orientation
    /\ Warehouse.relative_orientation_xyz (Warehouse.camera_metadata art)
       <> @Geometry.as_euler_xyz Sample.euler intended true.
Proof.
  destruct sample_camera_is_documented as [art H].
  destruct relative_orientation_as_stored as (Hc & Hp & Hint & Hmaps).
  exists art, half_turn_x, half_turn_z, (Geometry.mkRot 0 0 0 1), (Geometry.mkRot 0 0 1 0).
  pose proof H as Hdoc.
  apply save_render_data_Ok in Hdoc
    as (rel & rr & rd & Hrel & _ & _ & _ & _ & _ & Hpos & Hor & _ & _).
  change (@Warehouse.asset_quaternion Sample.kubric Sample.camera)
    with ((1, 0, 0, 0)%R : Geometry.quat4) in *.
  change (@Warehouse.asset_quaternion Sample.kubric Sample.pallet)
    with ((0, 0, 0, 1)%R : Geometry.quat4) in *.
  rewrite relative_rotation_as_read in Hrel.
  assert (Hwritten : rel = half_turn_x) by congruence. subst rel. clear Hrel.
  rewrite Hor, half_turn_x_angles, half_turn_z_angles, half_turn_x_matrix,
    half_turn_z_matrix.
  split; [exact H|]. split; [exact Hpos|].
  split; [exact relative_rotation_as_read|].
  split; [reflexivity|]. split; [reflexivity|]. split; [reflexivity|].
  split; [exact Hc|]. split; [exact Hp|]. split; [exact Hint|].
  split; [exact Hmaps|]. split; [reflexivity|]. split; [reflexivity|].
  split.
  - unfold half_turn_x, Geometry.as_matrix, Geometry.compose_quat, Geometry.inv.
    simpl. intro Heq. injection Heq as Heq _. lra.
  - intro Heq. injection Heq as Heq _. lra.
Qed.

Lemma C4_camera_rig_order_and_positions_witness :
  exists cameras st1,
    Warehouse.setup_cameras Sample.rng (2, 3, 0.5)%R 8 [0.8; 1.0]%R Sample.fresh
    = Ok (cameras, st1)
    /\ List.length cameras = 16%nat
    /\ exists cam,
        nth_error cameras 5 = Some cam
        /\ pos_x cam = (2 + 1.0 * cos (Geometry.deg2rad (INR 2 * 360 / INR 8)))%R
        /\ pos_y cam = (3 + 1.0 * sin (Geometry.deg2rad (INR 2 * 360 / INR 8)))%R.
Proof.
  destruct (C4_camera_rig_order_and_positions Sample.rng (2, 3, 0.5)%R 8
              [0.8; 1.0]%R Sample.fresh) as (cameras & st1 & Hrun & Hlen & Hpos).
  exists cameras, st1. split; [exact Hrun|]. split; [exact Hlen|].
  apply (Hpos 2%nat 1%nat); simpl; lia.
Defined.

(* ================================================================== *)
(** * Path strings *)
(* ================================================================== *)

Section PathStrings.

Import PyStr.
Local Open Scope string_scope.

Lemma append_nil_r s : s ++ "" = s.
Proof. induction s; simpl; congruence. Qed.

Lemma append_assoc a b c : (a ++ b) ++ c = a ++ b ++ c.
Proof. induction a; simpl; congruence. Qed.

Lemma append_inj_l a x y : a ++ x = a ++ y -> x = y.
Proof. induction a; simpl; intro H; [assumption | injection H; auto]. Qed.

Lemma length_append a b : String.length (a ++ b) = (String.length a + String.length b)%nat.
Proof. induction a; simpl; congruence. Qed.

Lemma free_of_append c a b :
  free_of c (a ++ b) = andb (free_of c a) (free_of c b).
Proof. induction a; simpl; [reflexivity | rewrite IHa; apply andb_assoc]. Qed.

(** A path segment: not empty and without a slash. *)
Definition is_segment (s : string) : bool :=
  andb (negb (String.eqb s "")) (free_of sep_char s).

(** A segment that [normpath] keeps. *)
Definition is_clean (s : string) : bool :=
  andb (is_segment s) (andb (negb (String.eqb s ".")) (negb (String.eqb s ".."))).

Lemma digits_free d : free_of sep_char (NilEmpty.string_of_uint d) = true.
Proof. induction d; simpl; auto. Qed.

Lemma to_uint_nonnil n : Nat.to_uint n <> Decimal.Nil.
Proof.
  rewrite <- (DecimalNat.Unsigned.of_to n).
  rewrite DecimalNat.Unsigned.to_of. apply DecimalFacts.unorm_nonnil.
Qed.

Lemma str_of_nat_free n : free_of sep_char (str_of_nat n) = true.
Proof. apply digits_free. Qed.

Lemma str_of_nat_nonempty n : str_of_nat n <> "".
Proof.
  unfold str_of_nat. pose proof (to_uint_nonnil n) as H.
  destruct (Nat.to_uint n); try contradiction; discriminate.
Qed.

Lemma segment_spec s : is_segment s = true <-> s <> "" /\ free_of sep_char s = true.
Proof.
  unfold is_segment. rewrite andb_true_iff, negb_true_iff, String.eqb_neq. tauto.
Qed.

(** [endswith] for the one-character suffix ["/"]. *)
Lemma endswith_sep_cons c s :
  s <> "" -> endswith (String c s) sep = endswith s sep.
Proof.
  intro Hs. unfold endswith, sep. simpl String.length.
  destruct s as [|d s]; [contradiction|]. simpl.
  rewrite ?Nat.sub_0_r. reflexivity.
Qed.

Lemma endswith_sep_free s : free_of sep_char s = true -> endswith s sep = false.
Proof.
  induction s as [|c s IH]; intro H; [reflexivity|].
  simpl in H. apply andb_true_iff in H as [Hc Hs].
  destruct s as [|d s].
  - unfold endswith, sep. simpl. apply negb_true_iff in Hc.
    unfold sep_char in Hc. rewrite Hc. reflexivity.
  - rewrite endswith_sep_cons by discriminate. now apply IH.
Qed.

Lemma endswith_sep_append a s :
  s <> "" -> endswith (a ++ s) sep = endswith s sep.
Proof.
  intro Hs. induction a as [|c a IH]; [reflexivity|].
  simpl. rewrite endswith_sep_cons; [exact IH|].
  destruct a; simpl; [assumption | discriminate].
Qed.

Lemma startswith_sep_segment s : is_segment s = true -> startswith s sep = false.
Proof.
  intro H. apply segment_spec in H as [Hne Hfree].
  destruct s as [|c s]; [contradiction|]. simpl in Hfree.
  apply andb_true_iff in Hfree as [Hc _]. apply negb_true_iff in Hc.
  unfold startswith, sep. cbn [String.prefix]. unfold sep_char in Hc.
  destruct (Ascii.ascii_dec "/"%char c) as [<-|Hn].
  - now rewrite Ascii.eqb_refl in Hc.
  - reflexivity.
Qed.

Definition segments (l : list string) : Prop := Forall (fun s => is_segment s = true) l.

Lemma concat_cons2 x y l :
  String.concat sep (x :: y :: l) = x ++ sep ++ String.concat sep (y :: l).
Proof. reflexivity. Qed.

Lemma concat_nonempty l : l <> [] -> segments l -> String.concat sep l <> "".
Proof.
  intros Hl Hs. destruct l as [|x l]; [contradiction|].
  inversion Hs as [|? ? Hx _]; subst. apply segment_spec in Hx as [Hx _].
  destruct l; simpl; destruct x; try contradiction; discriminate.
Qed.

Lemma concat_app l1 l2 :
  l1 <> [] -> l2 <> [] ->
  String.concat sep (l1 ++ l2) = String.concat sep l1 ++ sep ++ String.concat sep l2.
Proof.
  intros H1 H2. induction l1 as [|x l1 IH]; [contradiction|].
  destruct l1 as [|y l1].
  - simpl. destruct l2; [contradiction | reflexivity].
  - change ((x :: y :: l1) ++ l2)%list with (x :: (y :: l1) ++ l2)%list.
    change ((y :: l1) ++ l2)%list with (y :: (l1 ++ l2))%list.
    rewrite !concat_cons2.
    change (y :: (l1 ++ l2))%list with ((y :: l1) ++ l2)%list.
    rewrite IH by discriminate. now rewrite !append_assoc.
Qed.

Lemma endswith_concat l :
  l <> [] -> segments l -> endswith (String.concat sep l) sep = false.
Proof.
  intros Hl Hs. induction l as [|x l IH]; [contradiction|].
  inversion Hs as [|? ? Hx Hrest]; subst.
  destruct l as [|y l].
  - simpl. apply endswith_sep_free. now apply segment_spec in Hx.
  - rewrite concat_cons2, <- append_assoc.
    rewrite endswith_sep_append by (apply concat_nonempty; [discriminate | assumption]).
    apply IH; [discriminate | assumption].
Qed.

Lemma startswith_concat l :
  l <> [] -> segments l -> startswith (String.concat sep l) sep = false.
Proof.
  intros Hl Hs. destruct l as [|x l]; [contradiction|].
  inversion Hs as [|? ? Hx _]; subst.
  pose proof (startswith_sep_segment _ Hx) as Hst.
  apply segment_spec in Hx as [Hne _].
  destruct x as [|c x]; [contradiction|].
  destruct l as [|y l]; [exact Hst|].
  rewrite concat_cons2. revert Hst. unfold startswith, sep.
  cbn [String.append String.prefix].
  destruct (Ascii.ascii_dec "/"%char c); [|reflexivity].
  destruct x; discriminate.
Qed.

(** Joining a segment to a path of segments appends it after a slash. *)
Lemma join2_segments l b :
  l <> [] -> segments l -> is_segment b = true ->
  join2 (String.concat sep l) b = String.concat sep (l ++ [b]).
Proof.
  intros Hl Hs Hb. unfold join2.
  rewrite (startswith_sep_segment _ Hb), (endswith_concat _ Hl Hs).
  destruct (String.eqb_spec (String.concat sep l) "") as [He|_];
    [now apply concat_nonempty in He|].
  simpl orb. now rewrite concat_app by (assumption || discriminate).
Qed.

Lemma join_segments bs : forall l,
    l <> [] -> segments l -> segments bs ->
    join (String.concat sep l) bs = String.concat sep (l ++ bs).
Proof.
  unfold join.
  induction bs as [|b bs IH]; intros l Hl Hs Hbs; simpl.
  - now rewrite app_nil_r.
  - inversion Hbs as [|? ? Hb Hrest]; subst.
    rewrite join2_segments by assumption.
    rewrite IH.
    + now rewrite <- app_assoc.
    + destruct l; discriminate.
    + apply Forall_app. split; [assumption | now constructor].
    + assumption.
Qed.

Lemma split_free s : free_of sep_char s = true -> split sep_char s = [s].
Proof.
  induction s as [|c s IH]; intro H; [reflexivity|].
  simpl in H. apply andb_true_iff in H as [Hc Hs]. apply negb_true_iff in Hc.
  simpl. rewrite Hc, (IH Hs). reflexivity.
Qed.

Lemma split_append a b :
  free_of sep_char a = true ->
  split sep_char (a ++ String sep_char b) = a :: split sep_char b.
Proof.
  induction a as [|c a IH]; intro H.
  - simpl. rewrite ?Ascii.eqb_refl. reflexivity.
  - simpl in H. apply andb_true_iff in H as [Hc Ha]. apply negb_true_iff in Hc.
    simpl. rewrite Hc, (IH Ha). reflexivity.
Qed.

Lemma split_concat l :
  l <> [] -> segments l -> split sep_char (String.concat sep l) = l.
Proof.
  intros Hl Hs. induction l as [|x l IH]; [contradiction|].
  inversion Hs as [|? ? Hx Hrest]; subst. apply segment_spec in Hx as [_ Hx].
  destruct l as [|y l].
  - simpl. now apply split_free.
  - rewrite concat_cons2.
    change (x ++ sep ++ String.concat sep (y :: l))
      with (x ++ String sep_char (String.concat sep (y :: l))).
    rewrite split_append by assumption.
    rewrite IH; [reflexivity | discriminate | assumption].
Qed.

(** The absolute path whose components are [comps]. *)
Definition root_of (comps : list string) : string := sep ++ String.concat sep comps.

Lemma split_root comps :
  segments comps -> split sep_char (root_of comps) = "" :: match comps with
                                                          | [] => [""]
                                                          | _ => comps
                                                          end.
Proof.
  intro Hs. unfold root_of, sep. simpl. f_equal.
  destruct comps as [|x l]; [reflexivity|].
  apply split_concat; [discriminate | assumption].
Qed.

Lemma nonempty_comps_root comps :
  segments comps -> nonempty_comps (root_of comps) = comps.
Proof.
  intro Hs. unfold nonempty_comps. rewrite split_root by assumption.
  simpl. destruct comps as [|x l]; [reflexivity|].
  apply filter_all. eapply Forall_impl; [|exact Hs].
  intros s Hseg. apply segment_spec in Hseg as [Hne _].
  apply negb_true_iff. now apply String.eqb_neq.
Qed.

Definition cleans (l : list string) : Prop := Forall (fun s => is_clean s = true) l.

Lemma cleans_segments l : cleans l -> segments l.
Proof.
  intro H. eapply Forall_impl; [|exact H].
  intros s Hs. unfold is_clean in Hs. now apply andb_true_iff in Hs as [Hs _].
Qed.

Lemma normpath_loop_clean n l : forall acc,
    cleans l -> normpath_loop n l acc = (acc ++ l)%list.
Proof.
  induction l as [|c l IH]; intros acc Hl; simpl.
  - now rewrite app_nil_r.
  - inversion Hl as [|? ? Hc Hrest]; subst.
    unfold is_clean, is_segment in Hc.
    apply andb_true_iff in Hc as [Hseg Hdots].
    apply andb_true_iff in Hseg as [Hne _].
    apply andb_true_iff in Hdots as [Hdot Hdotdot].
    apply negb_true_iff in Hne, Hdot, Hdotdot.
    rewrite Hne, Hdot, Hdotdot. simpl.
    rewrite IH by assumption. now rewrite <- app_assoc.
Qed.

Lemma root_of_cons comps : root_of comps = String sep_char (String.concat sep comps).
Proof. reflexivity. Qed.

Lemma startswith_double s : startswith (String sep_char s) "//" = startswith s sep.
Proof.
  unfold startswith, sep, sep_char. cbn [String.prefix].
  destruct (Ascii.ascii_dec "/"%char "/"%char); [reflexivity | contradiction].
Qed.

Lemma startswith_root s : startswith (String sep_char s) sep = true.
Proof.
  unfold startswith, sep, sep_char. cbn [String.prefix].
  destruct (Ascii.ascii_dec "/"%char "/"%char); [|contradiction].
  destruct s; reflexivity.
Qed.

(** A normalised absolute path is left as it is. *)
Lemma normpath_root l : l <> [] -> cleans l -> normpath (root_of l) = root_of l.
Proof.
  intros Hl Hc. pose proof (cleans_segments _ Hc) as Hs.
  unfold normpath. rewrite split_root by assumption.
  rewrite root_of_cons.
  rewrite startswith_root, startswith_double, (startswith_concat _ Hl Hs).
  cbn [String.eqb andb negb].
  replace (match l with [] => [""] | _ :: _ => l end) with l
    by (destruct l; [contradiction | reflexivity]).
  change (normpath_loop 1 ("" :: l) []) with (normpath_loop 1 l []).
  rewrite normpath_loop_clean by assumption.
  reflexivity.
Qed.

Lemma endswith_root comps :
  segments comps ->
  endswith (root_of comps) sep = match comps with [] => true | _ => false end.
Proof.
  intro Hs. destruct comps as [|x l]; [reflexivity|].
  unfold root_of. rewrite endswith_sep_append.
  - apply endswith_concat; [discriminate | assumption].
  - apply concat_nonempty; [discriminate | assumption].
Qed.

Section Relative.

Variable comps : list string.
Hypothesis comps_clean : cleans comps.

(** [abspath] of a relative path of clean segments, in the working
    directory [root_of comps]. *)
Lemma abspath_relative rel :
  rel <> [] -> cleans rel ->
  abspath (root_of comps) (String.concat sep rel) = root_of (comps ++ rel).
Proof.
  intros Hrel Hc.
  pose proof (cleans_segments _ Hc) as Hs.
  pose proof (cleans_segments _ comps_clean) as Hcs.
  unfold abspath, isabs. rewrite (startswith_concat _ Hrel Hs).
  assert (Hj : join2 (root_of comps) (String.concat sep rel) = root_of (comps ++ rel)).
  { unfold join2. rewrite (startswith_concat _ Hrel Hs), endswith_root by assumption.
    rewrite root_of_cons at 1. cbn [String.eqb orb].
    destruct comps as [|x l]; [reflexivity|].
    unfold root_of. rewrite concat_app by (assumption || discriminate).
    now rewrite append_assoc. }
  rewrite Hj. apply normpath_root.
  - destruct comps; [assumption | discriminate].
  - apply Forall_app. split; assumption.
Qed.

Lemma commonprefix_len_app l a b :
  commonprefix_len (l ++ a) (l ++ b) = (List.length l + commonprefix_len a b)%nat.
Proof.
  induction l as [|x l IH]; simpl; [reflexivity|].
  now rewrite String.eqb_refl, IH.
Qed.

Lemma commonprefix_len_nil_r a : commonprefix_len a [] = 0%nat.
Proof. destruct a; reflexivity. Qed.

(** The path of a file below [base], relative to [base]. *)
Lemma relpath_below base tail :
  base <> [] -> tail <> [] -> cleans base -> cleans tail ->
  relpath (root_of comps) (String.concat sep (base ++ tail)) (String.concat sep base)
  = Ok (String.concat sep tail).
Proof.
  intros Hb Ht Hcb Hct.
  assert (Hbt : cleans (base ++ tail)) by (apply Forall_app; split; assumption).
  unfold relpath.
  destruct (String.eqb_spec (String.concat sep (base ++ tail)) "") as [He|_].
  { apply concat_nonempty in He; [contradiction | | now apply cleans_segments].
    destruct base; [contradiction | discriminate]. }
  rewrite !abspath_relative; try assumption;
    [|destruct base; [contradiction | discriminate]].
  rewrite !nonempty_comps_root
    by (apply cleans_segments, Forall_app; split; assumption).
  rewrite (app_assoc comps base tail).
  assert (Hi : commonprefix_len (comps ++ base) ((comps ++ base) ++ tail)
               = List.length (comps ++ base)).
  { pose proof (commonprefix_len_app (comps ++ base) [] tail) as H.
    rewrite app_nil_r in H. rewrite H. simpl. lia. }
  rewrite Hi, Nat.sub_diag. cbn [repeat List.app].
  rewrite skipn_app, skipn_all, Nat.sub_diag. simpl.
  destruct tail as [|a p]; [contradiction|].
  inversion Hct as [|? ? Ha Hp]; subst.
  change a with (String.concat sep [a]) at 1.
  rewrite join_segments; [reflexivity | discriminate | |].
  - constructor; [|constructor]. unfold is_clean in Ha.
    now apply andb_true_iff in Ha as [Ha _].
  - now apply cleans_segments.
Qed.

End Relative.

End PathStrings.

Section StoredPaths.

Import PyStr Warehouse.
Local Open Scope string_scope.

Definition scene_name (i : nat) : string := "scene_" ++ str_of_nat i.
Definition cam_name (j : nat) : string := "cam_" ++ str_of_nat j.

Lemma scene_name_clean i : is_clean (scene_name i) = true.
Proof.
  unfold is_clean, is_segment, scene_name.
  rewrite free_of_append, str_of_nat_free. reflexivity.
Qed.

Lemma cam_name_clean j : is_clean (cam_name j) = true.
Proof.
  unfold is_clean, is_segment, cam_name.
  rewrite free_of_append, str_of_nat_free. reflexivity.
Qed.

Lemma join2_paths l m :
  l <> [] -> segments l -> m <> [] -> segments m ->
  join2 (String.concat sep l) (String.concat sep m) = String.concat sep (l ++ m).
Proof.
  intros Hl Hsl Hm Hsm. unfold join2.
  rewrite (startswith_concat _ Hm Hsm), (endswith_concat _ Hl Hsl).
  destruct (String.eqb_spec (String.concat sep l) "") as [He|_];
    [now apply concat_nonempty in He|].
  simpl orb. now rewrite concat_app by assumption.
Qed.

Lemma run_segments i j :
  cleans ["output"; scene_name i; cam_name j].
Proof.
  repeat constructor; [apply scene_name_clean | apply cam_name_clean].
Qed.

Lemma tail_cleans i j file :
  is_clean file = true -> cleans [scene_name i; cam_name j; file].
Proof.
  intro Hf. repeat constructor;
    [apply scene_name_clean | apply cam_name_clean | exact Hf].
Qed.

(** Where the images of camera [j] of scene [i] are written. *)
Lemma camera_dir_segments i j :
  camera_dir_of OUTPUT_DIR i j
  = String.concat sep ["output"; scene_name i; cam_name j].
Proof.
  unfold camera_dir_of, scene_dir_of, OUTPUT_DIR.
  fold (scene_name i). fold (cam_name j).
  pose proof (run_segments i j) as H.
  inversion H as [|? ? Ho H1]; subst. inversion H1 as [|? ? Hs H2]; subst.
  change "output" with (String.concat sep ["output"]) at 1.
  rewrite (join_segments [scene_name i] ["output"]);
    [| discriminate | apply cleans_segments; repeat constructor; assumption
     | apply cleans_segments; repeat constructor; assumption].
  rewrite (join_segments [cam_name j] (["output"] ++ [scene_name i]));
    [reflexivity | discriminate
     | apply cleans_segments; repeat constructor; assumption
     | apply cleans_segments; assumption].
Qed.

Lemma written_file i j file :
  is_clean file = true ->
  join (camera_dir_of OUTPUT_DIR i j) [file]
  = String.concat sep (["output"] ++ [scene_name i; cam_name j; file]).
Proof.
  intro Hf. rewrite camera_dir_segments.
  rewrite (join_segments [file] ["output"; scene_name i; cam_name j]);
    [reflexivity | discriminate | apply cleans_segments, run_segments
     | apply cleans_segments; repeat constructor; exact Hf].
Qed.

(** What [os.path.relpath] makes of it, in a working directory whose
    components are [comps]. *)
Lemma stored_path comps i j file :
  cleans comps -> is_clean file = true ->
  relpath (root_of comps) (join (camera_dir_of OUTPUT_DIR i j) [file]) OUTPUT_DIR
  = Ok (String.concat sep [scene_name i; cam_name j; file]).
Proof.
  intros Hc Hf. rewrite written_file by assumption.
  change OUTPUT_DIR with (String.concat sep ["output"]).
  apply relpath_below; try assumption; try discriminate.
  - repeat constructor.
  - now apply tail_cleans.
Qed.

(** What the converter joins for a stored path of that form. *)
Lemma converter_path i j file :
  is_clean file = true ->
  Hdf5Convert.image_path
    (Hdf5Convert.scene_path_of Hdf5Convert.data_root (scene_name i)) (cam_name j)
    (String.concat sep [scene_name i; cam_name j; file])
  = String.concat sep
      (["output"; scene_name i; cam_name j] ++ [scene_name i; cam_name j; file]).
Proof.
  intro Hf.
  unfold Hdf5Convert.image_path, Hdf5Convert.scene_path_of, Hdf5Convert.data_root.
  pose proof (run_segments i j) as H.
  inversion H as [|? ? Ho H1]; subst. inversion H1 as [|? ? Hs H2]; subst.
  change "output" with (String.concat sep ["output"]) at 1.
  rewrite (join_segments [scene_name i] ["output"]);
    [| discriminate | apply cleans_segments; repeat constructor; assumption
     | apply cleans_segments; repeat constructor; assumption].
  unfold join. cbn [fold_left List.app].
  rewrite (join2_segments ["output"; scene_name i] (cam_name j));
    [| discriminate | apply cleans_segments; repeat constructor; assumption |].
  - cbn [List.app].
    apply join2_paths; try discriminate.
    + apply cleans_segments, run_segments.
    + now apply cleans_segments, tail_cleans.
  - pose proof (cam_name_clean j) as Hc. unfold is_clean in Hc.
    now apply andb_true_iff in Hc as [Hc _].
Qed.

(** The two strings differ. *)
Lemma converter_misses_file i j file :
  String.concat sep
    (["output"; scene_name i; cam_name j] ++ [scene_name i; cam_name j; file])
  <> String.concat sep (["output"] ++ [scene_name i; cam_name j; file]).
Proof.
  intro H. cbn [List.app String.concat] in H.
  do 6 apply append_inj_l in H.
  apply (f_equal String.length) in H. rewrite !length_append in H.
  simpl in H. lia.
Qed.

End StoredPaths.

Lemma Ok_inj {A} (a b : A) : Ok a = Ok b -> a = b.
Proof. intro H. now injection H. Qed.

(** C6. For every scene index [i] and camera index [j], in a working
    directory of clean components, the [rgba_path] and [depth_path] of
    the camera document are [scene_i/cam_j/rgba.png] and
    [scene_i/cam_j/depth.tiff], relative to the output root; the
    converter joins them under [output/scene_i/cam_j], and the string
    it obtains differs from the one the image was written at. *)
Theorem C6_stored_image_paths_do_not_resolve :
  forall (kubric : Warehouse.KubricLib) (renderer : Warehouse.Renderer)
         (euler : Geometry.EulerExtraction) (comps : list string) (i j : nat)
         (camera pallet : Warehouse.asset) (st st1 : Warehouse.state)
         (art : Warehouse.CameraArtifacts),
    forallb is_clean comps = true ->
    Warehouse.save_render_data (root_of comps) Warehouse.OUTPUT_DIR i j camera pallet st
    = Ok (art, st1) ->
    let doc := Warehouse.camera_metadata art in
    let scene_path :=
      Hdf5Convert.scene_path_of Hdf5Convert.data_root (scene_name i) in
    Warehouse.rgba_path doc
    = (scene_name i ++ "/" ++ cam_name j ++ "/" ++ "rgba.png")%string
    /\ Warehouse.depth_path doc
       = (scene_name i ++ "/" ++ cam_name j ++ "/" ++ "depth.tiff")%string
    /\ Warehouse.rgba_file art
       = ("output" ++ "/" ++ scene_name i ++ "/" ++ cam_name j ++ "/" ++ "rgba.png")%string
    /\ Warehouse.depth_file art
       = ("output" ++ "/" ++ scene_name i ++ "/" ++ cam_name j ++ "/" ++ "depth.tiff")%string
    /\ Hdf5Convert.image_path scene_path (cam_name j) (Warehouse.rgba_path doc)
       <> Warehouse.rgba_file art
    /\ Hdf5Convert.image_path scene_path (cam_name j) (Warehouse.depth_path doc)
       <> Warehouse.depth_file art.
Proof.
  intros kubric renderer euler comps i j camera pallet st st1 art Hcomps H doc scene_path.
  assert (Hc : cleans comps) by (apply Forall_forall; now apply forallb_forall).
  apply save_render_data_Ok in H
    as (rel & rr & rd & _ & Hrr & Hrd & Hrf & Hdf & _ & _ & _ & Hrp & Hdp).
  rewrite stored_path in Hrr, Hrd by (assumption || reflexivity).
  apply Ok_inj in Hrr, Hrd. subst rr rd.
  subst doc scene_path. rewrite Hrp, Hdp, Hrf, Hdf.
  rewrite !written_file, !converter_path by reflexivity.
  repeat split; try reflexivity; apply converter_misses_file.
Qed.

Lemma C6_stored_image_paths_do_not_resolve_witness :
  exists art,
    @Warehouse.save_render_data Sample.kubric Sample.renderer Sample.euler
      Sample.getcwd Warehouse.OUTPUT_DIR 0 0 Sample.camera Sample.pallet Sample.fresh
    = Ok (art, Sample.fresh)
    /\ Warehouse.rgba_path (Warehouse.camera_metadata art)
       = "scene_0/cam_0/rgba.png"%string
    /\ Warehouse.rgba_file art = "output/scene_0/cam_0/rgba.png"%string
    /\ Hdf5Convert.image_path "output/scene_0" "cam_0"
         (Warehouse.rgba_path (Warehouse.camera_metadata art))
       <> Warehouse.rgba_file art.
Proof.
  destruct sample_camera_is_documented as [art H].
  exists art. split; [exact H|].
  destruct (C6_stored_image_paths_do_not_resolve Sample.kubric Sample.renderer
              Sample.euler ["home"; "user"; "Kubric-Pallets"]%string 0 0
              Sample.camera Sample.pallet Sample.fresh Sample.fresh art
              eq_refl H) as (Hr & _ & Hf & _ & Hne & _).
  repeat split; assumption.
Defined.

(* ================================================================== *)
(** * Properties of texture discovery *)
(* ================================================================== *)

Section TextureStrings.

Import PyStr WarehouseUtils.
Local Open Scope string_scope.

Lemma lower_append a b : lower (a ++ b) = lower a ++ lower b.
Proof. induction a; simpl; congruence. Qed.

Lemma prefix_nil s : String.prefix "" s = true.
Proof. destruct s; reflexivity. Qed.

(** A word without a slash cannot run across a slash. *)
Lemma prefix_across_sep w : forall a b,
    free_of sep_char w = true -> w <> "" ->
    String.prefix w (a ++ String sep_char b) = String.prefix w a.
Proof.
  induction w as [|d w IH]; intros a b Hfree Hne; [contradiction|].
  simpl in Hfree. apply andb_true_iff in Hfree as [Hd Hw].
  apply negb_true_iff in Hd.
  destruct a as [|c a]; cbn [String.append String.prefix].
  - destruct (Ascii.ascii_dec d sep_char) as [->|_]; [|reflexivity].
    now rewrite Ascii.eqb_refl in Hd.
  - destruct (Ascii.ascii_dec d c); [|reflexivity].
    destruct w as [|d2 w]; [now rewrite !prefix_nil|].
    apply IH; [assumption | discriminate].
Qed.

Lemma contains_nil w : w <> "" -> contains w "" = false.
Proof. destruct w; [contradiction | reflexivity]. Qed.

Lemma contains_across_sep w : forall a b,
    free_of sep_char w = true -> w <> "" ->
    contains w (a ++ String sep_char b) = orb (contains w a) (contains w b).
Proof.
  intros a b Hfree Hne. induction a as [|c a IH].
  - cbn [String.append]. rewrite contains_nil by assumption.
    cbn [contains orb].
    pose proof (prefix_across_sep w "" b Hfree Hne) as Hp. cbn [String.append] in Hp.
    rewrite Hp. destruct w; [contradiction | reflexivity].
  - cbn [String.append contains].
    pose proof (prefix_across_sep w (String c a) b Hfree Hne) as Hp.
    cbn [String.append] in Hp. rewrite Hp, IH. now rewrite orb_assoc.
Qed.

Lemma split_nonempty c s : split c s <> [].
Proof.
  induction s as [|d s IH]; simpl; [discriminate|].
  destruct (Ascii.eqb d c); [discriminate|].
  destruct (split c s); discriminate.
Qed.

(** [(a + sep + b).split(sep)] is [a.split(sep) + b.split(sep)]. *)
Lemma split_app_sep c a b :
  split c (a ++ String c b) = (split c a ++ split c b)%list.
Proof.
  induction a as [|d a IH]; cbn [String.append split].
  - now rewrite Ascii.eqb_refl.
  - destruct (Ascii.eqb d c); [now rewrite IH|].
    rewrite IH. pose proof (split_nonempty c a) as Hne.
    destruct (split c a); [contradiction | reflexivity].
Qed.

Lemma last_app_nonempty {A} (l1 l2 : list A) d :
  l2 <> [] -> last (l1 ++ l2) d = last l2 d.
Proof.
  intro H. induction l1 as [|x l1 IH]; [reflexivity|].
  simpl. rewrite IH. destruct (l1 ++ l2)%list eqn:E; [|reflexivity].
  apply app_eq_nil in E as [_ E]. contradiction.
Qed.

Lemma basename_below d file :
  free_of sep_char file = true -> basename (d ++ String sep_char file) = file.
Proof.
  intro H. unfold basename. rewrite split_app_sep.
  rewrite last_app_nonempty by apply split_nonempty.
  now rewrite split_free.
Qed.

Lemma basename_free file : free_of sep_char file = true -> basename file = file.
Proof. intro H. unfold basename. now rewrite split_free. Qed.

Lemma endswith_sep_inv s : endswith s sep = true -> exists d, s = d ++ sep.
Proof.
  induction s as [|c s IH]; intro H; [discriminate|].
  destruct s as [|e s].
  - unfold endswith, sep in H. simpl in H.
    destruct (Ascii.eqb_spec c "/"%char) as [->|Hn]; [now exists "" | discriminate].
  - rewrite endswith_sep_cons in H by discriminate.
    destruct (IH H) as [d Hd]. exists (String c d). simpl. now rewrite Hd.
Qed.

(** The two shapes of [os.path.join(root, file)] for a plain file name. *)
Lemma join_file_form root file :
  startswith file sep = false ->
  (root = "" /\ join root [file] = file)
  \/ exists d, join root [file] = d ++ String sep_char file
               /\ (root = d \/ root = d ++ sep).
Proof.
  intro Hf. unfold join. cbn [fold_left]. unfold join2. rewrite Hf.
  destruct (String.eqb_spec root "") as [->|Hne]; [left; auto|].
  right. destruct (endswith root sep) eqn:He; simpl orb; cbv iota.
  - apply endswith_sep_inv in He as [d ->]. exists d.
    split; [now rewrite append_assoc | now right].
  - exists root. split; [reflexivity | now left].
Qed.

End TextureStrings.

Section TextureExample.

Import PyStr WarehouseUtils.
Local Open Scope string_scope.

Definition role_words : list string := ["color"; "albedo"; "normal"; "roughness"].

(** The directory path holds none of the role words, in any case. *)
Definition no_role_word (root : string) : bool :=
  forallb (fun w => negb (contains w (lower root))) role_words.

Variable root : string.
Hypothesis root_plain : no_role_word root = true.

Lemma role_word_shape w :
  In w role_words -> free_of sep_char w = true /\ w <> "".
Proof.
  intros [<-|[<-|[<-|[<-|[]]]]]; split; try reflexivity; discriminate.
Qed.

Lemma root_has_no w : In w role_words -> contains w (lower root) = false.
Proof.
  intro Hw. unfold no_role_word in root_plain.
  rewrite forallb_forall in root_plain. apply negb_true_iff. now apply root_plain.
Qed.

Lemma contains_join w file :
  In w role_words -> is_segment file = true ->
  contains w (lower (join root [file])) = contains w (lower file).
Proof.
  intros Hw Hf. destruct (role_word_shape w Hw) as [Hfree Hne].
  pose proof (root_has_no w Hw) as Hroot.
  destruct (join_file_form root file (startswith_sep_segment _ Hf))
    as [[_ ->]|(d & -> & Hd)]; [reflexivity|].
  rewrite lower_append. change (lower (String sep_char file))
    with (String sep_char (lower file)).
  rewrite contains_across_sep by assumption.
  replace (contains w (lower d)) with false; [reflexivity|].
  destruct Hd as [->| ->]; [now rewrite Hroot|].
  rewrite lower_append in Hroot.
  change (lower sep) with (String sep_char "") in Hroot.
  rewrite contains_across_sep in Hroot by assumption.
  apply orb_false_iff in Hroot as [Hroot _]. now rewrite Hroot.
Qed.

Lemma search_join words file :
  In words (map snd patterns) -> is_segment file = true ->
  search words (join root [file]) = search words file.
Proof.
  intros Hw Hf. unfold search.
  assert (Hall : forall w, In w words -> In w role_words).
  { simpl in Hw. destruct Hw as [<-|[<-|[<-|[]]]]; simpl; intuition. }
  clear Hw. induction words as [|w words IH]; [reflexivity|].
  cbn [existsb]. rewrite contains_join by (auto; apply Hall; now left).
  rewrite IH; [reflexivity|]. intros w' Hw'. apply Hall. now right.
Qed.

Lemma base_name_join file :
  is_segment file = true -> base_name_of (join root [file]) = base_name_of file.
Proof.
  intro Hf. unfold base_name_of.
  pose proof Hf as Hseg. apply segment_spec in Hseg as [_ Hfree].
  destruct (join_file_form root file (startswith_sep_segment _ Hf))
    as [[_ ->]|(d & -> & _)]; [reflexivity|].
  now rewrite basename_below, basename_free.
Qed.

(** One round of the outer loop, for a plain file of the directory. *)
Lemma classify_join g file :
  is_segment file = true ->
  classify g (join root [file])
  = fold_left
      (fun g kp => if search (snd kp) file
                   then assign g (base_name_of file) (fst kp) (join root [file])
                   else g)
      patterns g.
Proof.
  intro Hf. unfold classify, patterns. cbn [fold_left fst snd].
  rewrite !search_join by (assumption || (simpl; auto)).
  rewrite !base_name_join by assumption. reflexivity.
Qed.

Definition pallet_color : string := "pallet01_color.jpg".
Definition pallet_normal : string := "pallet01_normal.jpg".
Definition rack_roughness : string := "rack02_roughness.png".

Definition pallet_set : texture_set :=
  mkTextureSet (Some (join root [pallet_color])) (Some (join root [pallet_normal])) None.
Definition rack_set : texture_set :=
  mkTextureSet None None (Some (join root [rack_roughness])).

(** The six orders in which the directory can list the three files. *)
Definition listings : list (list string) :=
  [ [pallet_color; pallet_normal; rack_roughness];
    [pallet_color; rack_roughness; pallet_normal];
    [pallet_normal; pallet_color; rack_roughness];
    [pallet_normal; rack_roughness; pallet_color];
    [rack_roughness; pallet_color; pallet_normal];
    [rack_roughness; pallet_normal; pallet_color] ].

Lemma listings_are_textures files :
  In files listings -> filter is_texture_file files = files.
Proof.
  simpl. intros [<-|[<-|[<-|[<-|[<-|[<-|[]]]]]]]; reflexivity.
Qed.

Lemma discover_three_files files :
  In files listings ->
  discover_textures (single_directory root files) root
  = if startswith (hd "" files) "rack" then [rack_set; pallet_set]
    else [pallet_set; rack_set].
Proof.
  intro Hin. unfold discover_textures, texture_files, single_directory.
  cbn [fs_exists fs_walk]. rewrite String.eqb_refl. cbn [negb flat_map].
  rewrite app_nil_r, listings_are_textures by assumption.
  simpl in Hin.
  destruct Hin as [<-|[<-|[<-|[<-|[<-|[<-|[]]]]]]];
    cbn [map hd];
    unfold group_textures; cbn [fold_left];
    rewrite !classify_join by reflexivity;
    reflexivity.
Qed.

Lemma three_files_distinct : NoDup [pallet_color; pallet_normal; rack_roughness].
Proof.
  repeat constructor; simpl; intuition discriminate.
Qed.

(** Every order of the three files is one of the six listings. *)
Lemma permutation_is_listing files :
  Permutation files [pallet_color; pallet_normal; rack_roughness] ->
  In files listings.
Proof.
  intro Hp.
  pose proof (Permutation_length Hp) as Hlen.
  pose proof (Permutation_NoDup (Permutation_sym Hp) three_files_distinct) as Hnd.
  destruct files as [|x [|y [|z [|? ?]]]]; try discriminate.
  assert (Hx : In x [pallet_color; pallet_normal; rack_roughness])
    by (apply (Permutation_in _ Hp); simpl; auto).
  assert (Hy : In y [pallet_color; pallet_normal; rack_roughness])
    by (apply (Permutation_in _ Hp); simpl; auto).
  assert (Hz : In z [pallet_color; pallet_normal; rack_roughness])
    by (apply (Permutation_in _ Hp); simpl; auto).
  inversion Hnd as [|? ? Hx' Hnd1]; subst.
  inversion Hnd1 as [|? ? Hy' _]; subst.
  simpl in Hx, Hy, Hz, Hx', Hy'.
  destruct Hx as [<-|[<-|[<-|[]]]];
    destruct Hy as [<-|[<-|[<-|[]]]];
    destruct Hz as [<-|[<-|[<-|[]]]];
    first [ solve [simpl; repeat (first [left; reflexivity | right])]
          | exfalso; tauto ].
Qed.

Lemma discover_three_files_permutation files :
  Permutation files [pallet_color; pallet_normal; rack_roughness] ->
  Permutation (discover_textures (single_directory root files) root)
              [pallet_set; rack_set].
Proof.
  intro Hp. rewrite discover_three_files by now apply permutation_is_listing.
  destruct (startswith (hd "" files) "rack"); [apply perm_swap | apply Permutation_refl].
Qed.

End TextureExample.

Section Grouping.

Import PyStr WarehouseUtils.
Local Open Scope string_scope.

(** The words of the pattern registered for a role. *)
Definition words_of (r : role) : list string :=
  match r with
  | Color => ["color"; "albedo"]
  | Normal => ["normal"]
  | Roughness => ["roughness"]
  end.

Lemma get_set_role v r f r' :
  get_role (set_role v r f) r' = if role_eqb r' r then Some f else get_role v r'.
Proof. destruct r, r'; reflexivity. Qed.

Lemma lookup_assign_same g b r f :
  lookup b (assign g b r f)
  = Some (set_role (match lookup b g with Some v => v | None => empty_set end) r f).
Proof.
  induction g as [|[k v] g IH]; simpl.
  - now rewrite String.eqb_refl.
  - destruct (String.eqb b k) eqn:E; simpl; rewrite E; [reflexivity | exact IH].
Qed.

Lemma lookup_assign_other g b r f k :
  k <> b -> lookup k (assign g b r f) = lookup k g.
Proof.
  intro Hk. induction g as [|[k' v] g IH]; simpl.
  - apply String.eqb_neq in Hk. now rewrite Hk.
  - destruct (String.eqb b k') eqn:E; simpl.
    + apply String.eqb_eq in E. subst k'.
      apply String.eqb_neq in Hk. now rewrite Hk.
    + now rewrite IH.
Qed.

Lemma assign_entry g b r f k t :
  In (k, t) (assign g b r f) ->
  In (k, t) g
  \/ (k = b /\ exists v, t = set_role v r f /\ (In (k, v) g \/ v = empty_set)).
Proof.
  induction g as [|[k' v] g IH]; simpl.
  - intros [H|[]]. injection H as <- <-. right. split; [reflexivity|].
    exists empty_set. auto.
  - destruct (String.eqb b k') eqn:E; simpl.
    + apply String.eqb_eq in E. subst k'.
      intros [H|H]; [|auto]. injection H as <- <-. right. split; [reflexivity|].
      exists v. auto.
    + intros [H|H]; [auto|]. apply IH in H as [H|(Hk & v' & Ht & Hv)]; [auto|].
      right. split; [assumption|]. exists v'. split; [assumption|].
      destruct Hv; auto.
Qed.

Lemma assign_keys g b r f k :
  In k (map fst (assign g b r f)) -> In k (map fst g) \/ k = b.
Proof.
  induction g as [|[k' v] g IH]; simpl.
  - intros [H|[]]; auto.
  - destruct (String.eqb b k'); simpl; intros [H|H]; auto.
    apply IH in H as [H|H]; auto.
Qed.

Lemma assign_keys_distinct g b r f :
  NoDup (map fst g) -> NoDup (map fst (assign g b r f)).
Proof.
  induction g as [|[k' v] g IH]; simpl; intro H.
  - repeat constructor. intros [].
  - inversion H as [|? ? Hnotin Hrest]; subst.
    destruct (String.eqb b k') eqn:E; simpl; [constructor; assumption|].
    constructor; [|now apply IH].
    intro Hin. apply assign_keys in Hin as [Hin| ->]; [contradiction|].
    now rewrite String.eqb_refl in E.
Qed.

(** Every slot of every group holds a file that was listed, that has
    the group's key as base name and that matches the slot's pattern. *)
Definition sound (files : list string) (g : grouped) : Prop :=
  forall k t r f,
    In (k, t) g -> get_role t r = Some f ->
    In f files /\ base_name_of f = k /\ search (words_of r) f = true.

(** Every listed file that matches a pattern has its group, with that
    pattern's slot filled. *)
Definition covered (g : grouped) (f : string) (r : role) : Prop :=
  exists t f', lookup (base_name_of f) g = Some t /\ get_role t r = Some f'.

Lemma sound_assign files g r file :
  sound files g -> In file files -> search (words_of r) file = true ->
  sound files (assign g (base_name_of file) r file).
Proof.
  intros Hs Hin Hm k t r' f Hkt Hget.
  apply assign_entry in Hkt as [Hkt|(-> & v & -> & Hv)]; [now apply (Hs k t)|].
  rewrite get_set_role in Hget. destruct (role_eqb r' r) eqn:E.
  - injection Hget as <-. destruct r, r'; try discriminate; auto.
  - destruct Hv as [Hv| ->]; [now apply (Hs _ v)|]. destruct r'; discriminate.
Qed.

Lemma sound_more files file g : sound files g -> sound (files ++ [file]) g.
Proof.
  intros Hs k t r f Hkt Hget. destruct (Hs k t r f Hkt Hget) as (Hin & Hrest).
  split; [apply in_or_app; now left | exact Hrest].
Qed.

Lemma covered_assign g f r b r' f2 :
  covered g f r -> covered (assign g b r' f2) f r.
Proof.
  intros (t & f' & Hl & Hg). unfold covered.
  destruct (String.eqb_spec (base_name_of f) b) as [<-|Hne].
  - rewrite lookup_assign_same, Hl.
    exists (set_role t r' f2). destruct (role_eqb r r') eqn:E.
    + exists f2. split; [reflexivity|]. now rewrite get_set_role, E.
    + exists f'. split; [reflexivity|]. now rewrite get_set_role, E.
  - rewrite lookup_assign_other by assumption. eauto.
Qed.

Lemma covered_new g f r : covered (assign g (base_name_of f) r f) f r.
Proof.
  unfold covered. rewrite lookup_assign_same. eexists. eexists.
  split; [reflexivity|]. rewrite get_set_role. destruct r; reflexivity.
Qed.

(** One round of the outer loop keeps all of it. *)
Lemma classify_invariant files g file :
  sound files g -> NoDup (map fst g) ->
  sound (files ++ [file]) (classify g file)
  /\ NoDup (map fst (classify g file))
  /\ (forall f r, covered g f r -> covered (classify g file) f r)
  /\ (forall r, search (words_of r) file = true -> covered (classify g file) file r).
Proof.
  intros Hs Hk. apply (sound_more files file) in Hs.
  assert (Hin : In file (files ++ [file])) by (apply in_or_app; right; now left).
  unfold classify, patterns. cbn [fold_left fst snd].
  change ["color"; "albedo"] with (words_of Color).
  change ["normal"] with (words_of Normal).
  change ["roughness"] with (words_of Roughness).
  destruct (search (words_of Color) file) eqn:Ec;
    destruct (search (words_of Normal) file) eqn:En;
    destruct (search (words_of Roughness) file) eqn:Er;
    (split; [repeat apply sound_assign; assumption|]);
    (split; [repeat apply assign_keys_distinct; assumption|]);
    (split; [intros f r Hc; repeat apply covered_assign; exact Hc|]);
    intros [] Hm; try congruence;
    repeat first [ apply covered_new | apply covered_assign ].
Qed.

Lemma group_invariant files : forall seen g,
    sound seen g -> NoDup (map fst g) ->
    sound (seen ++ files) (fold_left classify files g)
    /\ NoDup (map fst (fold_left classify files g))
    /\ (forall f r, covered g f r -> covered (fold_left classify files g) f r)
    /\ (forall f r, In f files -> search (words_of r) f = true ->
                    covered (fold_left classify files g) f r).
Proof.
  induction files as [|file files IH]; intros seen g Hs Hk; simpl.
  - rewrite app_nil_r.
    split; [assumption|]. split; [assumption|]. split; [auto|]. intros ? ? [].
  - destruct (classify_invariant seen g file Hs Hk) as (Hs1 & Hk1 & Hkeep & Hnew).
    destruct (IH (seen ++ [file])%list (classify g file) Hs1 Hk1)
      as (Hs2 & Hk2 & Hkeep2 & Hnew2).
    rewrite <- app_assoc in Hs2. simpl in Hs2.
    split; [assumption|]. split; [assumption|]. split; [auto|].
    intros f r [<-|Hin] Hm; [apply Hkeep2, Hnew; assumption | now apply Hnew2].
Qed.

(** Files are grouped by the part of the file name before the first
    underscore. *)
Lemma grouping_by_base_name files :
  sound files (group_textures files)
  /\ NoDup (map fst (group_textures files))
  /\ (forall f r, In f files -> search (words_of r) f = true ->
                  covered (group_textures files) f r).
Proof.
  unfold group_textures.
  destruct (group_invariant files [] []) as (Hs & Hk & _ & Hc).
  - intros k t r f [].
  - constructor.
  - simpl in Hs. auto.
Qed.

End Grouping.

(** C8, as stated, fails for a directory whose own path holds a role
    word: the patterns are searched in the joined path, so below
    [assets/normal] the roughness map of [rack02] also fills the normal
    slot of its set. *)
Lemma C8_role_word_in_directory_path :
  let files := [pallet_color; pallet_normal; rack_roughness] in
  let found :=
    WarehouseUtils.discover_textures
      (WarehouseUtils.single_directory "assets/normal" files) "assets/normal" in
  found
  = [ WarehouseUtils.mkTextureSet
        (Some "assets/normal/pallet01_color.jpg"%string)
        (Some "assets/normal/pallet01_normal.jpg"%string) None;
      WarehouseUtils.mkTextureSet None
        (Some "assets/normal/rack02_roughness.png"%string)
        (Some "assets/normal/rack02_roughness.png"%string) ]
  /\ ~ Permutation found [pallet_set "assets/normal"; rack_set "assets/normal"].
Proof.
  cbv zeta. split; [vm_compute; reflexivity|].
  replace (WarehouseUtils.discover_textures _ _)
    with [ WarehouseUtils.mkTextureSet
             (Some "assets/normal/pallet01_color.jpg"%string)
             (Some "assets/normal/pallet01_normal.jpg"%string) None;
           WarehouseUtils.mkTextureSet None
             (Some "assets/normal/rack02_roughness.png"%string)
             (Some "assets/normal/rack02_roughness.png"%string) ]
    by (vm_compute; reflexivity).
  intro Hp.
  assert (Hin : In (rack_set "assets/normal")
                   [ WarehouseUtils.mkTextureSet
                       (Some "assets/normal/pallet01_color.jpg"%string)
                       (Some "assets/normal/pallet01_normal.jpg"%string) None;
                     WarehouseUtils.mkTextureSet None
                       (Some "assets/normal/rack02_roughness.png"%string)
                       (Some "assets/normal/rack02_roughness.png"%string) ]).
  { apply (Permutation_in _ (Permutation_sym Hp)). simpl. auto. }
  destruct Hin as [H|[H|[]]]; vm_compute in H; discriminate.
Qed.

(** C8, amended. For a directory whose path holds none of the role
    words (color, albedo, normal, roughness, in any case) and that
    lists exactly the three files, in whatever order,
    [discover_textures] returns exactly two texture sets: one with the
    color and normal maps of [pallet01] and no roughness, one with the
    roughness map of [rack02] and nothing else, each slot holding the
    joined path of the file.  In general every matched file goes to the
    group keyed by the part of its file name before the first
    underscore: the keys are distinct, every slot holds a listed file
    of that key that matches the slot's pattern, and every listed file
    that matches a pattern has the slot of its group filled. *)
Theorem C8_discover_textures_groups_by_base_name :
  forall root : string,
    no_role_word root = true ->
    (forall files,
        Permutation files [pallet_color; pallet_normal; rack_roughness] ->
        Permutation
          (WarehouseUtils.discover_textures
             (WarehouseUtils.single_directory root files) root)
          [pallet_set root; rack_set root])
    /\ (forall files,
           sound files (WarehouseUtils.group_textures files)
           /\ NoDup (map fst (WarehouseUtils.group_textures files))
           /\ forall f r,
               In f files ->
               WarehouseUtils.search (words_of r) f = true ->
               covered (WarehouseUtils.group_textures files) f r).
Proof.
  intros root Hroot. split.
  - intros files Hp. now apply discover_three_files_permutation.
  - apply grouping_by_base_name.
Qed.

Lemma C8_discover_textures_groups_by_base_name_witness :
  Permutation
    (WarehouseUtils.discover_textures
       (WarehouseUtils.single_directory "assets/wood"
          [rack_roughness; pallet_color; pallet_normal]) "assets/wood")
    [ WarehouseUtils.mkTextureSet
        (Some "assets/wood/pallet01_color.jpg"%string)
        (Some "assets/wood/pallet01_normal.jpg"%string) None;
      WarehouseUtils.mkTextureSet None None
        (Some "assets/wood/rack02_roughness.png"%string) ].
Proof.
  apply (proj1 (C8_discover_textures_groups_by_base_name "assets/wood" eq_refl)).
  eapply perm_trans; [apply perm_swap | apply perm_skip, perm_swap].
Defined.

(* ================================================================== *)
(** * Further properties of the transformation matrix *)
(* ================================================================== *)

Section EulerConvention.

Import Geometry Hdf5Convert.
Local Open Scope R_scope.

(** The elementary rotation matrices about the three axes. *)
Definition Rx (a : R) : matrix :=
  [ [1; 0; 0]; [0; cos a; - sin a]; [0; sin a; cos a] ].
Definition Ry (b : R) : matrix :=
  [ [cos b; 0; sin b]; [0; 1; 0]; [- sin b; 0; cos b] ].
Definition Rz (c : R) : matrix :=
  [ [cos c; - sin c; 0]; [sin c; cos c; 0]; [0; 0; 1] ].

Lemma as_matrix_compose_quat p q :
  as_matrix (compose_quat p q) = matmul3 (as_matrix p) (as_matrix q).
Proof.
  destruct p as [a b c d], q as [x y z w].
  cbv [matmul3 as_matrix compose_quat entry nth map seq qx qy qz qw].
  repeat (f_equal; try ring).
Qed.

Lemma half_angle_cos a : cos (a / 2) * cos (a / 2) - sin (a / 2) * sin (a / 2) = cos a.
Proof.
  rewrite <- cos_2a. f_equal. field.
Qed.

Lemma half_angle_sin a : 2 * (sin (a / 2) * cos (a / 2)) = sin a.
Proof.
  replace (2 * (sin (a / 2) * cos (a / 2))) with (2 * sin (a / 2) * cos (a / 2)) by ring.
  rewrite <- sin_2a. f_equal. field.
Qed.

Lemma half_angle_one a : sin (a / 2) * sin (a / 2) + cos (a / 2) * cos (a / 2) = 1.
Proof. pose proof (sin2_cos2 (a / 2)) as H. unfold Rsqr in H. exact H. Qed.

Lemma as_matrix_elementary_x a : as_matrix (make_elementary_quat AxX a) = Rx a.
Proof.
  pose proof (half_angle_cos a) as Hc. pose proof (half_angle_sin a) as Hs.
  pose proof (half_angle_one a) as H1.
  cbv [as_matrix make_elementary_quat qx qy qz qw Rx].
  repeat (f_equal; try lra).
Qed.

Lemma as_matrix_elementary_y a : as_matrix (make_elementary_quat AxY a) = Ry a.
Proof.
  pose proof (half_angle_cos a) as Hc. pose proof (half_angle_sin a) as Hs.
  pose proof (half_angle_one a) as H1.
  cbv [as_matrix make_elementary_quat qx qy qz qw Ry].
  repeat (f_equal; try lra).
Qed.

Lemma as_matrix_elementary_z a : as_matrix (make_elementary_quat AxZ a) = Rz a.
Proof.
  pose proof (half_angle_cos a) as Hc. pose proof (half_angle_sin a) as Hs.
  pose proof (half_angle_one a) as H1.
  cbv [as_matrix make_elementary_quat qx qy qz qw Rz].
  repeat (f_equal; try lra).
Qed.

Lemma from_euler_matrix a b c degrees :
  as_matrix (from_euler_xyz (a, b, c) degrees)
  = let f := fun x => if degrees then deg2rad x else x in
    matmul3 (Rz (f c)) (matmul3 (Ry (f b)) (Rx (f a))).
Proof.
  unfold from_euler_xyz. destruct degrees; cbv [map3]; cbv beta iota zeta;
    rewrite !as_matrix_compose_quat, as_matrix_elementary_x,
      as_matrix_elementary_y, as_matrix_elementary_z; reflexivity.
Qed.

Lemma deg2rad_turns a k : deg2rad (a + 360 * INR k) = a * (PI / 180) + 2 * INR k * PI.
Proof. unfold deg2rad. field. Qed.

(** The whole matrix is a function of the rotation matrix and the
    position. *)
Lemma transformation_from_rotation position angles1 angles2 :
  as_matrix (from_euler_xyz angles1 true) = as_matrix (from_euler_xyz angles2 true) ->
  create_transformation_matrix position angles1
  = create_transformation_matrix position angles2.
Proof. unfold create_transformation_matrix. now intros ->. Qed.

End EulerConvention.

(** X1. The rotation block of the transformation matrix is the
    product Rz(c) * Ry(b) * Rx(a) of the elementary rotations about
    z, y and x by the three angles, taken in degrees. *)
Theorem X1_rotation_block_is_Rz_Ry_Rx :
  forall (position : Geometry.vec3) (a b c : R),
    Geometry.block3 (Hdf5Convert.create_transformation_matrix position (a, b, c))
    = Geometry.matmul3 (Rz (Geometry.deg2rad c))
        (Geometry.matmul3 (Ry (Geometry.deg2rad b)) (Rx (Geometry.deg2rad a))).
Proof.
  intros position a b c. rewrite transformation_block.
  now rewrite from_euler_matrix.
Qed.

(** X2. Whole turns do not matter: adding any number of times 360
    degrees to each of the three angles gives the same matrix. *)
Theorem X2_transformation_matrix_full_turns :
  forall (position : Geometry.vec3) (a b c : R) (ka kb kc : nat),
    Hdf5Convert.create_transformation_matrix position
      (a + 360 * INR ka, b + 360 * INR kb, c + 360 * INR kc)%R
    = Hdf5Convert.create_transformation_matrix position (a, b, c).
Proof.
  intros position a b c ka kb kc. apply transformation_from_rotation.
  rewrite !from_euler_matrix. cbv zeta. unfold Rx, Ry, Rz.
  rewrite !deg2rad_turns, !cos_period, !sin_period. reflexivity.
Qed.

(* ================================================================== *)
(** * Further properties of the camera documents *)
(* ================================================================== *)

Section CameraDocumentMore.

Import Geometry PyStr Warehouse.
Local Open Scope R_scope.

(** The rotation that turns nothing. *)
Definition identity_rotation : Rotation := mkRot 0 0 0 1.

Lemma compose_inv_self r : norm2 r = 1 -> compose_quat (inv r) r = identity_rotation.
Proof.
  intro Hn. unfold norm2 in Hn. destruct r as [x y z w]. simpl in Hn.
  unfold compose_quat, inv, identity_rotation. simpl. f_equal; try ring.
  rewrite <- Hn. ring.
Qed.

Lemma relative_rotation_same q r :
  from_quat q = Ok r -> relative_rotation q q = Ok identity_rotation.
Proof.
  intro Hq. pose proof (from_quat_unit _ _ Hq) as Hn.
  unfold relative_rotation. rewrite Hq.
  rewrite mul_of_units by (rewrite ?norm2_inv; assumption).
  now rewrite compose_inv_self.
Qed.

Lemma str_of_nat_inj n m : str_of_nat n = str_of_nat m -> n = m.
Proof.
  unfold str_of_nat. intro H.
  apply (f_equal NilEmpty.uint_of_string) in H. rewrite !NilEmpty.usu in H.
  injection H as H. now apply DecimalNat.Unsigned.to_uint_inj.
Qed.

Lemma concat_segments_inj l1 l2 :
  l1 <> [] -> l2 <> [] -> segments l1 -> segments l2 ->
  String.concat sep l1 = String.concat sep l2 -> l1 = l2.
Proof.
  intros H1 H2 Hs1 Hs2 H. apply (f_equal (split sep_char)) in H.
  now rewrite !split_concat in H by assumption.
Qed.

Lemma camera_dir_inj i j i' j' :
  camera_dir_of OUTPUT_DIR i j = camera_dir_of OUTPUT_DIR i' j' -> i = i' /\ j = j'.
Proof.
  rewrite !camera_dir_segments. intro H.
  apply concat_segments_inj in H;
    try discriminate; try (apply cleans_segments, run_segments).
  injection H as Hi Hj. split; now apply str_of_nat_inj.
Qed.

Lemma written_file_inj i j i' j' file :
  is_clean file = true ->
  join (camera_dir_of OUTPUT_DIR i j) [file] = join (camera_dir_of OUTPUT_DIR i' j') [file] ->
  i = i' /\ j = j'.
Proof.
  intros Hf H. rewrite !written_file in H by assumption.
  apply concat_segments_inj in H; try discriminate;
    try (apply cleans_segments; constructor; [reflexivity | now apply tail_cleans]).
  injection H as Hi Hj. split; now apply str_of_nat_inj.
Qed.

End CameraDocumentMore.

(** A target that shares the orientation of the sample camera. *)
Definition aligned_pallet : Warehouse.asset :=
  Warehouse.FileBasedObject "target_euro.obj" "assets/pallet/euro.obj"
    "assets/pallet/euro.obj" (1, 1, 1)%R (2, 3, 0.5)%R (1, 0, 0, 0)%R.

Lemma aligned_camera_is_documented :
  exists art,
    @Warehouse.save_render_data Sample.kubric Sample.renderer Sample.euler
      Sample.getcwd Warehouse.OUTPUT_DIR 1 2 Sample.camera aligned_pallet Sample.fresh
    = Ok (art, Sample.fresh).
Proof.
  destruct (@relative_rotation_of_units
              (@Warehouse.asset_quaternion Sample.kubric Sample.camera)
              (@Warehouse.asset_quaternion Sample.kubric aligned_pallet))
    as [rel Hrel]; [simpl; ring | simpl; ring |].
  eapply (@save_render_data_runs Sample.kubric Sample.renderer Sample.euler).
  - reflexivity.
  - exact Hrel.
  - vm_compute. reflexivity.
  - vm_compute. reflexivity.
Qed.

(** X3. When the camera and the target carry the same quaternion, the
    relative orientation written to the camera document is that of
    the identity rotation. *)
Theorem X3_same_orientation_gives_identity :
  forall (kubric : Warehouse.KubricLib) (renderer : Warehouse.Renderer)
         (euler : Geometry.EulerExtraction) (getcwd output_dir : string)
         (i j : nat) (camera pallet : Warehouse.asset)
         (st st1 : Warehouse.state) (art : Warehouse.CameraArtifacts),
    Warehouse.asset_quaternion camera = Warehouse.asset_quaternion pallet ->
    Warehouse.save_render_data getcwd output_dir i j camera pallet st = Ok (art, st1) ->
    Warehouse.relative_orientation_xyz (Warehouse.camera_metadata art)
    = Geometry.as_euler_xyz identity_rotation true.
Proof.
  intros kubric renderer euler getcwd output_dir i j camera pallet st st1 art Hq H.
  apply save_render_data_Ok in H
    as (rel & rr & rd & Hrel & _ & _ & _ & _ & _ & _ & Hor & _ & _).
  rewrite Hor. f_equal.
  pose proof Hrel as Hrel'. apply relative_rotation_spec in Hrel' as (rc & rp & Hc & _).
  rewrite <- Hq in Hrel. rewrite (relative_rotation_same _ _ Hc) in Hrel.
  now injection Hrel.
Qed.

Lemma X3_same_orientation_gives_identity_witness :
  exists art,
    @Warehouse.save_render_data Sample.kubric Sample.renderer Sample.euler
      Sample.getcwd Warehouse.OUTPUT_DIR 1 2 Sample.camera aligned_pallet Sample.fresh
    = Ok (art, Sample.fresh)
    /\ Warehouse.relative_orientation_xyz (Warehouse.camera_metadata art)
       = @Geometry.as_euler_xyz Sample.euler identity_rotation true.
Proof.
  destruct aligned_camera_is_documented as [art H].
  exists art. split; [exact H|].
  exact (X3_same_orientation_gives_identity Sample.kubric Sample.renderer Sample.euler
           Sample.getcwd Warehouse.OUTPUT_DIR 1 2 Sample.camera aligned_pallet
           Sample.fresh Sample.fresh art eq_refl H).
Defined.

(** X4. Joining the stored relative paths under the output root gives
    back the paths the images were written at: [relpath] and [join]
    round-trip for the files of a camera. *)
Theorem X4_stored_paths_resolve_under_output_root :
  forall (kubric : Warehouse.KubricLib) (renderer : Warehouse.Renderer)
         (euler : Geometry.EulerExtraction) (comps : list string) (i j : nat)
         (camera pallet : Warehouse.asset) (st st1 : Warehouse.state)
         (art : Warehouse.CameraArtifacts),
    forallb is_clean comps = true ->
    Warehouse.save_render_data (root_of comps) Warehouse.OUTPUT_DIR i j camera pallet st
    = Ok (art, st1) ->
    PyStr.join Warehouse.OUTPUT_DIR [Warehouse.rgba_path (Warehouse.camera_metadata art)]
    = Warehouse.rgba_file art
    /\ PyStr.join Warehouse.OUTPUT_DIR [Warehouse.depth_path (Warehouse.camera_metadata art)]
       = Warehouse.depth_file art.
Proof.
  intros kubric renderer euler comps i j camera pallet st st1 art Hcomps H.
  assert (Hc : cleans comps) by (apply Forall_forall; now apply forallb_forall).
  apply save_render_data_Ok in H
    as (rel & rr & rd & _ & Hrr & Hrd & Hrf & Hdf & _ & _ & _ & Hrp & Hdp).
  rewrite stored_path in Hrr, Hrd by (assumption || reflexivity).
  apply Ok_inj in Hrr, Hrd. subst rr rd.
  rewrite Hrp, Hdp, Hrf, Hdf, !written_file by reflexivity.
  unfold PyStr.join. cbn [fold_left].
  change Warehouse.OUTPUT_DIR with (String.concat PyStr.sep ["output"%string]).
  split;
    (apply join2_paths;
     [ discriminate | repeat constructor | discriminate
     | apply cleans_segments, tail_cleans; reflexivity ]).
Qed.

Lemma X4_stored_paths_resolve_under_output_root_witness :
  exists art,
    @Warehouse.save_render_data Sample.kubric Sample.renderer Sample.euler
      Sample.getcwd Warehouse.OUTPUT_DIR 0 0 Sample.camera Sample.pallet Sample.fresh
    = Ok (art, Sample.fresh)
    /\ PyStr.join Warehouse.OUTPUT_DIR [Warehouse.rgba_path (Warehouse.camera_metadata art)]
       = Warehouse.rgba_file art.
Proof.
  destruct sample_camera_is_documented as [art H].
  exists art. split; [exact H|].
  exact (proj1 (X4_stored_paths_resolve_under_output_root Sample.kubric Sample.renderer
                  Sample.euler ["home"; "user"; "Kubric-Pallets"]%string 0 0
                  Sample.camera Sample.pallet Sample.fresh Sample.fresh art eq_refl H)).
Defined.

(** X5. Cameras of different scenes, or different cameras of one
    scene, never share an image file: equal RGBA paths force equal
    scene and camera indices. *)
Theorem X5_image_files_are_keyed_by_scene_and_camera :
  forall (kubric : Warehouse.KubricLib) (renderer : Warehouse.Renderer)
         (euler : Geometry.EulerExtraction) (getcwd : string) (i j i' j' : nat)
         (camera pallet camera' pallet' : Warehouse.asset)
         (st st1 st' st1' : Warehouse.state) (art art' : Warehouse.CameraArtifacts),
    Warehouse.save_render_data getcwd Warehouse.OUTPUT_DIR i j camera pallet st
    = Ok (art, st1) ->
    Warehouse.save_render_data getcwd Warehouse.OUTPUT_DIR i' j' camera' pallet' st'
    = Ok (art', st1') ->
    Warehouse.rgba_file art = Warehouse.rgba_file art' ->
    i = i' /\ j = j'.
Proof.
  intros kubric renderer euler getcwd i j i' j' camera pallet camera' pallet'
         st st1 st' st1' art art' H H' Heq.
  apply save_render_data_Ok in H as (_ & _ & _ & _ & _ & _ & Hrf & _).
  apply save_render_data_Ok in H' as (_ & _ & _ & _ & _ & _ & Hrf' & _).
  rewrite Hrf, Hrf' in Heq. now apply written_file_inj in Heq.
Qed.

Lemma X5_image_files_are_keyed_by_scene_and_camera_witness :
  exists art art',
    @Warehouse.save_render_data Sample.kubric Sample.renderer Sample.euler
      Sample.getcwd Warehouse.OUTPUT_DIR 0 0 Sample.camera Sample.pallet Sample.fresh
    = Ok (art, Sample.fresh)
    /\ @Warehouse.save_render_data Sample.kubric Sample.renderer Sample.euler
         Sample.getcwd Warehouse.OUTPUT_DIR 1 2 Sample.camera aligned_pallet Sample.fresh
       = Ok (art', Sample.fresh)
    /\ Warehouse.rgba_file art <> Warehouse.rgba_file art'.
Proof.
  destruct sample_camera_is_documented as [art H].
  destruct aligned_camera_is_documented as [art' H'].
  exists art, art'. split; [exact H|]. split; [exact H'|].
  intro Heq.
  destruct (X5_image_files_are_keyed_by_scene_and_camera Sample.kubric Sample.renderer
              Sample.euler Sample.getcwd 0 0 1 2 Sample.camera Sample.pallet
              Sample.camera aligned_pallet Sample.fresh Sample.fresh Sample.fresh
              Sample.fresh art art' H H' Heq) as [Hi _].
  discriminate.
Defined.

(* ================================================================== *)
(** * The whole scene job *)
(* ================================================================== *)

Section WholeScene.

Import Geometry PyStr Warehouse.
Local Open Scope R_scope.
Context {kubric : KubricLib} {renderer : Renderer} {euler : EulerExtraction}.
Variable rng : Rng.
Variable catalogs : Catalogs.
Variable getcwd : string.

(** The remaining fields of a camera's artifacts. *)
Lemma save_render_data_files output_dir i j camera pallet st art st1 :
  save_render_data getcwd output_dir i j camera pallet st = Ok (art, st1) ->
  st1 = st
  /\ depth_png_file art = join (camera_dir_of output_dir i j) ["depth_normalized.png"%string]
  /\ segmentation_file art = join (camera_dir_of output_dir i j) ["segmentation.png"%string]
  /\ camera_metadata_file art = join (camera_dir_of output_dir i j) ["metadata.json"%string]
  /\ cam_position (camera_metadata art) = asset_position camera
  /\ render_still (scene st) = Ok tt.
Proof.
  unfold save_render_data. intro H.
  run_step H as s Hs. apply get_scene_Ok in Hs as [-> ->].
  run_step H as frame Hframe. apply lift_Ok in Hframe as [Hframe ->].
  run_step H as rel Hrel. apply lift_Ok in Hrel as [Hrel ->].
  run_step H as rel_rgba Hrgba. apply lift_Ok in Hrgba as [Hrgba ->].
  run_step H as rel_depth Hdepth. apply lift_Ok in Hdepth as [Hdepth ->].
  apply ret_Ok in H as [-> ->]. destruct frame. simpl. auto 6.
Qed.

(** One camera of the render loop: the artifacts [a] are those of
    [save_render_data] for index [fst ic] and camera [snd ic]. *)
Definition rendered (output_dir : string) (scene_index : nat) (target : asset)
           (ic : nat * asset) (a : CameraArtifacts) : Prop :=
  exists st st1,
    save_render_data getcwd output_dir scene_index (fst ic) (snd ic) target st
    = Ok (a, st1).

Lemma set_camera_Ok c st u st1 :
  set_camera c st = Ok (u, st1) ->
  st1 = mkState (draws st)
          (mkScene (assets (scene st)) (ambient_illumination (scene st)) (Some c)).
Proof. unfold set_camera. intro H. now injection H as _ <-. Qed.

Lemma render_loop_Ok output_dir scene_index target : forall ics acc st arts st1,
    fold_each ics
      (fun acc ic =>
         set_camera (snd ic) ;;;
         a <- save_render_data getcwd output_dir scene_index (fst ic) (snd ic) target ;;
         ret (List.app acc [a]))
      acc st = Ok (arts, st1) ->
    exists new,
      arts = acc ++ new /\ Forall2 (rendered output_dir scene_index target) ics new.
Proof.
  induction ics as [|ic ics IH]; intros acc st arts st1 H.
  - apply ret_Ok in H as [-> _]. exists []. now rewrite app_nil_r.
  - cbn [fold_each] in H. run_step H as acc1 Hbody.
    run_step Hbody as u Hset. run_step Hbody as a Hsave.
    apply ret_Ok in Hbody as [-> ->].
    apply IH in H as (new & -> & Hall).
    exists (a :: new). split; [now rewrite <- app_assoc|].
    constructor; [|assumption]. unfold rendered. eauto.
Qed.

(** What a successful [generate_scene] is made of. *)
Lemma generate_scene_Ok drawn output_dir scene_index num_angles distances out :
  generate_scene rng catalogs getcwd drawn output_dir scene_index num_angles distances
  = Ok out ->
  exists target st1,
    generate_scene_metadata rng catalogs scene_index (mkState drawn new_scene)
    = Ok ((target, scene_metadata out), st1)
    /\ scene_metadata_file out
       = join (scene_dir_of output_dir scene_index) ["metadata.json"%string]
    /\ Forall2 (rendered output_dir scene_index target)
         (enumerate (rig_at rng (asset_position target) num_angles
                       (range num_angles) distances (draws st1)))
         (camera_artifacts out).
Proof.
  unfold generate_scene.
  destruct (generate_scene_body rng catalogs getcwd output_dir scene_index num_angles
              distances (mkState drawn new_scene)) as [[a st]|e] eqn:H; [|discriminate].
  intro Heq. injection Heq as ->.
  unfold generate_scene_body in H.
  run_step H as tm Htm. destruct tm as [target md]. cbv zeta in H.
  simpl fst in H. simpl snd in H.
  run_step H as cameras Hcams. rewrite setup_cameras_runs in Hcams.
  injection Hcams as <- <-.
  run_step H as arts Harts. apply ret_Ok in H as [-> _].
  apply render_loop_Ok in Harts as (new & -> & Hall).
  exists target, st0. simpl. auto.
Qed.

Lemma numbered_nth {A} (l : list A) : forall start k ic,
    nth_error (combine (seq start (List.length l)) l) k = Some ic ->
    fst ic = (start + k)%nat /\ nth_error l k = Some (snd ic).
Proof.
  induction l as [|x l IH]; intros start k ic H.
  - destruct k; discriminate.
  - simpl in H. destruct k as [|k]; simpl in H.
    + injection H as <-. simpl. split; [lia | reflexivity].
    + apply IH in H as [Hf Hn]. simpl. split; [lia | exact Hn].
Qed.

Lemma enumerate_nth {A} (l : list A) k ic :
  nth_error (enumerate l) k = Some ic ->
  fst ic = k /\ nth_error l k = Some (snd ic).
Proof. unfold enumerate. intro H. apply numbered_nth in H. exact H. Qed.

End WholeScene.

Section WholeSceneRuns.

Import Geometry PyStr Warehouse.
Local Open Scope R_scope.
Context {kubric : KubricLib} {renderer : Renderer} {euler : EulerExtraction}.
Variable rng : Rng.
Variable catalogs : Catalogs.
Variable getcwd : string.

Hypothesis stocked : catalogs_stocked catalogs.
Hypothesis library_ok : orientations_readable.
Hypothesis look_at_ok : forall p t, readable (look_at_quat p t).
Hypothesis renderer_ok : forall s, render_still s = Ok tt.

Lemma join2_nonempty p b : b <> ""%string -> join2 p b <> ""%string.
Proof.
  intros Hb. unfold join2. destruct (startswith b sep); [assumption|].
  assert (Happ : forall a c : string, c <> ""%string -> (a ++ c)%string <> ""%string).
  { intros a c Hc. destruct a; simpl; [assumption | discriminate]. }
  destruct (orb _ _); apply Happ; [assumption | discriminate].
Qed.

Lemma relpath_total path start :
  path <> ""%string -> exists s, relpath getcwd path start = Ok s.
Proof.
  intro Hp. unfold relpath. apply String.eqb_neq in Hp. rewrite Hp.
  destruct (List.app _ _); eauto.
Qed.

Lemma relative_rotation_total c p :
  readable c -> readable p -> exists rel, relative_rotation c p = Ok rel.
Proof.
  intros [rc Hc] [rp Hp]. unfold relative_rotation. rewrite Hc, Hp.
  rewrite mul_of_units; [eauto | |].
  - rewrite norm2_inv. now apply from_quat_unit in Hc.
  - now apply from_quat_unit in Hp.
Qed.

Lemma save_render_data_total output_dir i j camera pallet st :
  readable (asset_quaternion camera) -> readable (asset_quaternion pallet) ->
  exists art, save_render_data getcwd output_dir i j camera pallet st = Ok (art, st).
Proof.
  intros Hc Hp.
  destruct (relative_rotation_total _ _ Hc Hp) as [rel Hrel].
  destruct (relpath_total (join (camera_dir_of output_dir i j) ["rgba.png"%string])
              output_dir) as [rr Hrr]; [apply join2_nonempty; discriminate|].
  destruct (relpath_total (join (camera_dir_of output_dir i j) ["depth.tiff"%string])
              output_dir) as [rd Hrd]; [apply join2_nonempty; discriminate|].
  eapply save_render_data_runs; eauto.
Qed.

Lemma render_body_total output_dir scene_index target acc ic st :
  readable (asset_quaternion target) -> readable (asset_quaternion (snd ic)) ->
  exists a st1,
    (set_camera (snd ic) ;;;
     a <- save_render_data getcwd output_dir scene_index (fst ic) (snd ic) target ;;
     ret (List.app acc [a])) st = Ok (List.app acc [a], st1).
Proof.
  intros Ht Hic.
  destruct (save_render_data_total output_dir scene_index (fst ic) (snd ic) target
              (mkState (draws st)
                 (mkScene (assets (scene st)) (ambient_illumination (scene st))
                    (Some (snd ic)))) Hic Ht) as [a Ha].
  exists a. eexists. unfold bind, set_camera. rewrite Ha. reflexivity.
Qed.

Lemma render_loop_total output_dir scene_index target :
  readable (asset_quaternion target) ->
  forall ics acc st,
    Forall (fun ic => readable (asset_quaternion (snd ic))) ics ->
    exists arts st1,
      fold_each ics
        (fun acc ic =>
           set_camera (snd ic) ;;;
           a <- save_render_data getcwd output_dir scene_index (fst ic) (snd ic) target ;;
           ret (List.app acc [a]))
        acc st = Ok (arts, st1).
Proof.
  intros Ht. induction ics as [|ic ics IH]; intros acc st Hall.
  - eexists. eexists. reflexivity.
  - inversion Hall as [|? ? Hic Hrest]; subst.
    destruct (render_body_total output_dir scene_index target acc ic st Ht Hic)
      as (a & st1 & Hbody).
    destruct (IH (List.app acc [a]) st1 Hrest) as (arts & st2 & Hrestrun).
    exists arts, st2. cbn [fold_each]. unfold bind at 1. rewrite Hbody. exact Hrestrun.
Qed.

Lemma rig_cameras_readable tp n ds : forall idxs k,
    Forall (fun cam => readable (asset_quaternion cam)) (rig_at rng tp n idxs ds k).
Proof.
  assert (Hring : forall i k,
             Forall (fun cam => readable (asset_quaternion cam)) (ring_at rng tp n i ds k)).
  { intro i. induction ds as [|d ds' IH]; intro k; simpl; constructor; auto.
    unfold camera_at. destruct tp as [[tx ty] tz]. simpl. apply look_at_ok. }
  induction idxs as [|i idxs IH]; intro k; simpl; [constructor|].
  apply Forall_app. split; [apply Hring | apply IH].
Qed.

Lemma numbered_forall {A} (P : A -> Prop) (l : list A) : forall (ns : list nat),
    Forall P l -> Forall (fun ic => P (snd ic)) (combine ns l).
Proof.
  induction l as [|x l IH]; intros ns H.
  - destruct ns; constructor.
  - destruct ns as [|n ns]; [constructor|]. inversion H; subst.
    simpl. constructor; [assumption | now apply IH].
Qed.

Lemma target_readable target prefix :
  placed_from catalogs Pallet prefix target -> readable (asset_quaternion target).
Proof.
  intros (p & s & pos & ax & ay & az & _ & ->). simpl. apply library_ok.
Qed.

(** With stocked catalogues, a library whose quaternions are never
    zero and a renderer that delivers, the scene job runs to its end. *)
Lemma generate_scene_total drawn output_dir scene_index num_angles distances :
  exists out,
    generate_scene rng catalogs getcwd drawn output_dir scene_index num_angles distances
    = Ok out.
Proof.
  destruct (generate_scene_metadata_total rng catalogs stocked library_ok drawn scene_index)
    as (target & md & st1 & Hmd).
  pose proof (generate_scene_metadata_Ok _ _ _ _ _ _ _ Hmd)
    as (dims & lights & racks & forklifts & pallets & P & _).
  destruct P as [_ _ _ _ _ _ _ _ _ Ht].
  apply target_readable in Ht.
  destruct (render_loop_total output_dir scene_index target Ht
              (enumerate (rig_at rng (asset_position target) num_angles
                            (range num_angles) distances (draws st1)))
              []
              (mkState (draws st1 + 2 * (num_angles * List.length distances)) (scene st1)))
    as (arts & st2 & Hloop).
  { apply (numbered_forall (fun cam => readable (asset_quaternion cam))).
    apply rig_cameras_readable. }
  eexists. unfold generate_scene, generate_scene_body.
  unfold bind at 1. rewrite Hmd. cbv zeta. simpl fst. simpl snd.
  unfold bind at 1. rewrite setup_cameras_runs.
  unfold bind at 1. rewrite Hloop. unfold ret. reflexivity.
Qed.

End WholeSceneRuns.

Lemma sample_scene_completes :
  exists out,
    @Warehouse.generate_scene Sample.kubric Sample.renderer Sample.euler
      Sample.rng Sample.catalogs Sample.getcwd 0 Warehouse.OUTPUT_DIR 3 8 [0.8; 1.0]%R
    = Ok out.
Proof.
  apply generate_scene_total.
  - apply sample_catalogs_stocked.
  - apply sample_orientations_readable.
  - intros p t. apply unit_tuple_readable. simpl. ring.
  - reflexivity.
Qed.

Section WholeSceneClaims.

Import Geometry PyStr Warehouse.

Lemma Forall2_nth_right {A B} (P : A -> B -> Prop) l1 l2 :
  Forall2 P l1 l2 ->
  forall k b, nth_error l2 k = Some b -> exists a, nth_error l1 k = Some a /\ P a b.
Proof.
  induction 1 as [|a b l1 l2 Hab _ IH]; intros k y Hk.
  - destruct k; discriminate.
  - destruct k as [|k]; simpl in Hk.
    + injection Hk as <-. exists a. auto.
    + apply IH in Hk. exact Hk.
Qed.

Lemma enumerate_length {A} (l : list A) : List.length (enumerate l) = List.length l.
Proof. unfold enumerate. rewrite length_combine, length_seq. apply Nat.min_id. Qed.

Lemma make_scene_metadata_index `{KubricLib} `{EulerExtraction} i dims s md :
  make_scene_metadata i dims s = Ok md ->
  scene_index md = i /\ warehouse_dimensions md = dims
  /\ ambient_color md = ambient_illumination s.
Proof.
  unfold make_scene_metadata.
  destruct (map_result object_record (filter is_PhysicalObject (assets s)));
    [|discriminate].
  intro Heq. injection Heq as <-. simpl. auto.
Qed.

End WholeSceneClaims.

(** X6. A scene job that runs to its end has written one camera
    document per camera of the rig that [setup_cameras] builds around
    the target of this scene, in the state the placement stages leave
    the generator in: [num_angles * len(distances)] documents, the
    one at position [k] carrying [camera_index = k], the position of
    the [k]-th camera of that rig and the offset from it to the
    target, and lying with its image in the directory [cam_k] of the
    scene, whose metadata carries the scene index. *)
Theorem X6_one_document_per_rig_camera :
  forall (kubric : Warehouse.KubricLib) (renderer : Warehouse.Renderer)
         (euler : Geometry.EulerExtraction) (rng : Warehouse.Rng)
         (catalogs : Warehouse.Catalogs) (getcwd output_dir : string)
         (drawn scene_index num_angles : nat) (distances : list R)
         (out : Warehouse.SceneArtifacts),
    Warehouse.generate_scene rng catalogs getcwd drawn output_dir scene_index
      num_angles distances = Ok out ->
    exists target st1 cameras st2,
      Warehouse.generate_scene_metadata rng catalogs scene_index
        (Warehouse.mkState drawn Warehouse.new_scene)
      = Ok ((target, Warehouse.scene_metadata out), st1)
      /\ Warehouse.setup_cameras rng (Warehouse.asset_position target) num_angles
           distances st1 = Ok (cameras, st2)
      /\ Warehouse.scene_index (Warehouse.scene_metadata out) = scene_index
      /\ List.length (Warehouse.camera_artifacts out) = List.length cameras
      /\ List.length cameras = (num_angles * List.length distances)%nat
      /\ forall k a,
          nth_error (Warehouse.camera_artifacts out) k = Some a ->
          exists cam,
            nth_error cameras k = Some cam
            /\ Warehouse.camera_index (Warehouse.camera_metadata a) = k
            /\ Warehouse.rgba_file a
               = PyStr.join (Warehouse.camera_dir_of output_dir scene_index k)
                   ["rgba.png"%string]
            /\ Warehouse.camera_metadata_file a
               = PyStr.join (Warehouse.camera_dir_of output_dir scene_index k)
                   ["metadata.json"%string]
            /\ Warehouse.cam_position (Warehouse.camera_metadata a)
               = Warehouse.asset_position cam
            /\ Warehouse.relative_position_xyz (Warehouse.camera_metadata a)
               = Warehouse.sub3 (Warehouse.asset_position target)
                   (Warehouse.asset_position cam).
Proof.
  intros kubric renderer euler rng catalogs getcwd output_dir drawn i n ds out H.
  apply generate_scene_Ok in H as (target & st1 & Hmd & _ & Hall).
  exists target, st1. eexists. eexists.
  split; [exact Hmd|]. split; [apply setup_cameras_runs|].
  split.
  - apply generate_scene_metadata_Ok in Hmd
      as (dims & lights & racks & forklifts & pallets & _ & Hmake).
    now apply make_scene_metadata_index in Hmake.
  - split.
    + apply Forall2_length in Hall. now rewrite <- Hall, enumerate_length.
    + split.
      * rewrite rig_at_length. unfold Warehouse.range. now rewrite length_seq.
      * intros k a Hk.
        destruct (Forall2_nth_right _ _ _ Hall k a Hk) as (ic & Hic & st & st2 & Hsave).
        apply enumerate_nth in Hic as [Hfst Hcam]. rewrite Hfst in Hsave.
        pose proof (save_render_data_files _ _ _ _ _ _ _ _ _ Hsave)
          as (_ & _ & _ & Hfile & Hpos & _).
        apply save_render_data_Ok in Hsave
          as (_ & _ & _ & _ & _ & _ & Hrf & _ & Hidx & Hrel & _).
        exists (snd ic). repeat split; assumption.
Qed.

Lemma X6_one_document_per_rig_camera_witness :
  exists out,
    @Warehouse.generate_scene Sample.kubric Sample.renderer Sample.euler
      Sample.rng Sample.catalogs Sample.getcwd 0 Warehouse.OUTPUT_DIR 3 8 [0.8; 1.0]%R
    = Ok out
    /\ Warehouse.scene_index (Warehouse.scene_metadata out) = 3%nat
    /\ List.length (Warehouse.camera_artifacts out) = 16%nat.
Proof.
  destruct sample_scene_completes as [out H].
  exists out. split; [exact H|].
  destruct (X6_one_document_per_rig_camera Sample.kubric Sample.renderer Sample.euler
              Sample.rng Sample.catalogs Sample.getcwd Warehouse.OUTPUT_DIR 0 3 8
              [0.8; 1.0]%R out H)
    as (target & st1 & cameras & st2 & _ & _ & Hi & Hl & Hc & _).
  split; [exact Hi|]. rewrite Hl, Hc. reflexivity.
Defined.

(* ================================================================== *)
(** * Empty catalogues *)
(* ================================================================== *)

Section EmptyCatalogues.

Import Geometry WarehouseUtils Warehouse.
Local Open Scope R_scope.
Context {kubric : KubricLib}.
Variable rng : Rng.
Variable catalogs : Catalogs.

Lemma bind_Raise {A B} (m : M A) (k : A -> M B) st e :
  bind m k st = Raise e ->
  m st = Raise e \/ exists a st1, m st = Ok (a, st1) /\ k a st1 = Raise e.
Proof.
  unfold bind. destruct (m st) as [[a st1]|e']; intro H.
  - right. eauto.
  - left. injection H as ->. reflexivity.
Qed.

(** A computation whose only exception is [IndexError]. *)
Definition only_IndexError {A} (m : M A) : Prop :=
  forall st e, m st = Raise e -> exn_cls e = IndexError.

Lemma only_ret {A} (a : A) : only_IndexError (ret a).
Proof. intros st e H. discriminate. Qed.

Lemma only_bind {A B} (m : M A) (k : A -> M B) :
  only_IndexError m -> (forall a, only_IndexError (k a)) -> only_IndexError (bind m k).
Proof.
  intros Hm Hk st e H. apply bind_Raise in H as [H|(a & st1 & _ & H)].
  - now apply (Hm st).
  - now apply (Hk a st1).
Qed.

Lemma only_uniform a b : only_IndexError (uniform rng a b).
Proof. intros st e H. discriminate. Qed.

Lemma only_add o : only_IndexError (add o).
Proof. intros st e H. discriminate. Qed.

Lemma only_set_ambient c : only_IndexError (set_ambient c).
Proof. intros st e H. discriminate. Qed.

Lemma only_randint a b : (a <= b)%nat -> only_IndexError (randint rng a b).
Proof.
  intros Hab st e H. unfold randint in H.
  destruct (Nat.ltb b a) eqn:Hlt; [apply Nat.ltb_lt in Hlt; lia | discriminate].
Qed.

Lemma only_choice {A} (l : list A) : only_IndexError (choice rng l).
Proof.
  intros st e H. unfold choice in H. destruct l; [|discriminate].
  unfold raise in H. now injection H as <-.
Qed.

Lemma only_for_each {A} (xs : list A) (body : A -> M unit) :
  (forall x, only_IndexError (body x)) -> only_IndexError (for_each xs body).
Proof.
  intro Hbody. induction xs as [|x xs IH]; simpl.
  - apply only_ret.
  - apply only_bind; [apply Hbody | intros _; exact IH].
Qed.

Ltac only_index :=
  repeat first
    [ apply only_bind; [|intro]
    | apply only_uniform
    | apply only_ret
    | apply only_add
    | apply only_set_ambient
    | apply only_choice
    | apply only_for_each; intro
    | apply only_randint; simpl; lia ].

Lemma only_setup_building : only_IndexError (setup_building rng catalogs).
Proof. unfold setup_building, apply_texture. cbv zeta. only_index. Qed.

Lemma only_add_random_lighting n dims : only_IndexError (add_random_lighting rng n dims).
Proof. unfold add_random_lighting. cbv zeta. only_index. Qed.

Lemma only_add_random_objects c n textures :
  only_IndexError (add_random_objects rng catalogs c n textures).
Proof. unfold add_random_objects, jiggle_rotation, apply_texture. only_index. Qed.

Lemma only_place_pallet dims : only_IndexError (place_pallet rng catalogs dims).
Proof. unfold place_pallet, jiggle_rotation, apply_texture. only_index. Qed.

Lemma only_populate_scene : only_IndexError (populate_scene rng catalogs).
Proof.
  unfold populate_scene.
  apply only_bind; [apply only_setup_building | intro dims].
  apply only_bind; [apply only_randint; lia | intro n].
  apply only_bind; [apply only_add_random_lighting | intros _].
  apply only_bind; [apply only_randint; simpl; lia | intro n_rack].
  apply only_bind; [apply only_add_random_objects | intros _].
  apply only_bind; [apply only_randint; simpl; lia | intro n_forklift].
  apply only_bind; [apply only_add_random_objects | intros _].
  apply only_bind; [apply only_randint; simpl; lia | intro n_pallet].
  apply only_bind; [apply only_add_random_objects | intros _].
  apply only_bind; [apply only_place_pallet | intro target].
  apply only_ret.
Qed.

Lemma In_nonempty {A} (x : A) l : In x l -> l <> [].
Proof. intros H ->. contradiction. Qed.

(** A round of scattering has drawn from the texture list. *)
Lemma add_random_objects_drew c n textures st u st1 :
  add_random_objects rng catalogs c (S n) textures st = Ok (u, st1) ->
  textures <> [] /\ ASSET_CATEGORIES catalogs c <> [].
Proof.
  unfold add_random_objects, range. cbn [seq for_each]. intro H.
  apply bind_Ok in H as (v & s1 & Hbody & _).
  unfold jiggle_rotation, apply_texture in Hbody. run_all Hbody.
  split; eapply In_nonempty; eassumption.
Qed.

Lemma place_pallet_drew dims st obj st1 :
  place_pallet rng catalogs dims st = Ok (obj, st1) -> tex_wood catalogs <> [].
Proof.
  unfold place_pallet, jiggle_rotation, apply_texture. intro H. run_all H.
  eapply In_nonempty; eassumption.
Qed.

(** The placement stages can only run through with stocked
    catalogues. *)
Lemma populate_scene_needs_stock st r st1 :
  populate_scene rng catalogs st = Ok (r, st1) -> catalogs_stocked catalogs.
Proof.
  unfold populate_scene. intro H.
  apply bind_Ok in H as (d & s1 & _ & H).
  apply bind_Ok in H as (n & s2 & _ & H).
  apply bind_Ok in H as (u3 & s3 & _ & H).
  apply bind_Ok in H as (nr & s4 & H4 & H). apply randint_Ok in H4 as [_ H4].
  apply bind_Ok in H as (u5 & s5 & H5 & H).
  apply bind_Ok in H as (nf & s6 & H6 & H). apply randint_Ok in H6 as [_ H6].
  apply bind_Ok in H as (u7 & s7 & H7 & H).
  apply bind_Ok in H as (np & s8 & H8 & H). apply randint_Ok in H8 as [_ H8].
  apply bind_Ok in H as (u9 & s9 & H9 & H).
  apply bind_Ok in H as (t & s10 & H10 & _).
  simpl in H4, H6, H8.
  destruct nr as [|nr]; [lia|]. destruct nf as [|nf]; [lia|].
  destruct np as [|np]; [lia|].
  apply add_random_objects_drew in H5 as [Hmp Hrack].
  apply add_random_objects_drew in H7 as [_ Hfork].
  apply add_random_objects_drew in H9 as [_ Hpal].
  apply place_pallet_drew in H10.
  split; [|split; assumption].
  intros []; assumption.
Qed.

End EmptyCatalogues.

Section EmptyCatalogueRuns.

Import Geometry WarehouseUtils Warehouse.
Context {kubric : KubricLib} {renderer : Renderer} {euler : EulerExtraction}.

Lemma generate_scene_raises rng catalogs getcwd drawn output_dir i n ds e :
  populate_scene rng catalogs (mkState drawn new_scene) = Raise e ->
  generate_scene rng catalogs getcwd drawn output_dir i n ds = Raise e.
Proof.
  intro H. unfold generate_scene, generate_scene_body, generate_scene_metadata, bind.
  now rewrite H.
Qed.

Lemma generate_scene_unstocked rng catalogs getcwd drawn output_dir i n ds :
  ~ catalogs_stocked catalogs ->
  exists e,
    generate_scene rng catalogs getcwd drawn output_dir i n ds = Raise e
    /\ exn_cls e = IndexError.
Proof.
  intro Hno.
  destruct (populate_scene rng catalogs (mkState drawn new_scene)) as [[r st1]|e] eqn:H.
  - apply populate_scene_needs_stock in H. contradiction.
  - exists e. split; [now apply generate_scene_raises|].
    now apply (only_populate_scene rng catalogs _ _ H).
Qed.

Lemma failure_lines_all_fail outcome tasks :
  Forall (fun i => exists e, outcome i = Raise e) tasks ->
  List.length (failure_lines outcome tasks) = List.length tasks.
Proof.
  induction 1 as [|i tasks [e He] _ IH]; simpl; [reflexivity|].
  rewrite He. simpl. now rewrite IH.
Qed.

End EmptyCatalogueRuns.

(** Catalogues of an installation without any asset or texture. *)
Definition bare_catalogs : Warehouse.Catalogs :=
  Warehouse.mkCatalogs (fun _ => []) [] [] [] [].

Lemma bare_catalogs_unstocked : ~ catalogs_stocked bare_catalogs.
Proof. intros [H _]. now apply (H Warehouse.Pallet). Qed.

(** X7. When a catalogue the scene job draws from is empty (an asset
    category, the wood textures, or metal and plastic together),
    [generate_scene] raises [IndexError], whatever the generator
    draws; no scene is produced. *)
Theorem X7_empty_catalogue_raises_IndexError :
  forall (kubric : Warehouse.KubricLib) (renderer : Warehouse.Renderer)
         (euler : Geometry.EulerExtraction) (rng : Warehouse.Rng)
         (catalogs : Warehouse.Catalogs) (getcwd output_dir : string)
         (drawn scene_index num_angles : nat) (distances : list R),
    ~ catalogs_stocked catalogs ->
    exists e,
      Warehouse.generate_scene rng catalogs getcwd drawn output_dir scene_index
        num_angles distances = Raise e
      /\ exn_cls e = IndexError.
Proof.
  intros kubric renderer euler rng catalogs getcwd output_dir drawn i n ds Hno.
  now apply generate_scene_unstocked.
Qed.

Lemma X7_empty_catalogue_raises_IndexError_witness :
  exists e,
    @Warehouse.generate_scene Sample.kubric Sample.renderer Sample.euler
      Sample.rng bare_catalogs Sample.getcwd 0 Warehouse.OUTPUT_DIR 0 8 [0.8; 1.0]%R
    = Raise e
    /\ exn_cls e = IndexError.
Proof.
  apply (X7_empty_catalogue_raises_IndexError Sample.kubric Sample.renderer Sample.euler
           Sample.rng bare_catalogs Sample.getcwd Warehouse.OUTPUT_DIR 0 0 8 [0.8; 1.0]%R).
  exact bare_catalogs_unstocked.
Defined.

(** X8. Conversely, with stocked catalogues, a library whose
    quaternions are never zero and a renderer that delivers every
    frame, [generate_scene] runs to its end, whatever the generator
    draws and whatever the rig parameters. *)
Theorem X8_scene_job_completes_when_stocked :
  forall (kubric : Warehouse.KubricLib) (renderer : Warehouse.Renderer)
         (euler : Geometry.EulerExtraction) (rng : Warehouse.Rng)
         (catalogs : Warehouse.Catalogs) (getcwd output_dir : string)
         (drawn scene_index num_angles : nat) (distances : list R),
    catalogs_stocked catalogs ->
    orientations_readable ->
    (forall p t, readable (Warehouse.look_at_quat p t)) ->
    (forall s, Warehouse.render_still s = Ok tt) ->
    exists out,
      Warehouse.generate_scene rng catalogs getcwd drawn output_dir scene_index
        num_angles distances = Ok out.
Proof.
  intros kubric renderer euler rng catalogs getcwd output_dir drawn i n ds Hs Hl Hq Hr.
  now apply generate_scene_total.
Qed.

Lemma X8_scene_job_completes_when_stocked_witness :
  exists out,
    @Warehouse.generate_scene Sample.kubric Sample.renderer Sample.euler
      Sample.rng Sample.catalogs Sample.getcwd 0 Warehouse.OUTPUT_DIR 5 4 [1.2; 1.5]%R
    = Ok out.
Proof.
  apply (X8_scene_job_completes_when_stocked Sample.kubric Sample.renderer Sample.euler
           Sample.rng Sample.catalogs Sample.getcwd Warehouse.OUTPUT_DIR 0 5 4
           [1.2; 1.5]%R).
  - exact sample_catalogs_stocked.
  - exact sample_orientations_readable.
  - intros p t. apply unit_tuple_readable. simpl. ring.
  - reflexivity.
Defined.

(** X9. With an empty catalogue every job of a batch fails, and the
    coordinator still returns normally, having taken every result and
    logged one error line per scene. *)
Theorem X9_batch_with_empty_catalogue :
  forall (kubric : Warehouse.KubricLib) (renderer : Warehouse.Renderer)
         (euler : Geometry.EulerExtraction) (rng : nat -> Warehouse.Rng)
         (drawn : nat -> nat) (catalogs : Warehouse.Catalogs)
         (getcwd output_dir : string) (num_scenes num_angles : nat)
         (distances : list R),
    ~ catalogs_stocked catalogs ->
    let run :=
      Warehouse.generate_warehouse_scenes
        (Warehouse.scene_job rng drawn catalogs getcwd output_dir num_angles distances)
        num_scenes in
    Warehouse.propagated run = None
    /\ Warehouse.collected run = Warehouse.range num_scenes
    /\ List.length (Warehouse.logged run) = num_scenes.
Proof.
  intros kubric renderer euler rng drawn catalogs getcwd output_dir N n ds Hno run.
  assert (Hfail : forall i,
             exists e,
               Warehouse.scene_job rng drawn catalogs getcwd output_dir n ds i = Raise e
               /\ exn_cls e = IndexError).
  { intro i. unfold Warehouse.scene_job.
    destruct (generate_scene_unstocked (rng i) catalogs getcwd (drawn i) output_dir
                i n ds Hno) as (e & He & Hcls).
    exists e. now rewrite He. }
  subst run. unfold Warehouse.generate_warehouse_scenes.
  rewrite collect_all.
  - simpl. repeat split.
    rewrite failure_lines_all_fail.
    + unfold Warehouse.range. apply length_seq.
    + apply Forall_forall. intros i _. destruct (Hfail i) as (e & He & _). eauto.
  - apply Forall_forall. intros i _ e He.
    destruct (Hfail i) as (e' & He' & Hcls). rewrite He in He'. injection He' as ->.
    unfold is_Exception. now rewrite Hcls.
Qed.

Lemma X9_batch_with_empty_catalogue_witness :
  let run :=
    Warehouse.generate_warehouse_scenes
      (@Warehouse.scene_job Sample.kubric Sample.renderer Sample.euler
         (fun _ => Sample.rng) (fun _ => 0%nat) bare_catalogs Sample.getcwd
         Warehouse.OUTPUT_DIR 8 [0.8; 1.0]%R)
      4 in
  Warehouse.propagated run = None
  /\ Warehouse.collected run = [0; 1; 2; 3]%nat
  /\ List.length (Warehouse.logged run) = 4%nat.
Proof.
  apply (X9_batch_with_empty_catalogue Sample.kubric Sample.renderer Sample.euler
           (fun _ => Sample.rng) (fun _ => 0%nat) bare_catalogs Sample.getcwd
           Warehouse.OUTPUT_DIR 4 8 [0.8; 1.0]%R).
  exact bare_catalogs_unstocked.
Defined.

(* ================================================================== *)
(** * Errors the coordinator does not catch *)
(* ================================================================== *)

Section BatchAbort.

Import Warehouse.
Variable outcome : nat -> result unit.

Lemma collect_until_base_exception before : forall k e rest log seen,
    Forall (raises_only_Exception outcome) before ->
    outcome k = Raise e -> is_Exception e = false ->
    collect outcome (before ++ k :: rest) log seen
    = mkBatchRun (log ++ failure_lines outcome before) (seen ++ before ++ [k]) (Some e).
Proof.
  induction before as [|i before IH]; intros k e rest log seen Hall Hk He.
  - simpl. rewrite Hk, He. now rewrite app_nil_r.
  - inversion Hall as [|? ? Hi Hrest]; subst. simpl.
    destruct (outcome i) as [u|e'] eqn:Ho.
    + rewrite (IH k e rest log (seen ++ [i]) Hrest Hk He).
      simpl. now rewrite <- app_assoc.
    + rewrite (Hi e' Ho).
      rewrite (IH k e rest _ (seen ++ [i]) Hrest Hk He).
      now rewrite <- !app_assoc.
Qed.

Lemma range_split n k :
  (k < n)%nat -> range n = seq 0 k ++ k :: seq (S k) (n - S k).
Proof.
  intro H. unfold range. replace n with (k + S (n - S k))%nat at 1 by lia.
  rewrite seq_app. reflexivity.
Qed.

End BatchAbort.

(** A job that ends the interpreter in the middle of a batch. *)
Definition third_job_exits (i : nat) : result unit :=
  if Nat.eqb i 1 then Raise (mkExn RuntimeError "renderer failed")
  else if Nat.eqb i 2 then Raise (mkExn SystemExit "1")
  else Ok tt.

(** X10. The coordinator only catches [Exception]: when job [k] is the
    first to end with an error outside that class ([SystemExit],
    [KeyboardInterrupt]), the error leaves the coordinator, the
    results of the jobs after [k] are never taken, and the log holds
    the failures of the jobs before [k] only. *)
Theorem X10_base_exception_leaves_the_coordinator :
  forall (outcome : nat -> result unit) (num_scenes k : nat) (e : exn),
    (k < num_scenes)%nat ->
    outcome k = Raise e ->
    is_Exception e = false ->
    (forall i, (i < k)%nat -> raises_only_Exception outcome i) ->
    let run := Warehouse.generate_warehouse_scenes outcome num_scenes in
    Warehouse.propagated run = Some e
    /\ Warehouse.collected run = seq 0 (S k)
    /\ Warehouse.logged run = failure_lines outcome (seq 0 k).
Proof.
  intros outcome n k e Hk Ho He Hbefore run. subst run.
  unfold Warehouse.generate_warehouse_scenes. rewrite (range_split n k Hk).
  rewrite (collect_until_base_exception outcome (seq 0 k) k e); try assumption.
  - cbn [Warehouse.collected Warehouse.logged Warehouse.propagated List.app].
    repeat split. rewrite seq_S. reflexivity.
  - apply Forall_forall. intros i Hi. apply in_seq in Hi. apply Hbefore. lia.
Qed.

Lemma X10_base_exception_leaves_the_coordinator_witness :
  let run := Warehouse.generate_warehouse_scenes third_job_exits 5 in
  Warehouse.propagated run = Some (mkExn SystemExit "1")
  /\ Warehouse.collected run = [0; 1; 2]%nat
  /\ Warehouse.logged run = ["Error generating a scene: renderer failed"%string].
Proof.
  apply (X10_base_exception_leaves_the_coordinator third_job_exits 5 2
           (mkExn SystemExit "1")).
  - lia.
  - reflexivity.
  - reflexivity.
  - intros i Hi e He. unfold third_job_exits in He.
    destruct i as [|[|i]]; simpl in He; try discriminate; [|lia].
    injection He as <-. reflexivity.
Defined.

(* ================================================================== *)
(** * Where things are placed *)
(* ================================================================== *)

Section Ranges.

Import Geometry Warehouse.
Local Open Scope R_scope.
Variable rng : Rng.

(** [random.random()] returns a float in [0, 1). *)
Definition unit_draws : Prop := forall k, 0 <= next_float rng k < 1.

Hypothesis draws_ok : unit_draws.

Lemma uniform_within a b st x st1 :
  a <= b -> uniform rng a b st = Ok (x, st1) ->
  assets_of st1 = assets_of st /\ a <= x <= b.
Proof.
  intros Hab H. unfold uniform, tick in H. injection H as <- <-.
  split; [reflexivity|]. pose proof (draws_ok (draws st)) as [H0 H1]. nra.
Qed.

End Ranges.

Ltac absorb_within Hdraws Hx :=
  first
    [ eapply (uniform_within _ Hdraws) in Hx; [|lra];
      let Hr := fresh "Hwithin" in destruct Hx as [Hx Hr]
    | absorb Hx ].

Ltac run_within Hdraws H :=
  lazymatch type of H with
  | Warehouse.bind _ _ _ = Ok _ =>
      let a := fresh "v" in
      let st := fresh "st" in
      let Ha := fresh "Hv" in
      apply bind_Ok in H; destruct H as (a & st & Ha & H);
      run_within Hdraws Ha; run_within Hdraws H
  | _ => try absorb_within Hdraws H
  end.

Section Footprint.

Import Geometry WarehouseUtils Warehouse.
Local Open Scope R_scope.
Context {kubric : KubricLib}.
Variable rng : Rng.
Variable catalogs : Catalogs.
Hypothesis draws_ok : unit_draws rng.

(** Inside the warehouse: over the floor slab and below the ceiling
    height. *)
Definition inside (dims : Dims) (o : asset) : Prop :=
  - length dims / 2 <= pos_x o <= length dims / 2
  /\ - width dims / 2 <= pos_y o <= width dims / 2
  /\ 0 <= pos_z o <= height dims.

Definition dims_in_range (dims : Dims) : Prop :=
  30 <= length dims <= 100 /\ 20 <= width dims <= 70 /\ 8 <= height dims <= 20.

Lemma setup_building_dims st dims st1 :
  setup_building rng catalogs st = Ok (dims, st1) -> dims_in_range dims.
Proof.
  unfold setup_building. intro H. cbv zeta in H. cbn [for_each] in H.
  unfold apply_texture in H. run_within draws_ok H.
  unfold dims_in_range. simpl. auto.
Qed.

(** A light of the rig: in the footprint, at 80 to 95 percent of the
    height, with colour components in [0.5, 1] and intensity in
    [1, 10]. *)
Definition light_within (dims : Dims) (o : asset) : Prop :=
  exists x y z intensity cr cg cb,
    (o = DirectionalLight (x, y, z) (0, 0, 0) intensity (cr, cg, cb)
     \/ o = PointLight (x, y, z) intensity (cr, cg, cb))
    /\ - length dims / 2 <= x <= length dims / 2
    /\ - width dims / 2 <= y <= width dims / 2
    /\ height dims * 0.8 <= z <= height dims * 0.95
    /\ 0.5 <= cr <= 1 /\ 0.5 <= cg <= 1 /\ 0.5 <= cb <= 1
    /\ 1 <= intensity <= 10.

Lemma add_random_lighting_within n dims st u st1 :
  0 <= length dims -> 0 <= width dims -> 0 <= height dims ->
  add_random_lighting rng n dims st = Ok (u, st1) ->
  exists lights,
    assets_of st1 = assets_of st ++ lights
    /\ List.length lights = n
    /\ Forall (light_within dims) lights.
Proof.
  intros Hl Hw Hh. unfold add_random_lighting. intro H. cbv zeta in H.
  apply bind_Ok in H as (r & s1 & H1 & H). absorb H1.
  apply bind_Ok in H as (g & s2 & H2 & H). absorb H2.
  apply bind_Ok in H as (b & s3 & H3 & H). absorb H3.
  apply bind_Ok in H as (w & s4 & H4 & H). absorb H4.
  apply (for_each_grows (fun _ o => light_within dims o)) in H.
  - destruct H as (new & Hnew & Hall). exists new. split; [chain_assets|].
    split.
    + apply Forall2_length in Hall. unfold range in Hall.
      now rewrite length_seq in Hall.
    + clear - Hall. induction Hall; constructor; assumption.
  - clear - draws_ok Hl Hw Hh. intros i st u st1 H. run_within draws_ok H.
    eexists. split; [chain_assets|].
    unfold light_within. do 7 eexists.
    split; [destruct (Nat.eqb i 0); [left | right]; reflexivity|].
    repeat split; lra.
Qed.

(** A scattered object: isotropic scale in [0.8, 1.2], on the ground
    in the square of side 20 about the origin. *)
Definition scattered_within (o : asset) : Prop :=
  exists name path s x y q,
    o = FileBasedObject name path path (s, s, s) (x, y, 0) q
    /\ 0.8 <= s <= 1.2 /\ - 10 <= x <= 10 /\ - 10 <= y <= 10.

Lemma add_random_objects_within c n textures st u st1 :
  add_random_objects rng catalogs c n textures st = Ok (u, st1) ->
  exists new,
    assets_of st1 = assets_of st ++ new /\ Forall scattered_within new.
Proof.
  unfold add_random_objects. intro H.
  apply (for_each_grows (fun _ o => scattered_within o)) in H.
  - destruct H as (new & Hnew & Hall). exists new. split; [assumption|].
    clear - Hall. induction Hall; constructor; assumption.
  - clear - draws_ok. intros i st u st1 H. unfold jiggle_rotation, apply_texture in H.
    run_within draws_ok H. eexists. split; [chain_assets|].
    unfold scattered_within. do 6 eexists. split; [reflexivity|].
    repeat split; lra.
Qed.

(** The target: isotropic scale in [0.9, 1.1], in the footprint, at
    most one metre above the ground. *)
Definition target_within (dims : Dims) (o : asset) : Prop :=
  exists name path s x y z q,
    o = FileBasedObject name path path (s, s, s) (x, y, z) q
    /\ 0.9 <= s <= 1.1
    /\ - length dims / 2 <= x <= length dims / 2
    /\ - width dims / 2 <= y <= width dims / 2
    /\ 0 <= z <= 1.

Lemma place_pallet_within dims st obj st1 :
  dims_in_range dims ->
  place_pallet rng catalogs dims st = Ok (obj, st1) ->
  assets_of st1 = assets_of st ++ [obj] /\ target_within dims obj.
Proof.
  intros (Hl & Hw & Hh). unfold place_pallet. intro H.
  unfold jiggle_rotation, apply_texture in H. run_within draws_ok H.
  split; [chain_assets|].
  unfold target_within. do 7 eexists. split; [reflexivity|].
  repeat split; lra.
Qed.

Lemma light_within_inside dims o :
  dims_in_range dims -> light_within dims o -> inside dims o.
Proof.
  intros (Hl & Hw & Hh) (x & y & z & i & cr & cg & cb & Ho & Hx & Hy & Hz & _).
  unfold inside, pos_x, pos_y, pos_z.
  destruct Ho as [-> | ->]; simpl; repeat split; lra.
Qed.

Lemma scattered_within_inside dims o :
  dims_in_range dims -> scattered_within o -> inside dims o.
Proof.
  intros (Hl & Hw & Hh) (name & path & s & x & y & q & -> & _ & Hx & Hy).
  unfold inside, pos_x, pos_y, pos_z. simpl. repeat split; lra.
Qed.

Lemma target_within_inside dims o :
  dims_in_range dims -> target_within dims o -> inside dims o.
Proof.
  intros (Hl & Hw & Hh) (name & path & s & x & y & z & q & -> & _ & Hx & Hy & Hz).
  unfold inside, pos_x, pos_y, pos_z. simpl. repeat split; lra.
Qed.

(** The placement stages put everything but the slabs inside the
    warehouse they have sized. *)
Lemma populate_scene_within drawn dims target st1 :
  populate_scene rng catalogs (mkState drawn new_scene) = Ok ((dims, target), st1) ->
  dims_in_range dims
  /\ target_within dims target
  /\ exists placed,
      assets_of st1 = building_slabs dims ++ placed
      /\ In target placed
      /\ Forall (inside dims) placed
      /\ Forall (fun o => light_within dims o \/ scattered_within o
                          \/ target_within dims o) placed.
Proof.
  unfold populate_scene. intro H.
  apply bind_Ok in H as (d & s1 & H1 & H).
  pose proof (setup_building_dims _ _ _ H1) as Hd. apply setup_building_Ok in H1.
  apply bind_Ok in H as (n & s2 & H2 & H). absorb H2.
  apply bind_Ok in H as (u3 & s3 & H3 & H).
  assert (Hnonneg : 0 <= length d /\ 0 <= width d /\ 0 <= height d)
    by (destruct Hd as (? & ? & ?); repeat split; lra).
  destruct Hnonneg as (Hl0 & Hw0 & Hh0).
  apply (add_random_lighting_within _ _ _ _ _ Hl0 Hw0 Hh0) in H3
    as (lights & H3 & _ & Hlights).
  apply bind_Ok in H as (nr & s4 & H4 & H). absorb H4.
  apply bind_Ok in H as (u5 & s5 & H5 & H).
  apply add_random_objects_within in H5 as (racks & H5 & Hracks).
  apply bind_Ok in H as (nf & s6 & H6 & H). absorb H6.
  apply bind_Ok in H as (u7 & s7 & H7 & H).
  apply add_random_objects_within in H7 as (forklifts & H7 & Hforklifts).
  apply bind_Ok in H as (np & s8 & H8 & H). absorb H8.
  apply bind_Ok in H as (u9 & s9 & H9 & H).
  apply add_random_objects_within in H9 as (pallets & H9 & Hpallets).
  apply bind_Ok in H as (t & s10 & H10 & H).
  apply (place_pallet_within _ _ _ _ Hd) in H10 as (H10 & Ht).
  apply ret_Ok in H as [Heq ->]. injection Heq as <- <-.
  split; [exact Hd|]. split; [exact Ht|].
  exists (lights ++ racks ++ forklifts ++ pallets ++ [target]).
  split; [simpl in *; chain_assets|].
  split; [repeat (apply in_or_app; right); now left|].
  split.
  - repeat (apply Forall_app; split);
      try (eapply Forall_impl; [|eassumption]; intros o Ho);
      eauto using light_within_inside, scattered_within_inside, target_within_inside.
  - repeat (apply Forall_app; split);
      try (eapply Forall_impl; [|eassumption]; intros o Ho); auto.
Qed.

End Footprint.

Section RecordedPlacement.

Import Geometry PyStr WarehouseUtils Warehouse.
Local Open Scope R_scope.
Context {kubric : KubricLib} {renderer : Renderer} {euler : EulerExtraction}.
Variable rng : Rng.
Variable catalogs : Catalogs.
Variable getcwd : string.
Hypothesis draws_ok : unit_draws rng.

Lemma generate_scene_metadata_populate drawn i target md st1 :
  generate_scene_metadata rng catalogs i (mkState drawn new_scene)
  = Ok ((target, md), st1) ->
  exists dims,
    populate_scene rng catalogs (mkState drawn new_scene) = Ok ((dims, target), st1)
    /\ make_scene_metadata i dims (scene st1) = Ok md.
Proof.
  unfold generate_scene_metadata. intro H.
  apply bind_Ok in H as ([dims t] & s1 & H1 & H). cbv zeta in H. simpl fst in H.
  simpl snd in H.
  apply bind_Ok in H as (s & s2 & H2 & H). apply get_scene_Ok in H2 as [-> ->].
  apply bind_Ok in H as (m & s3 & H3 & H). apply lift_Ok in H3 as [H3 ->].
  apply ret_Ok in H as [Heq ->]. injection Heq as <- <-.
  exists dims. split; assumption.
Qed.

(** An entry of the [objects] list whose position is inside the
    warehouse and whose scale is one factor in [0.8, 1.2] on the three
    axes. *)
Definition record_within (dims : Dims) (r : SceneObjectRecord) : Prop :=
  (- length dims / 2 <= fst (fst (rec_position r)) <= length dims / 2
   /\ - width dims / 2 <= snd (fst (rec_position r)) <= width dims / 2
   /\ 0 <= snd (rec_position r) <= height dims)
  /\ exists s, rec_scale r = (s, s, s) /\ 0.8 <= s <= 1.2.

Lemma placed_record_within dims o r :
  inside dims o ->
  light_within dims o \/ scattered_within o \/ target_within dims o ->
  is_PhysicalObject o = true ->
  object_record o = Ok r ->
  record_within dims r.
Proof.
  intros Hin Hkind Hphys Hr.
  apply object_record_Ok in Hr as (rot & _ & _ & Hpos & Hscale & _).
  unfold record_within. rewrite Hpos, Hscale. split; [exact Hin|].
  destruct Hkind as [Hlight | [Hs | Ht]].
  - destruct Hlight as (x & y & z & i & cr & cg & cb & [-> | ->] & _); discriminate.
  - destruct Hs as (name & path & s & x & y & q & -> & Hs & _).
    exists s. simpl. split; [reflexivity | exact Hs].
  - destruct Ht as (name & path & s & x & y & z & q & -> & Hs & _).
    exists s. simpl. split; [reflexivity | lra].
Qed.

Lemma Forall2_filter_records (P : asset -> Prop) (Q : SceneObjectRecord -> Prop) :
  (forall o r, P o -> is_PhysicalObject o = true -> object_record o = Ok r -> Q r) ->
  forall l recs,
    Forall P l ->
    Forall2 (fun o r => object_record o = Ok r) (filter is_PhysicalObject l) recs ->
    Forall Q recs.
Proof.
  intros HPQ. induction l as [|o l IH]; intros recs HP H; simpl in H.
  - inversion H. constructor.
  - inversion HP as [|? ? Ho Hl]; subst.
    destruct (is_PhysicalObject o) eqn:Hphys.
    + inversion H as [|? r ? recs' Hor Hrest]; subst.
      constructor; [now apply (HPQ o) | now apply IH].
    + now apply IH.
Qed.

(** The scene document of a finished job: dimensions in their ranges,
    and after the five slab entries only entries inside the
    warehouse. *)
Lemma generate_scene_records_within drawn output_dir i num_angles distances out :
  generate_scene rng catalogs getcwd drawn output_dir i num_angles distances = Ok out ->
  dims_in_range (warehouse_dimensions (scene_metadata out))
  /\ Forall (record_within (warehouse_dimensions (scene_metadata out)))
       (skipn 5 (objects (scene_metadata out))).
Proof.
  intro H. apply generate_scene_Ok in H as (target & st1 & Hmd & _ & _).
  apply generate_scene_metadata_populate in Hmd as (dims & Hp & Hmake).
  apply (populate_scene_within _ _ draws_ok) in Hp
    as (Hd & _ & placed & Hassets & _ & Hin & Hkind).
  pose proof (make_scene_metadata_index _ _ _ _ Hmake) as (_ & Hdims & _).
  apply make_scene_metadata_Ok in Hmake as [_ Hrecs].
  rewrite Hdims. split; [exact Hd|].
  unfold assets_of in Hassets. rewrite Hassets, filter_app in Hrecs.
  apply Forall2_app_inv_l in Hrecs as (slabs & rest & Hslabs & Hrest & ->).
  apply Forall2_length in Hslabs. simpl in Hslabs.
  destruct slabs as [|r1 [|r2 [|r3 [|r4 [|r5 [|r6 slabs]]]]]]; try discriminate.
  cbn [skipn List.app].
  refine (Forall2_filter_records
            (fun o => inside dims o
                      /\ (light_within dims o \/ scattered_within o
                          \/ target_within dims o))
            _ _ placed rest _ Hrest).
  - intros o r [Ho Hk] Hphys Hr. exact (placed_record_within _ _ _ Ho Hk Hphys Hr).
  - clear - Hin Hkind. induction Hin; inversion Hkind; subst; constructor; auto.
Qed.

Lemma generate_scene_camera_count drawn output_dir i num_angles distances out :
  generate_scene rng catalogs getcwd drawn output_dir i num_angles distances = Ok out ->
  List.length (camera_artifacts out) = (num_angles * List.length distances)%nat.
Proof.
  intro H. apply generate_scene_Ok in H as (target & st1 & _ & _ & Hall).
  apply Forall2_length in Hall. rewrite <- Hall, enumerate_length, rig_at_length.
  unfold range. now rewrite length_seq.
Qed.

(** The offset recorded in a camera document: on the circle of its
    ring horizontally, and at most the jitter away vertically. *)
Lemma generate_scene_offsets drawn output_dir i num_angles distances out k a :
  generate_scene rng catalogs getcwd drawn output_dir i num_angles distances = Ok out ->
  nth_error (camera_artifacts out) k = Some a ->
  let d := nth (k mod List.length distances) distances 0 in
  let rel := relative_position_xyz (camera_metadata a) in
  fst (fst rel) * fst (fst rel) + snd (fst rel) * snd (fst rel) = d * d
  /\ - 0.2 <= snd rel <= 0.2.
Proof.
  intros H Hk. apply generate_scene_Ok in H as (target & st1 & Hmd & _ & Hall).
  apply generate_scene_metadata_populate in Hmd as (dims & Hp & _).
  apply (populate_scene_within _ _ draws_ok) in Hp as (_ & Ht & _).
  destruct Ht as (name & path & s & tx & ty & tz & q & -> & _ & _ & _ & Htz).
  pose proof (Forall2_length Hall) as Hlen.
  rewrite enumerate_length, rig_at_length in Hlen. unfold range in Hlen.
  rewrite length_seq in Hlen.
  assert (Hklt : (k < num_angles * List.length distances)%nat).
  { rewrite Hlen. apply nth_error_Some. now rewrite Hk. }
  destruct (Forall2_nth_right _ _ _ Hall k a Hk) as (ic & Hic & st & st2 & Hsave).
  apply enumerate_nth in Hic as [_ Hcam].
  apply save_render_data_Ok in Hsave
    as (_ & _ & _ & _ & _ & _ & _ & _ & _ & Hrel & _).
  assert (Hpos : (0 < List.length distances)%nat) by nia.
  set (n := List.length distances) in *.
  assert (Hm : (k / n < num_angles)%nat)
    by (apply Nat.Div0.div_lt_upper_bound; nia).
  assert (Hj : (k mod n < n)%nat) by (apply Nat.mod_upper_bound; lia).
  assert (Hsplit : k = ((k / n) * n + k mod n)%nat)
    by (rewrite (Nat.div_mod_eq k n) at 1; lia).
  unfold range in Hcam. rewrite Hsplit in Hcam at 1.
  subst n. rewrite (rig_at_nth _ _ _ _ _ _ _ _ _ Hm Hj) in Hcam.
  injection Hcam as Hcam. cbv zeta. rewrite Hrel, <- Hcam.
  unfold camera_at. cbn [asset_position sub3 fst snd].
  set (theta := radians _). set (d := nth _ distances 0).
  split.
  - pose proof (sin2_cos2 theta) as Hsc. unfold Rsqr in Hsc.
    replace ((tx - (tx + d * cos theta)) * (tx - (tx + d * cos theta))
             + (ty - (ty + d * sin theta)) * (ty - (ty + d * sin theta)))
      with (d * d * (sin theta * sin theta + cos theta * cos theta)) by ring.
    rewrite Hsc. ring.
  - match goal with |- context [next_float rng ?c] =>
      pose proof (draws_ok c) as [Hf0 Hf1]; set (f := next_float rng c) in *
    end.
    unfold Rmax. destruct (Rle_dec _ _); lra.
Qed.

End RecordedPlacement.

Lemma sample_unit_draws : unit_draws Sample.rng.
Proof. intro k. simpl. lra. Qed.

(** X11. In the scene document of a finished job the warehouse is 30
    to 100 long, 20 to 70 wide and 8 to 20 high, and every entry of
    [objects] after the five slabs lies over the floor slab and under
    the ceiling height, with one scale factor between 0.8 and 1.2 on
    its three axes. *)
Theorem X11_recorded_objects_lie_inside_the_warehouse :
  forall (kubric : Warehouse.KubricLib) (renderer : Warehouse.Renderer)
         (euler : Geometry.EulerExtraction) (rng : Warehouse.Rng)
         (catalogs : Warehouse.Catalogs) (getcwd output_dir : string)
         (drawn scene_index num_angles : nat) (distances : list R)
         (out : Warehouse.SceneArtifacts),
    unit_draws rng ->
    Warehouse.generate_scene rng catalogs getcwd drawn output_dir scene_index
      num_angles distances = Ok out ->
    dims_in_range (Warehouse.warehouse_dimensions (Warehouse.scene_metadata out))
    /\ Forall (record_within
                 (Warehouse.warehouse_dimensions (Warehouse.scene_metadata out)))
         (skipn 5 (Warehouse.objects (Warehouse.scene_metadata out))).
Proof.
  intros kubric renderer euler rng catalogs getcwd output_dir drawn i n ds out Hd H.
  exact (generate_scene_records_within rng catalogs getcwd Hd _ _ _ _ _ _ H).
Qed.

Lemma X11_recorded_objects_lie_inside_the_warehouse_witness :
  exists out,
    @Warehouse.generate_scene Sample.kubric Sample.renderer Sample.euler
      Sample.rng Sample.catalogs Sample.getcwd 0 Warehouse.OUTPUT_DIR 3 8 [0.8; 1.0]%R
    = Ok out
    /\ dims_in_range (Warehouse.warehouse_dimensions (Warehouse.scene_metadata out))
    /\ Forall (record_within
                 (Warehouse.warehouse_dimensions (Warehouse.scene_metadata out)))
         (skipn 5 (Warehouse.objects (Warehouse.scene_metadata out))).
Proof.
  destruct sample_scene_completes as [out H].
  exists out. split; [exact H|].
  exact (X11_recorded_objects_lie_inside_the_warehouse Sample.kubric Sample.renderer
           Sample.euler Sample.rng Sample.catalogs Sample.getcwd Warehouse.OUTPUT_DIR
           0 3 8 [0.8; 1.0]%R out sample_unit_draws H).
Defined.

(** X12. [add_random_lighting] never raises; in a warehouse of
    non-negative dimensions it adds exactly [num_lights] lights, each
    over the floor slab at 80 to 95 percent of the height, with colour
    components in [0.5, 1] and intensity in [1, 10]. *)
Theorem X12_lights_hang_in_the_upper_band :
  forall (rng : Warehouse.Rng) (num_lights : nat) (dims : Warehouse.Dims)
         (st : Warehouse.state),
    unit_draws rng ->
    (0 <= Warehouse.length dims)%R -> (0 <= Warehouse.width dims)%R ->
    (0 <= Warehouse.height dims)%R ->
    exists lights st1,
      Warehouse.add_random_lighting rng num_lights dims st = Ok (tt, st1)
      /\ assets_of st1 = assets_of st ++ lights
      /\ List.length lights = num_lights
      /\ Forall (light_within dims) lights.
Proof.
  intros rng n dims st Hd Hl Hw Hh.
  destruct (total_add_random_lighting rng n dims st) as ([] & st1 & H).
  destruct (add_random_lighting_within rng Hd _ _ _ _ _ Hl Hw Hh H)
    as (lights & Ha & Hn & Hall).
  exists lights, st1. auto.
Qed.

Lemma X12_lights_hang_in_the_upper_band_witness :
  exists lights st1,
    Warehouse.add_random_lighting Sample.rng 5 (Warehouse.mkDims 30 20 8)
      (Warehouse.mkState 0 (@Warehouse.new_scene Sample.kubric)) = Ok (tt, st1)
    /\ assets_of st1
       = assets_of (Warehouse.mkState 0 (@Warehouse.new_scene Sample.kubric)) ++ lights
    /\ List.length lights = 5%nat
    /\ Forall (light_within (Warehouse.mkDims 30 20 8)) lights.
Proof.
  apply (X12_lights_hang_in_the_upper_band Sample.rng 5 (Warehouse.mkDims 30 20 8)
           (Warehouse.mkState 0 (@Warehouse.new_scene Sample.kubric))
           sample_unit_draws); simpl; lra.
Defined.

(** X13. In the camera document at position [k] of a finished job the
    recorded offset to the target has horizontal length
    [distances[k mod len(distances)]], and its vertical component is
    within 0.2 of zero. *)
Theorem X13_recorded_offset_is_the_ring_radius :
  forall (kubric : Warehouse.KubricLib) (renderer : Warehouse.Renderer)
         (euler : Geometry.EulerExtraction) (rng : Warehouse.Rng)
         (catalogs : Warehouse.Catalogs) (getcwd output_dir : string)
         (drawn scene_index num_angles : nat) (distances : list R)
         (out : Warehouse.SceneArtifacts) (k : nat) (a : Warehouse.CameraArtifacts),
    unit_draws rng ->
    Warehouse.generate_scene rng catalogs getcwd drawn output_dir scene_index
      num_angles distances = Ok out ->
    nth_error (Warehouse.camera_artifacts out) k = Some a ->
    let d := nth (k mod List.length distances) distances 0%R in
    let rel := Warehouse.relative_position_xyz (Warehouse.camera_metadata a) in
    (fst (fst rel) * fst (fst rel) + snd (fst rel) * snd (fst rel) = d * d)%R
    /\ (- 0.2 <= snd rel <= 0.2)%R.
Proof.
  intros kubric renderer euler rng catalogs getcwd output_dir drawn i n ds out k a Hd H Hk.
  exact (generate_scene_offsets rng catalogs getcwd Hd _ _ _ _ _ _ _ _ H Hk).
Qed.

Lemma X13_recorded_offset_is_the_ring_radius_witness :
  exists out a,
    @Warehouse.generate_scene Sample.kubric Sample.renderer Sample.euler
      Sample.rng Sample.catalogs Sample.getcwd 0 Warehouse.OUTPUT_DIR 3 8 [0.8; 1.0]%R
    = Ok out
    /\ nth_error (Warehouse.camera_artifacts out) 3 = Some a
    /\ let rel := Warehouse.relative_position_xyz (Warehouse.camera_metadata a) in
       (fst (fst rel) * fst (fst rel) + snd (fst rel) * snd (fst rel) = 1.0 * 1.0)%R
       /\ (- 0.2 <= snd rel <= 0.2)%R.
Proof.
  destruct sample_scene_completes as [out H].
  destruct (nth_error (Warehouse.camera_artifacts out) 3) as [a|] eqn:Hk.
  - exists out, a. split; [exact H|]. split; [exact Hk|].
    exact (X13_recorded_offset_is_the_ring_radius Sample.kubric Sample.renderer
             Sample.euler Sample.rng Sample.catalogs Sample.getcwd Warehouse.OUTPUT_DIR
             0 3 8 [0.8; 1.0]%R out 3 a sample_unit_draws H Hk).
  - exfalso. apply nth_error_None in Hk.
    rewrite (generate_scene_camera_count Sample.rng Sample.catalogs Sample.getcwd
               _ _ _ _ _ _ H) in Hk.
    simpl in Hk. lia.
Defined.

(* ================================================================== *)
(** * What discovery returns *)
(* ================================================================== *)

Section Discovery.

Import PyStr WarehouseUtils.
Local Open Scope string_scope.

(** Every group has a slot filled. *)
Definition filled (g : grouped) : Prop :=
  forall k t, In (k, t) g -> exists r f, get_role t r = Some f.

Lemma filled_assign g b r f : filled g -> filled (assign g b r f).
Proof.
  intros Hg k t Hkt.
  apply assign_entry in Hkt as [Hkt|(_ & v & -> & _)]; [now apply (Hg k)|].
  exists r, f. rewrite get_set_role. destruct r; reflexivity.
Qed.

Lemma filled_classify g file : filled g -> filled (classify g file).
Proof.
  intro Hg. unfold classify, patterns. cbn [fold_left fst snd].
  destruct (search ["color"; "albedo"] file);
    destruct (search ["normal"] file);
    destruct (search ["roughness"] file);
    repeat apply filled_assign; exact Hg.
Qed.

Lemma filled_group files : forall g, filled g -> filled (fold_left classify files g).
Proof.
  induction files as [|file files IH]; intros g Hg; simpl; [exact Hg|].
  apply IH. now apply filled_classify.
Qed.

Lemma texture_files_listed fs base_path f :
  In f (texture_files fs base_path) ->
  exists root dirs files file,
    In (root, dirs, files) (fs_walk fs base_path)
    /\ In file files /\ is_texture_file file = true /\ f = join root [file].
Proof.
  unfold texture_files. intro H.
  apply in_flat_map in H as ([[root dirs] files] & Hw & H).
  apply in_map_iff in H as (file & <- & H). apply filter_In in H as [Hin Ht].
  exists root, dirs, files, file. auto.
Qed.

Lemma discover_textures_sets fs base_path t :
  In t (discover_textures fs base_path) ->
  exists k, In (k, t) (group_textures (texture_files fs base_path)).
Proof.
  unfold discover_textures.
  destruct (negb (fs_exists fs base_path)); [intros []|]. cbv zeta.
  destruct (texture_files fs base_path) as [|f files] eqn:E; [intros []|].
  intro H. apply in_map_iff in H as ([k t'] & <- & H). now exists k.
Qed.

Lemma startswith_sep_free file :
  free_of sep_char file = true -> startswith file sep = false.
Proof.
  destruct file as [|c s]; [reflexivity|]. cbn [free_of]. intro Hfree.
  apply andb_true_iff in Hfree as [Hc _]. apply negb_true_iff in Hc.
  unfold startswith, sep. cbn [String.prefix]. unfold sep_char in Hc.
  destruct (Ascii.ascii_dec "/"%char c) as [<-|Hn].
  - now rewrite Ascii.eqb_refl in Hc.
  - reflexivity.
Qed.

(** [os.path.basename(os.path.join(root, file))] is [file] for a name
    without a slash. *)
Lemma basename_join root file :
  free_of sep_char file = true -> basename (join root [file]) = file.
Proof.
  intro Hf.
  destruct (join_file_form root file (startswith_sep_free _ Hf))
    as [[_ ->]|(d & -> & _)].
  - now apply basename_free.
  - now apply basename_below.
Qed.

(** The names [os.walk] lists are those of directory entries: they
    hold no slash. *)
Definition plain_listing (fs : filesystem) (base_path : string) : Prop :=
  forall root dirs files,
    In (root, dirs, files) (fs_walk fs base_path) ->
    Forall (fun file => free_of sep_char file = true) files.

Lemma discover_assets_listed fs base_path extensions p :
  In p (discover_assets fs base_path extensions) ->
  fs_exists fs base_path = true
  /\ exists root dirs files file,
      In (root, dirs, files) (fs_walk fs base_path)
      /\ In file files /\ has_extension extensions file = true
      /\ p = join root [file].
Proof.
  unfold discover_assets.
  destruct (fs_exists fs base_path); [|intros []]. simpl negb. cbv iota.
  intro H. split; [reflexivity|].
  apply in_flat_map in H as ([[root dirs] files] & Hw & H).
  apply in_map_iff in H as (file & <- & H). apply filter_In in H as [Hin Ht].
  exists root, dirs, files, file. auto.
Qed.

End Discovery.

(** X14. Every texture set [discover_textures] returns has at least
    one of its three slots filled, and a filled slot holds the joined
    path of a listed [.jpg] or [.png] file (in any letter case) in
    which the slot's pattern is found. *)
Theorem X14_texture_sets_are_never_empty :
  forall (fs : WarehouseUtils.filesystem) (base_path : string)
         (t : WarehouseUtils.texture_set),
    In t (WarehouseUtils.discover_textures fs base_path) ->
    (exists r f, WarehouseUtils.get_role t r = Some f)
    /\ forall r f,
        WarehouseUtils.get_role t r = Some f ->
        WarehouseUtils.search (words_of r) f = true
        /\ exists root dirs files file,
            In (root, dirs, files) (WarehouseUtils.fs_walk fs base_path)
            /\ In file files
            /\ WarehouseUtils.is_texture_file file = true
            /\ f = PyStr.join root [file].
Proof.
  intros fs base_path t H. apply discover_textures_sets in H as [k Hk].
  split.
  - apply (filled_group (WarehouseUtils.texture_files fs base_path) []) with (k := k).
    + intros ? ? [].
    + exact Hk.
  - intros r f Hget.
    destruct (grouping_by_base_name (WarehouseUtils.texture_files fs base_path))
      as (Hsound & _).
    destruct (Hsound k t r f Hk Hget) as (Hin & _ & Hsearch).
    split; [exact Hsearch|]. now apply texture_files_listed.
Qed.

Lemma X14_texture_sets_are_never_empty_witness :
  let fs := WarehouseUtils.single_directory "assets/wood" ["oak_Albedo.PNG"%string] in
  let t := WarehouseUtils.mkTextureSet (Some "assets/wood/oak_Albedo.PNG"%string)
             None None in
  In t (WarehouseUtils.discover_textures fs "assets/wood")
  /\ exists r f, WarehouseUtils.get_role t r = Some f.
Proof.
  cbv zeta.
  assert (H : In (WarehouseUtils.mkTextureSet (Some "assets/wood/oak_Albedo.PNG"%string)
                    None None)
                 (WarehouseUtils.discover_textures
                    (WarehouseUtils.single_directory "assets/wood"
                       ["oak_Albedo.PNG"%string]) "assets/wood"))
    by (vm_compute; left; reflexivity).
  split; [exact H|].
  exact (proj1 (X14_texture_sets_are_never_empty _ _ _ H)).
Defined.

(** X15. When the listing holds plain file names, every path
    [discover_assets] returns is the join of a listed directory with
    one of its files, its base name is that file name, and the file
    name carries one of the accepted extensions in some letter case;
    nothing is returned for a base path that does not exist. *)
Theorem X15_discovered_assets_keep_their_file_names :
  forall (fs : WarehouseUtils.filesystem) (base_path : string)
         (extensions : list string) (p : string),
    plain_listing fs base_path ->
    In p (WarehouseUtils.discover_assets fs base_path extensions) ->
    WarehouseUtils.fs_exists fs base_path = true
    /\ WarehouseUtils.has_extension extensions (PyStr.basename p) = true
    /\ exists root dirs files,
        In (root, dirs, files) (WarehouseUtils.fs_walk fs base_path)
        /\ In (PyStr.basename p) files
        /\ p = PyStr.join root [PyStr.basename p].
Proof.
  intros fs base_path extensions p Hplain H.
  apply discover_assets_listed in H
    as (Hex & root & dirs & files & file & Hw & Hin & Hext & ->).
  assert (Hfree : PyStr.free_of PyStr.sep_char file = true).
  { pose proof (Hplain _ _ _ Hw) as Hall.
    rewrite Forall_forall in Hall. now apply Hall. }
  rewrite (basename_join root file Hfree).
  split; [exact Hex|]. split; [exact Hext|].
  exists root, dirs, files. auto.
Qed.

Lemma X15_discovered_assets_keep_their_file_names_witness :
  let fs := WarehouseUtils.single_directory "assets/pallet"
              ["euro.OBJ"; "notes.txt"]%string in
  WarehouseUtils.discover_assets fs "assets/pallet" WarehouseUtils.asset_extensions
  = ["assets/pallet/euro.OBJ"%string]
  /\ WarehouseUtils.has_extension WarehouseUtils.asset_extensions
       (PyStr.basename "assets/pallet/euro.OBJ") = true.
Proof.
  cbv zeta. split; [vm_compute; reflexivity|].
  refine (proj1 (proj2 (X15_discovered_assets_keep_their_file_names
                          (WarehouseUtils.single_directory "assets/pallet"
                             ["euro.OBJ"; "notes.txt"]%string)
                          "assets/pallet" WarehouseUtils.asset_extensions
                          "assets/pallet/euro.OBJ" _ _))).
  - intros root dirs files Hin. vm_compute in Hin.
    destruct Hin as [Hin|[]]. injection Hin as <- <- <-.
    repeat constructor.
  - vm_compute. left. reflexivity.
Defined.

(* ================================================================== *)
(** * Properties of the archive *)
(* ================================================================== *)

Section ArchiveObjects.

Import PyStr Warehouse Hdf5Convert Hdf5Archive.
Local Open Scope string_scope.

Definition object_key (k : nat) : string := "object_" ++ str_of_nat k.

Lemma object_key_inj k k' : object_key k = object_key k' -> k = k'.
Proof.
  unfold object_key. intro H. apply append_inj_l in H. now apply str_of_nat_inj.
Qed.

(** The object loop never meets a taken key: it returns one group per
    record, in order. *)
Lemma object_groups_runs objs : forall start groups,
    (forall g, In g groups -> exists k, (k < start)%nat /\ og_key g = object_key k) ->
    object_groups (combine (seq start (List.length objs)) objs) groups
    = Ok (groups
          ++ map (fun io => object_group (fst io) (snd io))
               (combine (seq start (List.length objs)) objs))%list.
Proof.
  induction objs as [|obj objs IH]; intros start groups Hkeys.
  - simpl. now rewrite app_nil_r.
  - cbn [List.length seq combine object_groups map fst snd].
    unfold create_group.
    destruct (existsb (String.eqb (og_key (object_group start obj)))
                (map og_key groups)) eqn:E.
    + exfalso. apply existsb_exists in E as (x & Hx & Heq).
      apply String.eqb_eq in Heq. apply in_map_iff in Hx as (g & <- & Hg).
      destruct (Hkeys g Hg) as (k & Hk & Hkey). rewrite Hkey in Heq.
      apply object_key_inj in Heq. lia.
    + rewrite IH.
      * now rewrite <- app_assoc.
      * intros g Hg. apply in_app_or in Hg as [Hg|[<-|[]]].
        -- destruct (Hkeys g Hg) as (k & Hk & Hkey). exists k. split; [lia | exact Hkey].
        -- exists start. split; [lia | reflexivity].
Qed.

Lemma object_groups_enumerate objs :
  object_groups (enumerate objs) []
  = Ok (map (fun io => object_group (fst io) (snd io)) (enumerate objs)).
Proof. unfold enumerate. rewrite object_groups_runs; [reflexivity | intros g []]. Qed.

Lemma numbered_map_nth {A B} (f : nat -> A -> B) a : forall (l : list A) start k,
    nth_error l k = Some a ->
    nth_error (map (fun io => f (fst io) (snd io))
                 (combine (seq start (List.length l)) l)) k
    = Some (f (start + k)%nat a).
Proof.
  induction l as [|x l IH]; intros start k Hk; [destruct k; discriminate|].
  destruct k as [|k]; simpl in *.
  - injection Hk as ->. now rewrite Nat.add_0_r.
  - rewrite (IH (S start) k Hk). do 2 f_equal. lia.
Qed.

Lemma numbered_keys_from objs : forall start x,
    In x (map (fun io => og_key (object_group (fst io) (snd io)))
            (combine (seq start (List.length objs)) objs)) ->
    exists k, (start <= k)%nat /\ x = object_key k.
Proof.
  induction objs as [|obj objs IH]; intros start x Hx; [destruct Hx|].
  destruct Hx as [<-|Hx].
  - exists start. split; [lia | reflexivity].
  - apply IH in Hx as (k & Hk & ->). exists k. split; [lia | reflexivity].
Qed.

Lemma object_keys_distinct objs : forall start,
    NoDup (map (fun io => og_key (object_group (fst io) (snd io)))
             (combine (seq start (List.length objs)) objs)).
Proof.
  induction objs as [|obj objs IH]; intro start; [constructor|].
  cbn [List.length seq combine map]. constructor; [|apply IH].
  intro Hin. apply numbered_keys_from in Hin as (k & Hk & Heq).
  apply object_key_inj in Heq. cbn [fst] in Heq. lia.
Qed.

End ArchiveObjects.

Section ArchiveScenes.

Import PyStr Warehouse Hdf5Convert Hdf5Archive.
Local Open Scope string_scope.
Variable image : Type.
Variable fs : archive_fs image.

(** The metadata file the converter looks for in a camera directory. *)
Definition camera_path (scene_path cam_dir : string) : string :=
  join scene_path [cam_dir; "metadata.json"].

Definition camera_key (md : CameraMetadata) : string :=
  "camera_" ++ str_of_nat (camera_index md).

Lemma image_dataset_Ok path o :
  image_dataset fs path = Ok o ->
  if path_exists fs path
  then exists img, read_image fs path = Ok img /\ o = Some img
  else o = None.
Proof.
  unfold image_dataset. destruct (path_exists fs path).
  - destruct (read_image fs path) as [img|e]; [|discriminate].
    intro H. injection H as <-. now exists img.
  - intro H. now injection H as <-.
Qed.

Lemma camera_body_Ok scene_path cam_dir md g :
  camera_body fs scene_path cam_dir md = Ok g ->
  cg_key g = camera_key md
  /\ cg_transformation_matrix g
     = create_transformation_matrix (relative_position_xyz md)
         (relative_orientation_xyz md)
  /\ cg_position g = cam_position md
  /\ cg_relative_position g = relative_position_xyz md
  /\ cg_relative_orientation g = relative_orientation_xyz md
  /\ cg_focal_length g = cam_focal_length md
  /\ image_dataset fs (image_path scene_path cam_dir (rgba_path md))
     = Ok (cg_rgba_image g)
  /\ image_dataset fs (image_path scene_path cam_dir (depth_path md))
     = Ok (cg_depth_image g).
Proof.
  unfold camera_body. cbv zeta.
  destruct (image_dataset fs (image_path scene_path cam_dir (rgba_path md)))
    as [rgba|e]; [|discriminate].
  destruct (image_dataset fs (image_path scene_path cam_dir (depth_path md)))
    as [depth|e]; [|discriminate].
  intro H. injection H as <-. simpl. auto 8.
Qed.

(** A camera directory and the group made from it. *)
Definition converted (scene_path cam_dir : string) (g : CameraGroup image) : Prop :=
  exists md,
    load_camera_metadata fs (camera_path scene_path cam_dir) = Ok md
    /\ camera_body fs scene_path cam_dir md = Ok g.

Lemma NoDup_snoc {A} (l : list A) x : NoDup l -> ~ In x l -> NoDup (l ++ [x]).
Proof.
  induction 1 as [|y l Hy Hl IH]; intro Hx; simpl.
  - constructor; [intros [] | constructor].
  - constructor.
    + intro Hin. apply in_app_or in Hin as [Hin|[<-|[]]]; [contradiction|].
      apply Hx. now left.
    + apply IH. intro Hin. apply Hx. now right.
Qed.

(** The camera loop: one group per directory that holds a metadata
    file, in listing order, under keys that do not repeat. *)
Lemma camera_groups_Ok scene_path : forall dirs groups out,
    camera_groups fs scene_path dirs groups = Ok out ->
    exists new,
      out = (groups ++ new)%list
      /\ Forall2 (converted scene_path)
           (filter (fun d => path_exists fs (camera_path scene_path d)) dirs) new
      /\ (NoDup (map (@cg_key image) groups) -> NoDup (map (@cg_key image) out)).
Proof.
  induction dirs as [|d dirs IH]; intros groups out H.
  - simpl in H. injection H as <-. exists []. rewrite app_nil_r.
    split; [reflexivity|]. split; [constructor | auto].
  - cbn [camera_groups] in H. cbv zeta in H. fold (camera_path scene_path d) in H.
    cbn [filter]. destruct (path_exists fs (camera_path scene_path d)) eqn:E;
      cbn [negb] in H.
    + destruct (load_camera_metadata fs (camera_path scene_path d)) as [md|e] eqn:Hmd;
        [|discriminate].
      destruct (existsb _ _) eqn:Ek in H; [discriminate|].
      destruct (camera_body fs scene_path d md) as [g|e] eqn:Hg; [|discriminate].
      apply IH in H as (new & -> & Hall & Hnd).
      exists (g :: new). split; [now rewrite <- app_assoc|].
      split; [constructor; [now exists md | exact Hall]|].
      intro Hgroups. apply Hnd. rewrite map_app. apply NoDup_snoc; [exact Hgroups|].
      simpl. intro Hin.
      apply camera_body_Ok in Hg as (Hkey & _). rewrite Hkey in Hin.
      assert (Ht : existsb (String.eqb (camera_key md)) (map (@cg_key image) groups) = true).
      { apply existsb_exists. exists (camera_key md). split; [exact Hin|].
        apply String.eqb_refl. }
      unfold camera_key in Ht. rewrite Ht in Ek. discriminate.
    + now apply IH.
Qed.

Definition camera_dirs_of (scene_path : string) : list string :=
  filter (fun d => startswith d "cam_") (listdir fs scene_path).

(** What a successful [process_scene] is made of. *)
Lemma process_scene_Ok scene_path g :
  process_scene fs scene_path = Ok g ->
  exists md,
    load_scene_metadata fs (join scene_path ["metadata.json"]) = Ok md
    /\ sg_scene_index g = scene_index md
    /\ sg_warehouse_dimensions g
       = [length (warehouse_dimensions md); width (warehouse_dimensions md);
          height (warehouse_dimensions md)]
    /\ sg_ambient_light g = ambient_color md
    /\ sg_num_lights g = num_lights md
    /\ sg_objects g
       = map (fun io => object_group (fst io) (snd io)) (enumerate (objects md))
    /\ camera_groups fs scene_path (camera_dirs_of scene_path) [] = Ok (sg_cameras g).
Proof.
  unfold process_scene.
  destruct (load_scene_metadata fs (join scene_path ["metadata.json"])) as [md|e];
    [|discriminate].
  rewrite object_groups_enumerate. cbv zeta. fold (camera_dirs_of scene_path).
  destruct (camera_groups fs scene_path (camera_dirs_of scene_path) []) as [cams|e];
    [|discriminate].
  intro H. injection H as <-. exists md. simpl. auto 8.
Qed.

(** A scene that does not convert stops the loop over the scenes. *)
Lemma convert_scenes_stops root d : forall scene_dirs done,
    In d scene_dirs ->
    (exists e, process_scene fs (scene_path_of root d) = Raise e) ->
    exists e, convert_scenes fs root scene_dirs done = Raise e.
Proof.
  induction scene_dirs as [|d' dirs IH]; intros done Hin Hfail; [destruct Hin|].
  cbn [convert_scenes]. cbv zeta.
  destruct (existsb (String.eqb d') (map fst done)); [eauto|].
  destruct Hin as [->|Hin].
  - destruct Hfail as [e ->]. eauto.
  - destruct (process_scene fs (scene_path_of root d')) as [g|e]; [|eauto].
    now apply IH.
Qed.

End ArchiveScenes.

Section GeneratorTree.

Import PyStr Warehouse Hdf5Convert Hdf5Archive.
Local Open Scope string_scope.

(** The files [save_render_data] leaves in a camera directory. *)
Definition camera_files : list string :=
  ["rgba.png"; "depth.tiff"; "depth_normalized.png"; "segmentation.png";
   "metadata.json"].

(** The paths the generator creates below [OUTPUT_DIR]: the root, the
    scene directories with their metadata file, the camera
    directories with their five files. *)
Inductive generator_path : string -> Prop :=
  | gp_root : generator_path OUTPUT_DIR
  | gp_scene i : generator_path (scene_dir_of OUTPUT_DIR i)
  | gp_scene_metadata i :
      generator_path (join (scene_dir_of OUTPUT_DIR i) ["metadata.json"])
  | gp_camera i j : generator_path (camera_dir_of OUTPUT_DIR i j)
  | gp_camera_file i j file :
      In file camera_files ->
      generator_path (join (camera_dir_of OUTPUT_DIR i j) [file]).

Lemma scene_dir_segments i :
  scene_dir_of OUTPUT_DIR i = String.concat sep ["output"; scene_name i].
Proof.
  unfold scene_dir_of, OUTPUT_DIR. fold (scene_name i).
  change "output" with (String.concat sep ["output"]) at 1.
  rewrite (join_segments [scene_name i] ["output"]);
    [reflexivity | discriminate | apply cleans_segments; repeat constructor
     | apply cleans_segments; repeat constructor; apply scene_name_clean].
Qed.

Lemma camera_files_clean file : In file camera_files -> is_clean file = true.
Proof.
  intro H. repeat (destruct H as [<-|H]; [reflexivity|]). destruct H.
Qed.

(** No generator path is more than four components deep. *)
Lemma generator_path_short p :
  generator_path p ->
  exists l, l <> [] /\ segments l /\ (List.length l <= 4)%nat
            /\ p = String.concat sep l.
Proof.
  intros [|i|i|i j|i j file Hfile].
  - exists ["output"]. split; [discriminate|].
    split; [apply cleans_segments; repeat constructor|]. simpl. auto.
  - exists ["output"; scene_name i]. split; [discriminate|].
    split; [apply cleans_segments; repeat constructor; apply scene_name_clean|].
    split; [simpl; lia | apply scene_dir_segments].
  - exists ["output"; scene_name i; "metadata.json"]. split; [discriminate|].
    split; [apply cleans_segments; repeat constructor; apply scene_name_clean|].
    split; [simpl; lia|]. rewrite scene_dir_segments.
    rewrite (join_segments ["metadata.json"] ["output"; scene_name i]);
      [reflexivity | discriminate
       | apply cleans_segments; repeat constructor; apply scene_name_clean
       | apply cleans_segments; repeat constructor].
  - exists ["output"; scene_name i; cam_name j]. split; [discriminate|].
    split; [apply cleans_segments, run_segments|].
    split; [simpl; lia | apply camera_dir_segments].
  - pose proof (camera_files_clean _ Hfile) as Hclean.
    exists (["output"] ++ [scene_name i; cam_name j; file])%list.
    split; [discriminate|].
    split; [apply cleans_segments; constructor; [reflexivity | now apply tail_cleans]|].
    split; [simpl; lia | now apply written_file].
Qed.

(** What [save_render_data] stores in the document, in a working
    directory of clean components. *)
Lemma stored_paths_of_document `{KubricLib} `{Renderer} `{Geometry.EulerExtraction}
      comps i j camera pallet st art st1 :
  cleans comps ->
  save_render_data (root_of comps) OUTPUT_DIR i j camera pallet st = Ok (art, st1) ->
  rgba_path (camera_metadata art)
  = String.concat sep [scene_name i; cam_name j; "rgba.png"]
  /\ depth_path (camera_metadata art)
     = String.concat sep [scene_name i; cam_name j; "depth.tiff"].
Proof.
  intros Hc Hsave.
  apply save_render_data_Ok in Hsave
    as (rel & rr & rd & _ & Hrr & Hrd & _ & _ & _ & _ & _ & Hrp & Hdp).
  rewrite stored_path in Hrr, Hrd by (assumption || reflexivity).
  apply Ok_inj in Hrr, Hrd. subst rr rd. auto.
Qed.

Lemma Forall2_in_right {A B} (P : A -> B -> Prop) l1 l2 :
  Forall2 P l1 l2 -> forall b, In b l2 -> exists a, In a l1 /\ P a b.
Proof.
  induction 1 as [|a b l1 l2 Hab _ IH]; intros y Hy; [destruct Hy|].
  destruct Hy as [<-|Hy].
  - exists a. split; [now left | exact Hab].
  - destruct (IH y Hy) as (x & Hx & HP). exists x. split; [now right | exact HP].
Qed.

Lemma filter_filter {A} (f g : A -> bool) l :
  filter f (filter g l) = filter (fun x => andb (g x) (f x)) l.
Proof.
  induction l as [|x l IH]; simpl; [reflexivity|].
  destruct (g x); simpl; [destruct (f x)|]; now rewrite IH.
Qed.

(** Paths with clean components below the output root go no deeper
    than the generator's: root, scene, camera, file. *)
Definition shallow_output_tree {image : Type} (fs : archive_fs image) : Prop :=
  forall l,
    cleans l ->
    path_exists fs (String.concat sep ("output" :: l)) = true ->
    (List.length l <= 3)%nat.

(** A tree that holds the generator's paths only is that shallow. *)
Lemma generated_tree_is_shallow {image : Type} (fs : archive_fs image) :
  (forall p, path_exists fs p = true -> generator_path p) -> shallow_output_tree fs.
Proof.
  intros Hgen l Hl E. apply Hgen in E.
  apply generator_path_short in E as (l' & Hne & Hs & Hlen & Hp).
  apply concat_segments_inj in Hp; [| discriminate | assumption | | assumption].
  - subst l'. simpl in Hlen. lia.
  - apply cleans_segments. constructor; [reflexivity | exact Hl].
Qed.

Section IntactOutput.

Context {kubric : KubricLib} {renderer : Renderer} {euler : Geometry.EulerExtraction}.
Variable image : Type.
Variable fs : archive_fs image.
Variable comps : list string.
Variable i : nat.

Let scene_path : string := scene_path_of data_root (scene_name i).

Hypothesis comps_clean : cleans comps.
Hypothesis shallow : shallow_output_tree fs.
Hypothesis documents :
  forall d md,
    In d (listdir fs scene_path) ->
    startswith d "cam_" = true ->
    load_camera_metadata fs (camera_path scene_path d) = Ok md ->
    exists j camera pallet st art st1,
      d = cam_name j
      /\ save_render_data (root_of comps) OUTPUT_DIR i j camera pallet st = Ok (art, st1)
      /\ md = camera_metadata art.

(** The path the converter tests does not exist. *)
Lemma converter_path_absent j file :
  is_clean file = true ->
  path_exists fs
    (image_path scene_path (cam_name j)
       (String.concat sep [scene_name i; cam_name j; file])) = false.
Proof.
  intro Hfile.
  destruct (path_exists fs _) eqn:E; [exfalso | reflexivity].
  unfold scene_path in E. rewrite converter_path in E by assumption.
  apply (shallow [scene_name i; cam_name j; scene_name i; cam_name j; file]) in E.
  - simpl in E. lia.
  - repeat constructor;
      try apply scene_name_clean; try apply cam_name_clean; exact Hfile.
Qed.

Lemma intact_output_has_no_images g :
  process_scene fs scene_path = Ok g ->
  Forall (fun c => cg_rgba_image c = None /\ cg_depth_image c = None) (sg_cameras g).
Proof.
  intro H. apply process_scene_Ok in H as (md & _ & _ & _ & _ & _ & _ & Hcams).
  apply camera_groups_Ok in Hcams as (new & Hnew & Hall & _). simpl in Hnew. subst new.
  apply Forall_forall. intros c Hc.
  destruct (Forall2_in_right _ _ _ Hall c Hc) as (d & Hd & doc & Hload & Hbody).
  apply filter_In in Hd as [Hd _]. apply filter_In in Hd as [Hd Hcam].
  destruct (documents d doc Hd Hcam Hload)
    as (j & camera & pallet & st & art & st1 & -> & Hsave & ->).
  apply (stored_paths_of_document _ _ _ _ _ _ _ _ comps_clean) in Hsave as [Hrp Hdp].
  apply camera_body_Ok in Hbody as (_ & _ & _ & _ & _ & _ & Hrgba & Hdepth).
  rewrite Hrp in Hrgba. rewrite Hdp in Hdepth.
  apply image_dataset_Ok in Hrgba, Hdepth.
  rewrite converter_path_absent in Hrgba, Hdepth by reflexivity.
  auto.
Qed.

End IntactOutput.

End GeneratorTree.

(** An output tree with one scene and one camera, whose camera
    document is [doc]; the last scene directory listed holds no
    readable metadata. *)
Definition sample_archive (doc : Warehouse.CameraMetadata) : Hdf5Archive.archive_fs unit :=
  Hdf5Archive.mkArchiveFs
    (fun p => if String.eqb p "output/scene_0"
              then ["cam_0"; "metadata.json"; "notes"]%string
              else ["scene_0"; "scene_1"; "dataset.h5"]%string)
    (fun p => existsb (String.eqb p)
                ["output"; "output/scene_0"; "output/scene_0/metadata.json";
                 "output/scene_0/cam_0"; "output/scene_0/cam_0/rgba.png";
                 "output/scene_0/cam_0/depth.tiff";
                 "output/scene_0/cam_0/metadata.json"]%string)
    (fun p => if String.eqb p "output/scene_0/metadata.json"
              then Ok (Warehouse.mkSceneMetadata 0 (Warehouse.mkDims 30 20 8)
                         [1; 1; 1; 1]%R 5
                         [Warehouse.mkObjectRecord "target_euro.obj" (2, 3, 0.5)%R
                            (1, 1, 1)%R (0, 0, 0)%R])
              else Raise (mkExn ValueError "Expecting value"))
    (fun p => if String.eqb p "output/scene_0/cam_0/metadata.json"
              then Ok doc
              else Raise (mkExn ValueError "Expecting value"))
    (fun _ => Ok tt).

Lemma sample_archive_converts doc :
  Warehouse.rgba_path doc = "scene_0/cam_0/rgba.png"%string ->
  Warehouse.depth_path doc = "scene_0/cam_0/depth.tiff"%string ->
  exists g, Hdf5Archive.process_scene (sample_archive doc) "output/scene_0" = Ok g.
Proof.
  intros Hr Hd. unfold Hdf5Archive.process_scene.
  change (Hdf5Archive.load_scene_metadata (sample_archive doc)
            (PyStr.join "output/scene_0" ["metadata.json"%string]))
    with (Ok (Warehouse.mkSceneMetadata 0 (Warehouse.mkDims 30 20 8)
                [1; 1; 1; 1]%R 5
                [Warehouse.mkObjectRecord "target_euro.obj" (2, 3, 0.5)%R
                   (1, 1, 1)%R (0, 0, 0)%R])).
  cbv iota. rewrite object_groups_enumerate. cbv zeta.
  change (filter (fun d => PyStr.startswith d "cam_")
            (Hdf5Archive.listdir (sample_archive doc) "output/scene_0"))
    with ["cam_0"%string].
  cbn [Hdf5Archive.camera_groups]. cbv zeta.
  change (Hdf5Archive.path_exists (sample_archive doc)
            (PyStr.join "output/scene_0" ["cam_0"; "metadata.json"]%string))
    with true.
  change (Hdf5Archive.load_camera_metadata (sample_archive doc)
            (PyStr.join "output/scene_0" ["cam_0"; "metadata.json"]%string))
    with (Ok doc).
  cbn [negb map existsb]. cbv iota.
  unfold Hdf5Archive.camera_body, Hdf5Archive.image_dataset. cbv zeta.
  rewrite Hr, Hd.
  change (Hdf5Archive.path_exists (sample_archive doc)
            (Hdf5Convert.image_path "output/scene_0" "cam_0" "scene_0/cam_0/rgba.png"))
    with false.
  change (Hdf5Archive.path_exists (sample_archive doc)
            (Hdf5Convert.image_path "output/scene_0" "cam_0" "scene_0/cam_0/depth.tiff"))
    with false.
  cbv iota. eexists. reflexivity.
Qed.

Lemma sample_archive_only_generated doc :
  forall p, Hdf5Archive.path_exists (sample_archive doc) p = true -> generator_path p.
Proof.
  intros p H. cbn [Hdf5Archive.path_exists sample_archive] in H.
  apply existsb_exists in H as (x & Hx & Heq). apply String.eqb_eq in Heq. subst x.
  destruct Hx as [<-|[<-|[<-|[<-|[<-|[<-|[<-|[]]]]]]]].
  - exact gp_root.
  - exact (gp_scene 0).
  - exact (gp_scene_metadata 0).
  - exact (gp_camera 0 0).
  - apply (gp_camera_file 0 0 "rgba.png"). simpl. auto.
  - apply (gp_camera_file 0 0 "depth.tiff"). simpl. auto.
  - apply (gp_camera_file 0 0 "metadata.json"). simpl. auto 6.
Qed.

(** X16. [process_scene] gives the scene group the four attributes of
    the scene metadata and one object group per entry of [objects]:
    the group of entry [k] is keyed [object_k] and carries the entry's
    name, position, scale and rotation and the matrix built from its
    position and rotation; no object key is ever taken twice. *)
Theorem X16_one_object_group_per_entry :
  forall (image : Type) (fs : Hdf5Archive.archive_fs image) (scene_path : string)
         (g : Hdf5Archive.SceneGroup image),
    Hdf5Archive.process_scene fs scene_path = Ok g ->
    exists md,
      Hdf5Archive.load_scene_metadata fs (PyStr.join scene_path ["metadata.json"%string])
      = Ok md
      /\ Hdf5Archive.sg_scene_index g = Warehouse.scene_index md
      /\ Hdf5Archive.sg_num_lights g = Warehouse.num_lights md
      /\ Hdf5Archive.sg_ambient_light g = Warehouse.ambient_color md
      /\ List.length (Hdf5Archive.sg_objects g) = List.length (Warehouse.objects md)
      /\ NoDup (map Hdf5Archive.og_key (Hdf5Archive.sg_objects g))
      /\ forall k r,
          nth_error (Warehouse.objects md) k = Some r ->
          exists og,
            nth_error (Hdf5Archive.sg_objects g) k = Some og
            /\ Hdf5Archive.og_key og = object_key k
            /\ Hdf5Archive.og_name og = Warehouse.rec_name r
            /\ Hdf5Archive.og_position og = Warehouse.rec_position r
            /\ Hdf5Archive.og_scale og = Warehouse.rec_scale r
            /\ Hdf5Archive.og_rotation og = Warehouse.rec_rotation r
            /\ Hdf5Archive.og_transformation_matrix og
               = Hdf5Convert.create_transformation_matrix (Warehouse.rec_position r)
                   (Warehouse.rec_rotation r).
Proof.
  intros image fs scene_path g H.
  apply process_scene_Ok in H as (md & Hload & Hi & _ & Ha & Hn & Hobjs & _).
  exists md. split; [exact Hload|]. split; [exact Hi|]. split; [exact Hn|].
  split; [exact Ha|]. rewrite Hobjs. split.
  - now rewrite length_map, enumerate_length.
  - split.
    + rewrite map_map. unfold Warehouse.enumerate.
      apply (object_keys_distinct (Warehouse.objects md) 0).
    + intros k r Hk. exists (Hdf5Archive.object_group k r).
      split; [|simpl; auto 8].
      unfold Warehouse.enumerate.
      exact (numbered_map_nth Hdf5Archive.object_group r _ 0 k Hk).
Qed.

Definition sample_document : Warehouse.CameraMetadata :=
  Warehouse.mkCameraMetadata 0 (2.8, 3, 0.6)%R (2 - 2.8, 3 - 3, 0.5 - 0.6)%R (0, 0, 0)%R 5%R
    "scene_0/cam_0/rgba.png" "scene_0/cam_0/depth.tiff".

Lemma X16_one_object_group_per_entry_witness :
  exists g,
    Hdf5Archive.process_scene (sample_archive sample_document) "output/scene_0" = Ok g
    /\ Hdf5Archive.sg_scene_index g = 0%nat
    /\ List.length (Hdf5Archive.sg_objects g) = 1%nat.
Proof.
  destruct (sample_archive_converts sample_document eq_refl eq_refl) as [g H].
  exists g. split; [exact H|].
  destruct (X16_one_object_group_per_entry unit (sample_archive sample_document)
              "output/scene_0" g H) as (md & Hload & Hi & _ & _ & Hlen & _).
  change (Hdf5Archive.load_scene_metadata (sample_archive sample_document)
            (PyStr.join "output/scene_0" ["metadata.json"%string]))
    with (Ok (Warehouse.mkSceneMetadata 0 (Warehouse.mkDims 30 20 8)
                [1; 1; 1; 1]%R 5
                [Warehouse.mkObjectRecord "target_euro.obj" (2, 3, 0.5)%R
                   (1, 1, 1)%R (0, 0, 0)%R])) in Hload.
  apply Ok_inj in Hload. subst md. split; [exact Hi | exact Hlen].
Defined.

(** X17. [process_scene] makes one camera group for every listed
    entry that starts with [cam_] and holds a [metadata.json], in
    listing order and skipping the others; the group is keyed
    [camera_<camera_index>] from the document found there and carries
    its position and the matrix built from its relative position and
    orientation.  When it returns, no two groups share a key: a
    repeated camera index makes it raise. *)
Theorem X17_one_camera_group_per_document :
  forall (image : Type) (fs : Hdf5Archive.archive_fs image) (scene_path : string)
         (g : Hdf5Archive.SceneGroup image),
    Hdf5Archive.process_scene fs scene_path = Ok g ->
    NoDup (map (@Hdf5Archive.cg_key image) (Hdf5Archive.sg_cameras g))
    /\ Forall2
         (fun d c =>
            exists md,
              Hdf5Archive.load_camera_metadata fs (camera_path scene_path d) = Ok md
              /\ Hdf5Archive.cg_key c = camera_key md
              /\ Hdf5Archive.cg_position c = Warehouse.cam_position md
              /\ Hdf5Archive.cg_focal_length c = Warehouse.cam_focal_length md
              /\ Hdf5Archive.cg_transformation_matrix c
                 = Hdf5Convert.create_transformation_matrix
                     (Warehouse.relative_position_xyz md)
                     (Warehouse.relative_orientation_xyz md))
         (filter (fun d => andb (PyStr.startswith d "cam_")
                             (Hdf5Archive.path_exists fs (camera_path scene_path d)))
            (Hdf5Archive.listdir fs scene_path))
         (Hdf5Archive.sg_cameras g).
Proof.
  intros image fs scene_path g H.
  apply process_scene_Ok in H as (md & _ & _ & _ & _ & _ & _ & Hcams).
  apply camera_groups_Ok in Hcams as (new & Hnew & Hall & Hnd).
  simpl in Hnew. subst new. split; [apply Hnd; constructor|].
  unfold camera_dirs_of in Hall. rewrite filter_filter in Hall.
  eapply Forall2_impl; [|exact Hall].
  intros d c (doc & Hload & Hbody). exists doc. split; [exact Hload|].
  apply camera_body_Ok in Hbody as (Hk & Hm & Hp & _ & _ & Hf & _).
  auto.
Qed.

Lemma X17_one_camera_group_per_document_witness :
  exists g,
    Hdf5Archive.process_scene (sample_archive sample_document) "output/scene_0" = Ok g
    /\ map (@Hdf5Archive.cg_key unit) (Hdf5Archive.sg_cameras g) = ["camera_0"%string].
Proof.
  destruct (sample_archive_converts sample_document eq_refl eq_refl) as [g H].
  exists g. split; [exact H|].
  destruct (X17_one_camera_group_per_document unit (sample_archive sample_document)
              "output/scene_0" g H) as (_ & Hall).
  change (filter _ (Hdf5Archive.listdir (sample_archive sample_document) "output/scene_0"))
    with ["cam_0"%string] in Hall.
  inversion Hall as [|d c l cams (md & Hload & Hkey & _) Hrest]; subst.
  inversion Hrest; subst.
  change (Hdf5Archive.load_camera_metadata (sample_archive sample_document)
            (camera_path "output/scene_0" "cam_0"))
    with (Ok sample_document) in Hload.
  apply Ok_inj in Hload. subst md. simpl. now rewrite Hkey.
Defined.

(** X18. On an output tree in which nothing lies deeper below the
    output root than the generator puts it (scene, camera, file), and
    whose camera documents are the ones [save_render_data] wrote for
    their directories, [process_scene] finds neither image of any
    camera: every camera group it makes is without [rgba_image] and
    without [depth_image]. *)
Theorem X18_intact_output_is_archived_without_images :
  forall (kubric : Warehouse.KubricLib) (renderer : Warehouse.Renderer)
         (euler : Geometry.EulerExtraction)
         (image : Type) (fs : Hdf5Archive.archive_fs image)
         (comps : list string) (i : nat) (g : Hdf5Archive.SceneGroup image),
    let scene_path := Hdf5Convert.scene_path_of Hdf5Convert.data_root (scene_name i) in
    forallb is_clean comps = true ->
    (forall l,
        forallb is_clean l = true ->
        Hdf5Archive.path_exists fs (String.concat PyStr.sep ("output"%string :: l)) = true ->
        (List.length l <= 3)%nat) ->
    (forall d md,
        In d (Hdf5Archive.listdir fs scene_path) ->
        PyStr.startswith d "cam_" = true ->
        Hdf5Archive.load_camera_metadata fs (camera_path scene_path d) = Ok md ->
        exists j camera pallet st art st1,
          d = cam_name j
          /\ Warehouse.save_render_data (root_of comps) Warehouse.OUTPUT_DIR i j
               camera pallet st = Ok (art, st1)
          /\ md = Warehouse.camera_metadata art) ->
    Hdf5Archive.process_scene fs scene_path = Ok g ->
    Forall (fun c => Hdf5Archive.cg_rgba_image c = None
                     /\ Hdf5Archive.cg_depth_image c = None)
      (Hdf5Archive.sg_cameras g).
Proof.
  intros kubric renderer euler image fs comps i g scene_path Hcomps Hshallow Hdocs H.
  assert (Hc : cleans comps) by (apply Forall_forall; now apply forallb_forall).
  assert (Hs : shallow_output_tree fs).
  { intros l Hl. apply Hshallow. apply forallb_forall.
    now apply Forall_forall. }
  exact (intact_output_has_no_images image fs comps i Hc Hs Hdocs g H).
Qed.

(** X19. [convert_to_hdf5] has no per-scene recovery: when
    [process_scene] raises for one listed scene directory, the whole
    conversion raises. *)
Theorem X19_one_bad_scene_fails_the_conversion :
  forall (image : Type) (fs : Hdf5Archive.archive_fs image) (root d : string) (e : exn),
    In d (Hdf5Archive.listdir fs root) ->
    PyStr.startswith d "scene_" = true ->
    Hdf5Archive.process_scene fs (Hdf5Convert.scene_path_of root d) = Raise e ->
    exists e', Hdf5Archive.convert_to_hdf5 fs root = Raise e'.
Proof.
  intros image fs root d e Hin Hstart Hfail.
  unfold Hdf5Archive.convert_to_hdf5. cbv zeta.
  apply (convert_scenes_stops image fs root d).
  - apply filter_In. split; assumption.
  - now exists e.
Qed.

Lemma X19_one_bad_scene_fails_the_conversion_witness :
  exists e',
    Hdf5Archive.convert_to_hdf5 (sample_archive sample_document) "output" = Raise e'.
Proof.
  apply (X19_one_bad_scene_fails_the_conversion unit (sample_archive sample_document)
           "output" "scene_1" (mkExn ValueError "Expecting value")).
  - simpl. auto.
  - reflexivity.
  - reflexivity.
Defined.

Lemma sample_archive_is_shallow doc l :
  forallb is_clean l = true ->
  Hdf5Archive.path_exists (sample_archive doc)
    (String.concat PyStr.sep ("output"%string :: l)) = true ->
  (List.length l <= 3)%nat.
Proof.
  intro Hl.
  apply (generated_tree_is_shallow (sample_archive doc)
           (sample_archive_only_generated doc)).
  apply Forall_forall. now apply forallb_forall.
Qed.

Lemma sample_documents art :
  @Warehouse.save_render_data Sample.kubric Sample.renderer Sample.euler
    Sample.getcwd Warehouse.OUTPUT_DIR 0 0 Sample.camera Sample.pallet Sample.fresh
  = Ok (art, Sample.fresh) ->
  forall d md,
    In d (Hdf5Archive.listdir (sample_archive (Warehouse.camera_metadata art))
            (Hdf5Convert.scene_path_of Hdf5Convert.data_root (scene_name 0))) ->
    PyStr.startswith d "cam_" = true ->
    Hdf5Archive.load_camera_metadata (sample_archive (Warehouse.camera_metadata art))
      (camera_path (Hdf5Convert.scene_path_of Hdf5Convert.data_root (scene_name 0)) d)
    = Ok md ->
    exists j camera pallet st art' st1,
      d = cam_name j
      /\ @Warehouse.save_render_data Sample.kubric Sample.renderer Sample.euler
           (root_of ["home"; "user"; "Kubric-Pallets"]%string) Warehouse.OUTPUT_DIR 0 j
           camera pallet st = Ok (art', st1)
      /\ md = Warehouse.camera_metadata art'.
Proof.
  intros Hsave d md Hd _ Hload.
  change (Hdf5Archive.listdir _ _) with ["cam_0"; "metadata.json"; "notes"]%string in Hd.
  destruct Hd as [<-|[<-|[<-|[]]]].
  - change (Hdf5Archive.load_camera_metadata _ _)
      with (Ok (Warehouse.camera_metadata art)) in Hload.
    apply Ok_inj in Hload. subst md.
    exists 0%nat, Sample.camera, Sample.pallet, Sample.fresh, art, Sample.fresh.
    split; [reflexivity|]. split; [exact Hsave | reflexivity].
  - discriminate Hload.
  - discriminate Hload.
Qed.

Lemma X18_intact_output_is_archived_without_images_witness :
  exists art g,
    @Warehouse.save_render_data Sample.kubric Sample.renderer Sample.euler
      Sample.getcwd Warehouse.OUTPUT_DIR 0 0 Sample.camera Sample.pallet Sample.fresh
    = Ok (art, Sample.fresh)
    /\ Hdf5Archive.process_scene (sample_archive (Warehouse.camera_metadata art))
         "output/scene_0" = Ok g
    /\ Forall (fun c => Hdf5Archive.cg_rgba_image c = None
                        /\ Hdf5Archive.cg_depth_image c = None)
         (Hdf5Archive.sg_cameras g).
Proof.
  destruct sample_camera_is_documented as [art Hsave].
  destruct (@stored_paths_of_document Sample.kubric Sample.renderer Sample.euler
              ["home"; "user"; "Kubric-Pallets"]%string 0 0 Sample.camera Sample.pallet
              Sample.fresh art Sample.fresh)
    as [Hrp Hdp]; [repeat constructor | exact Hsave |].
  destruct (sample_archive_converts (Warehouse.camera_metadata art) Hrp Hdp) as [g H].
  exists art, g. split; [exact Hsave|]. split; [exact H|].
  exact (X18_intact_output_is_archived_without_images Sample.kubric Sample.renderer
           Sample.euler unit (sample_archive (Warehouse.camera_metadata art))
           ["home"; "user"; "Kubric-Pallets"]%string 0 g eq_refl
           (sample_archive_is_shallow _) (sample_documents art Hsave) H).
Defined.
